(** * DCA simulator: date completion (interpollation_filling.py) and
      dollar-cost-averaging simulation (plotcomp.py)

    Conventions of the embedding.
    - A pandas float cell is [float := option Qc]: [None] is NaN, [Some q] an
      exact rational (rounding is not modelled).
    - A timestamp is an integer ordinal ([Z]); in interpollation_filling.py the
      unit is the calendar day, so [pd.date_range(.., freq='D')] is the
      integer interval; in plotcomp.py any increasing numbering of the
      timestamps will do.
    - A Python exception is a constructor of [exn]; a call that may raise
      returns a [result]. *)

From Stdlib Require Import ZArith QArith Qcanon String List Bool Lia Sorted
  Permutation.
Import ListNotations.

(** ** Exceptions *)

Inductive exn : Set := IndexError | KeyError | ValueError | AttributeError.

Inductive result (A : Type) : Type :=
| Ok (a : A)
| Raise (e : exn).

Arguments Ok {A} a.
Arguments Raise {A} e.

Definition bind {A B : Type} (r : result A) (k : A -> result B) : result B :=
  match r with
  | Ok a => k a
  | Raise e => Raise e
  end.

Notation "x <- r ;; k" := (bind r (fun x => k))
  (at level 61, r at next level, right associativity).

(** ** Numbers *)

Abbreviation float := (option Qc) (only parsing).

Definition Qc_of_Z (z : Z) : Qc := Q2Qc (inject_Z z).
Definition Qc_of_nat (n : nat) : Qc := Qc_of_Z (Z.of_nat n).

(** [x < y] as a boolean. *)
Definition Qc_ltb (x y : Qc) : bool :=
  match (x ?= y)%Qc with Lt => true | _ => false end.

Definition fmul (x y : float) : float :=
  match x, y with Some a, Some b => Some (a * b)%Qc | _, _ => None end.

Definition fadd (x y : float) : float :=
  match x, y with Some a, Some b => Some (a + b)%Qc | _, _ => None end.

Definition Qc_sum (l : list Qc) : Qc := fold_right Qcplus 0%Qc l.

(** The non-NaN entries of a column, in order. *)
Fixpoint known (l : list float) : list Qc :=
  match l with
  | [] => []
  | Some q :: tl => q :: known tl
  | None :: tl => known tl
  end.

(** [Series.mean()] / [GroupBy.mean()]: NaN entries are skipped; the mean of
    no value is NaN. *)
Definition nanmean (l : list float) : float :=
  match known l with
  | [] => None
  | ks => Some (Qc_sum ks / Qc_of_nat (length ks))%Qc
  end.

(** ** Index helpers *)

Definition memZ (d : Z) (l : list Z) : bool := existsb (Z.eqb d) l.

(** Position of the first occurrence of a label. *)
Fixpoint index_of (d : Z) (l : list Z) : option nat :=
  match l with
  | [] => None
  | x :: tl => if (x =? d)%Z then Some O
               else match index_of d tl with
                    | Some i => Some (S i)
                    | None => None
                    end
  end.

(** [Series.duplicated().any()]: some label occurs more than once. *)
Fixpoint duplicated_any (l : list Z) : bool :=
  match l with
  | [] => false
  | d :: tl => memZ d tl || duplicated_any tl
  end.

(** * interpollation_filling.py *)

Module Filling.

(** A frame with its date column, parsed, and its numeric columns
    (column-major, as pandas stores them). *)
Record DataFrame : Set := mkDF {
  Date : list Z;
  fields : list (list float)
}.

(** *** handle_duplicates *)

(** Sorted, duplicate-free insertion: [groupby] sorts its keys. *)
Fixpoint insert_key (k : Z) (l : list Z) : list Z :=
  match l with
  | [] => [k]
  | x :: tl =>
      if (k <? x)%Z then k :: l
      else if (k =? x)%Z then l
      else x :: insert_key k tl
  end.

Definition group_keys (dates : list Z) : list Z :=
  fold_right insert_key [] dates.

(** The values of a column in the rows whose date is [k], in row order. *)
Fixpoint group_values (dates : list Z) (col : list float) (k : Z) : list float :=
  match dates, col with
  | d :: dates', v :: col' =>
      if (d =? k)%Z then v :: group_values dates' col' k
      else group_values dates' col' k
  | _, _ => []
  end.

(** [df.groupby(date_col).mean().reset_index()] *)
Definition groupby_mean (df : DataFrame) : DataFrame :=
  let keys := group_keys (Date df) in
  mkDF keys
       (map (fun col => map (fun k => nanmean (group_values (Date df) col k)) keys)
            (fields df)).

(** The count of duplicates that is printed and logged is left out. *)
Definition handle_duplicates (df : DataFrame) : DataFrame :=
  if duplicated_any (Date df) then groupby_mean df else df.

(** *** resample_and_fill *)

Definition index_min (l : list Z) : option Z :=
  match l with
  | [] => None
  | x :: tl => Some (fold_left Z.min tl x)
  end.

Definition index_max (l : list Z) : option Z :=
  match l with
  | [] => None
  | x :: tl => Some (fold_left Z.max tl x)
  end.

(** [pd.date_range(start=lo, end=hi, freq='D')] *)
Definition date_range (lo hi : Z) : list Z :=
  map (fun k => (lo + Z.of_nat k)%Z) (seq 0 (Z.to_nat (hi - lo + 1))).

(** The entry of a column in the row labelled [d]; NaN when there is no such
    row. *)
Definition cell_at_date (idx : list Z) (col : list float) (d : Z) : float :=
  match index_of d idx with
  | Some i => nth i col None
  | None => None
  end.

(** [df.reindex(all_dates)] on one column. *)
Definition reindex_col (idx : list Z) (col : list float) (all_dates : list Z)
  : list float :=
  map (cell_at_date idx col) all_dates.

Fixpoint ffill_from (prev : float) (l : list float) : list float :=
  match l with
  | [] => []
  | Some v :: tl => Some v :: ffill_from (Some v) tl
  | None :: tl => prev :: ffill_from prev tl
  end.

Definition ffill (l : list float) : list float := ffill_from None l.

Fixpoint bfill (l : list float) : list float :=
  match l with
  | [] => []
  | Some v :: tl => Some v :: bfill tl
  | None :: tl => let r := bfill tl in hd None r :: r
  end.

(** Distance to, and value of, the next non-NaN entry. *)
Fixpoint next_valid (l : list float) : option (nat * Qc) :=
  match l with
  | [] => None
  | Some v :: _ => Some (O, v)
  | None :: tl =>
      match next_valid tl with
      | Some (m, v) => Some (S m, v)
      | None => None
      end
  end.

(** [interpolate(method='linear')]: rows are equally spaced; [prev] is the last
    valid value with the number of NaN rows passed since.  Leading NaN stay
    (limit_direction is forward), trailing NaN repeat the last valid value. *)
Fixpoint interpolate_from (prev : option (Qc * nat)) (l : list float)
  : list float :=
  match l with
  | [] => []
  | Some v :: tl => Some v :: interpolate_from (Some (v, O)) tl
  | None :: tl =>
      match prev with
      | None => None :: interpolate_from None tl
      | Some (v1, k) =>
          match next_valid tl with
          | Some (m, v2) =>
              Some (v1 + (v2 - v1) * Qc_of_nat (S k) / Qc_of_nat (S k + S m))%Qc
          | None => Some v1
          end :: interpolate_from (Some (v1, S k)) tl
      end
  end.

Definition interpolate_linear (l : list float) : list float :=
  interpolate_from None l.

(** [col.fillna(col.mean())] *)
Definition fillna_value (fill : float) (l : list float) : list float :=
  map (fun v => match v with Some _ => v | None => fill end) l.

Definition fillna_mean (l : list float) : list float :=
  fillna_value (nanmean l) l.

Definition fill_with (fill_method : string) : result (list float -> list float) :=
  if String.eqb fill_method "ffill" then Ok ffill
  else if String.eqb fill_method "bfill" then Ok bfill
  else if String.eqb fill_method "linear" then Ok interpolate_linear
  else if String.eqb fill_method "mean" then Ok fillna_mean
  else Raise ValueError.

(** [df] already has the dates as [Date]; [set_index] makes them the labels.
    An empty index has NaT bounds, which [date_range] refuses; [reindex]
    refuses duplicate labels. *)
Definition resample_and_fill (df : DataFrame) (fill_method : string)
  : result DataFrame :=
  match index_min (Date df), index_max (Date df) with
  | Some lo, Some hi =>
      if duplicated_any (Date df) then Raise ValueError
      else
        let all_dates := date_range lo hi in
        let df_resampled :=
          map (fun col => reindex_col (Date df) col all_dates) (fields df) in
        fill <- fill_with fill_method ;;
        let df_filled := map fill df_resampled in
        Ok (mkDF all_dates (map (fun col => ffill (bfill col)) df_filled))
  | _, _ => Raise ValueError
  end.

(** [fill_missing_dates_with_interpolation] on a frame already read, without
    its log entries. *)
Definition fill_missing_dates_with_interpolation (df : DataFrame)
           (fill_method : string) : result DataFrame :=
  resample_and_fill (handle_duplicates df) fill_method.

End Filling.

(** * plotcomp.py *)

Module Plotcomp.

(** *** clean_data *)

(** A cell of a frame as [read_csv] delivers it: text or a float. *)
Inductive cell : Set :=
| Str (s : string)
| Num (x : float).

Definition cell_eq_dec (a b : cell) : {a = b} + {a <> b}.
Proof.
  decide equality.
  - apply string_dec.
  - decide equality. apply Qc_eq_dec.
Defined.

Definition mem_cell (c : cell) (l : list cell) : bool :=
  existsb (fun x => if cell_eq_dec c x then true else false) l.

(** A frame before [set_index]: column names and rows. *)
Record RawFrame : Set := mkRaw {
  columns : list string;
  rows : list (list cell)
}.

(** A frame indexed by timestamps; the index column is no longer a column. *)
Record Frame : Set := mkFrame {
  index : list Z;
  value_columns : list string;
  value_rows : list (list cell)
}.

Fixpoint col_pos (name : string) (cols : list string) : option nat :=
  match cols with
  | [] => None
  | c :: tl => if String.eqb c name then Some O
               else match col_pos name tl with
                    | Some i => Some (S i)
                    | None => None
                    end
  end.

Definition cell_at (pos : nat) (row : list cell) : cell := nth pos row (Num None).

Fixpoint remove_nth {A : Type} (n : nat) (l : list A) : list A :=
  match l, n with
  | [], _ => []
  | _ :: tl, O => tl
  | x :: tl, S n' => x :: remove_nth n' tl
  end.

(** [drop_duplicates(subset=col)] with the default [keep='first']: a row is
    dropped when its cell in that column was seen in an earlier row. *)
Fixpoint drop_duplicates_from (seen : list cell) (pos : nat)
         (rs : list (list cell)) : list (list cell) :=
  match rs with
  | [] => []
  | r :: tl =>
      let k := cell_at pos r in
      if mem_cell k seen then drop_duplicates_from seen pos tl
      else r :: drop_duplicates_from (k :: seen) pos tl
  end.

Definition drop_duplicates (pos : nat) (rs : list (list cell))
  : list (list cell) :=
  drop_duplicates_from [] pos rs.

(** Every label through one parser; the first label it does not fit raises
    ValueError. *)
Fixpoint parse_labels (parse : cell -> option Z) (cells : list cell)
  : result (list Z) :=
  match cells with
  | [] => Ok []
  | c :: tl =>
      match parse c with
      | Some d => ds <- parse_labels parse tl ;; Ok (d :: ds)
      | None => Raise ValueError
      end
  end.

Section CleanData.

(** [pd.to_datetime] on the labels of an index.  pandas infers one format for
    the whole column (from its first label) and reads every label with it:
    [to_datetime column c] is the timestamp the label [c] gets under the
    format of [column], [None] when that format does not fit it.  A blank
    label, which pandas turns into NaT, is outside the model. *)
Variable to_datetime : list cell -> cell -> option Z.

Definition to_datetime_index (cells : list cell) : result (list Z) :=
  parse_labels (to_datetime cells) cells.

(** The treatment [clean_data] gives to each of its two frames. *)
Definition clean_frame (df : RawFrame) : result Frame :=
  match col_pos "Date" (columns df) with
  | Some pos =>
      let kept := drop_duplicates pos (rows df) in
      idx <- to_datetime_index (map (cell_at pos) kept) ;;
      Ok (mkFrame idx (remove_nth pos (columns df)) (map (remove_nth pos) kept))
  | None => Raise KeyError
  end.

Definition clean_data (gold_df snp500_df : RawFrame) : result (Frame * Frame) :=
  g <- clean_frame gold_df ;;
  s <- clean_frame snp500_df ;;
  Ok (g, s).

End CleanData.

(** *** calculate_dca *)

(** A series, or the Price column of a frame, with its timestamp labels.  The
    indexes are increasing and without repetition, as [resample_data] leaves
    them. *)
Definition Series : Set := list (Z * float).

Definition labels (s : Series) : list Z := map fst s.

(** [s.loc[start:]] on an increasing index. *)
Definition loc_from (start : Z) (s : Series) : Series :=
  filter (fun p => (start <=? fst p)%Z) s.

(** [s.loc[d]] for a label that is in the index. *)
Fixpoint loc (s : Series) (d : Z) : float :=
  match s with
  | [] => None
  | (x, v) :: tl => if (x =? d)%Z then v else loc tl d
  end.

(** The local variables of [calculate_dca] that the loop updates. *)
Record State : Set := mkState {
  gold_shares : Qc;
  snp500_shares : Qc;
  total_invested : Qc;
  total_portfolio_values : list float;
  cumulative_invested : list Qc
}.

Definition initial_state : State := mkState 0%Qc 0%Qc 0%Qc [] [].

(** [if price > 0: shares += invest / price]; the comparison is false for a
    NaN price. *)
Definition buy (shares invest : Qc) (price : float) : Qc :=
  match price with
  | Some p => if Qc_ltb 0%Qc p then (shares + invest / p)%Qc else shares
  | None => shares
  end.

Section Loop.

Variables gold_monthly snp500_monthly : Series.
Variables total_invest gold_percentage snp_percentage : Qc.

(** One iteration of [for date in gold_monthly.index]. *)
Definition dca_body (st : State) (date : Z) : State :=
  if memZ date (labels gold_monthly) && memZ date (labels snp500_monthly) then
    let gold_invest := (total_invest * (gold_percentage / Qc_of_Z 100))%Qc in
    let snp_invest := (total_invest * (snp_percentage / Qc_of_Z 100))%Qc in
    let gold_shares' := buy (gold_shares st) gold_invest (loc gold_monthly date) in
    let snp500_shares' :=
      buy (snp500_shares st) snp_invest (loc snp500_monthly date) in
    let total_gold_value := fmul (Some gold_shares') (loc gold_monthly date) in
    let total_snp500_value :=
      fmul (Some snp500_shares') (loc snp500_monthly date) in
    let total_invested' := (total_invested st + total_invest)%Qc in
    mkState gold_shares' snp500_shares' total_invested'
            (total_portfolio_values st ++ [fadd total_gold_value total_snp500_value])
            (cumulative_invested st ++ [total_invested'])
  else st.

Definition dca_loop : State :=
  fold_left dca_body (labels gold_monthly) initial_state.

(** The state after each iteration, in order. *)
Fixpoint dca_trace (st : State) (dates : list Z) : list State :=
  match dates with
  | [] => []
  | d :: tl => let st' := dca_body st d in st' :: dca_trace st' tl
  end.

End Loop.

Definition rebalance_period (f : string) : option string :=
  if String.eqb f "monthly" then Some "M"%string
  else if String.eqb f "quarterly" then Some "Q"%string
  else if String.eqb f "semiannually" then Some "2Q"%string
  else if String.eqb f "annually" then Some "A"%string
  else None.

Section DCA.

(** [s.resample(rule).last()], pandas' period resampling. *)
Variable resample_last : string -> Series -> Series.

(** [calculate_dca] together with the states its loop went through.  An
    unknown frequency makes [rebalance_period.get] return [None], which
    [resample] cannot take; [iloc[-1]] of an empty series raises. *)
Definition calculate_dca_run (gold_monthly snp500_monthly : Series)
           (total_invest gold_percentage snp_percentage : Qc)
           (start_date : Z) (rebalance_frequency : option string)
  : list State * result (Series * Series) :=
  let gold := loc_from start_date gold_monthly in
  let snp := loc_from start_date snp500_monthly in
  let st := dca_loop gold snp total_invest gold_percentage snp_percentage in
  let total_portfolio_value_series :=
    combine (firstn (length (total_portfolio_values st)) (labels gold))
            (total_portfolio_values st) in
  let cumulative_invested_series :=
    combine (firstn (length (cumulative_invested st)) (labels gold))
            (map Some (cumulative_invested st)) in
  (dca_trace gold snp total_invest gold_percentage snp_percentage
             initial_state (labels gold),
   out <- match rebalance_frequency with
          | Some f =>
              if String.eqb f EmptyString then
                Ok (total_portfolio_value_series, cumulative_invested_series)
              else
                match rebalance_period f with
                | Some rebalance_freq =>
                    Ok (resample_last rebalance_freq total_portfolio_value_series,
                        resample_last rebalance_freq cumulative_invested_series)
                | None => Raise AttributeError
                end
          | None => Ok (total_portfolio_value_series, cumulative_invested_series)
          end ;;
   match fst out with
   | [] => Raise IndexError
   | _ :: _ => Ok out
   end).

Definition calculate_dca (gold_monthly snp500_monthly : Series)
           (total_invest gold_percentage snp_percentage : Qc)
           (start_date : Z) (rebalance_frequency : option string)
  : result (Series * Series) :=
  snd (calculate_dca_run gold_monthly snp500_monthly total_invest
                         gold_percentage snp_percentage start_date
                         rebalance_frequency).

(** *** collect_dca_scenarios *)

(** What the user types for one scenario (amounts parsed, answers stripped and
    lower-cased); the frequency is asked for only after a "yes". *)
Record ScenarioInput : Set := mkInput {
  total_invest_in : Qc;
  gold_percentage_in : Qc;
  rebalance_in : string;
  frequency_in : string
}.

(** The content of the label string. *)
Record Label : Set := mkLabel {
  scenario_number : nat;
  label_total_invest : Qc;
  label_gold_percentage : Qc;
  label_snp_percentage : Qc;
  label_rebalance : option string
}.

Definition Scenario : Set := (Series * Series * Label)%type.

Definition rebalance_answer (inp : ScenarioInput) : option string :=
  if String.eqb (rebalance_in inp) "yes" then Some (frequency_in inp) else None.

(** The body of [for i in range(num_scenarios)] up to the [append]. *)
Definition run_scenario (gold_monthly snp500_monthly : Series) (i : nat)
           (inp : ScenarioInput) : result Scenario :=
  let total_invest := total_invest_in inp in
  let gold_percentage := gold_percentage_in inp in
  let snp_percentage := (Qc_of_Z 100 - gold_percentage)%Qc in
  let rebalance_frequency := rebalance_answer inp in
  start <- match labels gold_monthly with
           | d :: _ => Ok d
           | [] => Raise IndexError
           end ;;
  r <- calculate_dca gold_monthly snp500_monthly total_invest gold_percentage
                     snp_percentage start rebalance_frequency ;;
  Ok (fst r, snd r,
      mkLabel (S i) total_invest gold_percentage snp_percentage
              rebalance_frequency).

(** The loop from scenario number [i] on; an exception leaves the loop and the
    function. *)
Fixpoint collect_from (gold_monthly snp500_monthly : Series) (i : nat)
         (inputs : list ScenarioInput) : result (list Scenario) :=
  match inputs with
  | [] => Ok []
  | inp :: tl =>
      s <- run_scenario gold_monthly snp500_monthly i inp ;;
      rest <- collect_from gold_monthly snp500_monthly (S i) tl ;;
      Ok (s :: rest)
  end.

Definition collect_dca_scenarios (inputs : list ScenarioInput)
           (gold_monthly snp500_monthly : Series) : result (list Scenario) :=
  collect_from gold_monthly snp500_monthly 0 inputs.

End DCA.

(** The dates the simulation is specified over: present in both series, not
    before the start date, in the order of the first series. *)
Definition eligible_dates (gold_monthly snp500_monthly : Series) (start_date : Z)
  : list Z :=
  filter (fun d => (start_date <=? d)%Z && memZ d (labels snp500_monthly))
         (labels gold_monthly).

(** *** get_starting_date *)

(** One round of the loop of [get_starting_date]: a date that is not a label
    of the frame moves to the least later label; without any, [ValueError]. *)
Definition adjust_starting_date (idx : list Z) (starting_date : Z) : result Z :=
  if memZ starting_date idx then Ok starting_date
  else
    match filter (fun d => (starting_date <? d)%Z) idx with
    | [] => Raise ValueError
    | x :: tl => Ok (fold_left Z.min tl x)
    end.

(** [get_starting_date] from the date that the year and month typed in make:
    the gold frame is looked at first, the index frame with the date that
    came out of it. *)
Definition get_starting_date (gold_df snp500_df : Frame) (starting_date : Z)
  : result Z :=
  d <- adjust_starting_date (index gold_df) starting_date ;;
  adjust_starting_date (index snp500_df) d.

(** *** filter_data *)

(** [df.loc[...]] by a range of labels of an increasing index: the rows whose
    label is in the range. *)
Definition slice_rows (keep : Z -> bool) (df : Frame) : Frame :=
  let kept := filter (fun p => keep (fst p)) (combine (index df) (value_rows df)) in
  mkFrame (map fst kept) (value_columns df) (map snd kept).

(** [filter_data].  When a frame has no row from the starting date on, its
    first and last label are NaT; slicing by such bounds is left out of the
    embedding ([None]). *)
Definition filter_data (gold_df snp500_df : Frame) (starting_date : Z)
  : option (Frame * Frame) :=
  let gold := slice_rows (fun d => (starting_date <=? d)%Z) gold_df in
  let snp := slice_rows (fun d => (starting_date <=? d)%Z) snp500_df in
  match Filling.index_min (index gold), Filling.index_min (index snp),
        Filling.index_max (index gold), Filling.index_max (index snp) with
  | Some gold_min, Some snp_min, Some gold_max, Some snp_max =>
      let start_date := Z.max gold_min snp_min in
      let end_date := Z.min gold_max snp_max in
      let in_range := fun d => (start_date <=? d)%Z && (d <=? end_date)%Z in
      Some (slice_rows in_range gold, slice_rows in_range snp)
  | _, _, _, _ => None
  end.

End Plotcomp.

(** * Specification vocabulary *)

(** [a] occurs at an earlier position of [l] than [b]. *)
Definition precedes (l : list Z) (a b : Z) : Prop :=
  exists i j, (i < j)%nat /\ nth_error l i = Some a /\ nth_error l j = Some b.

(** Two distinct dates that follow each other in the output do so in the
    input. *)
Definition order_preserved (inp out : list Z) : Prop :=
  forall a b, a <> b -> precedes out a b -> precedes inp a b.

(** Every numeric column has one entry per date. *)
Definition rectangular (df : Filling.DataFrame) : Prop :=
  Forall (fun col => length col = length (Filling.Date df)) (Filling.fields df).

(** The output has one point per input date, holding for each field the mean
    of the group's values. *)
Definition dedup_points (df out : Filling.DataFrame) : Prop :=
  NoDup (Filling.Date out) /\
  (forall d, In d (Filling.Date out) <-> In d (Filling.Date df)) /\
  length (Filling.fields out) = length (Filling.fields df) /\
  (forall j col i d,
      nth_error (Filling.fields df) j = Some col ->
      nth_error (Filling.Date out) i = Some d ->
      exists ocol,
        nth_error (Filling.fields out) j = Some ocol /\
        nth_error ocol i = Some (nanmean (Filling.group_values (Filling.Date df) col d)) /\
        (forall v, Filling.group_values (Filling.Date df) col d = [v] ->
                   nth_error ocol i = Some v) /\
        (forall q qs,
            Filling.group_values (Filling.Date df) col d = map Some (q :: qs) ->
            nth_error ocol i =
              Some (Some (Qc_sum (q :: qs) / Qc_of_nat (length (q :: qs)))%Qc))).


(** A column with at least one entry that is not NaN. *)
Definition has_known (l : list float) : Prop := exists q, In (Some q) l.

(** A column without NaN. *)
Definition all_known (l : list float) : Prop := Forall (fun v => v <> None) l.

(** A column of NaN only. *)
Definition all_nan (l : list float) : Prop := Forall (fun v => v = None) l.

(** A fill keeps the length of the column and every known entry. *)
Definition keeps_known (f : list float -> list float) : Prop :=
  forall l, length (f l) = length l /\
            forall i q, nth_error l i = Some (Some q) ->
                        nth_error (f l) i = Some (Some q).

(** The fill methods [resample_and_fill] accepts. *)
Definition recognized (fill_method : string) : Prop :=
  In fill_method ["ffill"; "bfill"; "linear"; "mean"]%string.

(** Gap closure as the specification words it: for a non-empty frame with
    unique dates and a recognized method, the output is dated by every day
    from the earliest to the latest input date, once each and in ascending
    order, and holds no NaN. *)
Definition gap_free_spec (df : Filling.DataFrame) (fill_method : string) : Prop :=
  Filling.Date df <> [] -> NoDup (Filling.Date df) -> rectangular df ->
  recognized fill_method ->
  exists lo hi out,
    Filling.index_min (Filling.Date df) = Some lo /\
    Filling.index_max (Filling.Date df) = Some hi /\
    Filling.resample_and_fill df fill_method = Ok out /\
    (forall d, In d (Filling.Date out) <-> (lo <= d <= hi)%Z) /\
    (forall d, (lo <= d <= hi)%Z ->
               count_occ Z.eq_dec (Filling.Date out) d = 1%nat) /\
    StronglySorted Z.lt (Filling.Date out) /\
    Forall all_known (Filling.fields out).

(** The methods that fill from a neighbouring value. *)
Definition nearest_method (fill_method : string) : Prop :=
  In fill_method ["ffill"; "bfill"; "linear"]%string.

(** [l1] is [l2] with some elements left out, the others in their order. *)
Inductive Subsequence {A : Type} : list A -> list A -> Prop :=
| sub_nil : Subsequence [] []
| sub_skip (x : A) (l1 l2 : list A) :
    Subsequence l1 l2 -> Subsequence l1 (x :: l2)
| sub_keep (x : A) (l1 l2 : list A) :
    Subsequence l1 l2 -> Subsequence (x :: l1) (x :: l2).

(** Row [r'] has the Date cell of row [r]. *)
Definition same_date (pos : nat) (r r' : list Plotcomp.cell) : bool :=
  if Plotcomp.cell_eq_dec (Plotcomp.cell_at pos r') (Plotcomp.cell_at pos r)
  then true else false.

(** The Date column of [df] as [pd.to_datetime] gets it: the Date cells of
    the rows left by [drop_duplicates]. *)
Definition date_column (pos : nat) (df : Plotcomp.RawFrame) : list Plotcomp.cell :=
  map (Plotcomp.cell_at pos) (Plotcomp.drop_duplicates pos (Plotcomp.rows df)).

(** [out] is the frame [df] cleaned on its Date column at [pos]: the kept rows
    are rows of [df] in their order, one per Date cell, and the row kept for a
    Date cell is, whole, the first row of [df] that has it; the index holds
    the kept Date cells, read with the format of their column. *)
Definition cleaned (to_datetime : list Plotcomp.cell -> Plotcomp.cell -> option Z)
           (pos : nat) (df : Plotcomp.RawFrame) (out : Plotcomp.Frame) : Prop :=
  exists kept,
    Subsequence kept (Plotcomp.rows df) /\
    NoDup (map (Plotcomp.cell_at pos) kept) /\
    (forall r, In r (Plotcomp.rows df) ->
               find (same_date pos r) kept =
               find (same_date pos r) (Plotcomp.rows df)) /\
    (NoDup (map (Plotcomp.cell_at pos) (Plotcomp.rows df)) ->
     kept = Plotcomp.rows df) /\
    Plotcomp.value_rows out = map (Plotcomp.remove_nth pos) kept /\
    Plotcomp.value_columns out = Plotcomp.remove_nth pos (Plotcomp.columns df) /\
    map Some (Plotcomp.index out) =
    map (fun r => to_datetime (date_column pos df) (Plotcomp.cell_at pos r)) kept.

(** Different Date cells of the frame are different dates: read with the
    format of the column they parse to different timestamps. *)
Definition parses_apart (to_datetime : list Plotcomp.cell -> Plotcomp.cell -> option Z)
           (df : Plotcomp.RawFrame) : Prop :=
  forall pos r r',
    Plotcomp.col_pos "Date" (Plotcomp.columns df) = Some pos ->
    In r (Plotcomp.rows df) -> In r' (Plotcomp.rows df) ->
    to_datetime (date_column pos df) (Plotcomp.cell_at pos r)
    = to_datetime (date_column pos df) (Plotcomp.cell_at pos r') ->
    Plotcomp.cell_at pos r = Plotcomp.cell_at pos r'.

(** Cleaning as the specification words it: of the rows of one date only the
    first is kept, so no date is left twice in either frame. *)
Definition one_row_per_date_spec
           (to_datetime : list Plotcomp.cell -> Plotcomp.cell -> option Z)
           (gold_df snp500_df : Plotcomp.RawFrame) : Prop :=
  forall g s,
    Plotcomp.clean_data to_datetime gold_df snp500_df = Ok (g, s) ->
    NoDup (Plotcomp.index g) /\ NoDup (Plotcomp.index s).

(** The amounts [m], [2 m], ..., [n m]. *)
Definition multiples (m : Qc) (n : nat) : list Qc :=
  map (fun i => (Qc_of_nat (S i) * m)%Qc) (seq 0 n).

(** A series with its values as reduced fractions. *)
Definition series_view (s : Plotcomp.Series) : list (Z * option Q) :=
  map (fun p => (fst p, option_map this (snd p))) s.

(** The loop of [calculate_dca] treats the date [d]: it is in both (sliced)
    indexes. *)
Definition simulated (gold snp : Plotcomp.Series) (d : Z) : bool :=
  memZ d (Plotcomp.labels gold) && memZ d (Plotcomp.labels snp).

(** A rebalance answer that is set to a frequency [rebalance_period] does not
    know. *)
Definition unknown_frequency (rebalance_frequency : option string) : bool :=
  match rebalance_frequency with
  | Some f =>
      negb (String.eqb f EmptyString) &&
      match Plotcomp.rebalance_period f with Some _ => false | None => true end
  | None => false
  end.

(** What the loop of [calculate_dca] maintains: the running total is the
    number of recorded steps times the monthly amount, and both lists grow
    together. *)
Definition loop_invariant (total_invest : Qc) (st : Plotcomp.State) : Prop :=
  Plotcomp.total_invested st =
    (Qc_of_nat (length (Plotcomp.cumulative_invested st)) * total_invest)%Qc /\
  Plotcomp.cumulative_invested st =
    multiples total_invest (length (Plotcomp.cumulative_invested st)) /\
  length (Plotcomp.total_portfolio_values st) =
    length (Plotcomp.cumulative_invested st).

(** The two series [calculate_dca] builds after its loop, before any
    resampling. *)
Definition value_series (gold_monthly snp500_monthly : Plotcomp.Series)
           (m gp sp : Qc) (start : Z) : Plotcomp.Series :=
  let gold := Plotcomp.loc_from start gold_monthly in
  let st := Plotcomp.dca_loop gold (Plotcomp.loc_from start snp500_monthly)
                              m gp sp in
  combine (firstn (length (Plotcomp.total_portfolio_values st))
                  (Plotcomp.labels gold))
          (Plotcomp.total_portfolio_values st).

Definition invested_series (gold_monthly snp500_monthly : Plotcomp.Series)
           (m gp sp : Qc) (start : Z) : Plotcomp.Series :=
  let gold := Plotcomp.loc_from start gold_monthly in
  let st := Plotcomp.dca_loop gold (Plotcomp.loc_from start snp500_monthly)
                              m gp sp in
  combine (firstn (length (Plotcomp.cumulative_invested st))
                  (Plotcomp.labels gold))
          (map Some (Plotcomp.cumulative_invested st)).


(** The outcome of every scenario of a batch, numbered from [i]. *)
Fixpoint results_from (resample_last : string -> Plotcomp.Series -> Plotcomp.Series)
         (gold_monthly snp500_monthly : Plotcomp.Series) (i : nat)
         (inputs : list Plotcomp.ScenarioInput)
  : list (result Plotcomp.Scenario) :=
  match inputs with
  | [] => []
  | inp :: tl =>
      Plotcomp.run_scenario resample_last gold_monthly snp500_monthly i inp
      :: results_from resample_last gold_monthly snp500_monthly (S i) tl
  end.

(** Failure isolation as the specification words it: whatever else fails,
    a scenario that succeeds has its result in the returned batch. *)
Definition isolates_failures
           (resample_last : string -> Plotcomp.Series -> Plotcomp.Series)
           (gold_monthly snp500_monthly : Plotcomp.Series)
           (inputs : list Plotcomp.ScenarioInput) : Prop :=
  forall i inp s,
    nth_error inputs i = Some inp ->
    Plotcomp.run_scenario resample_last gold_monthly snp500_monthly i inp = Ok s ->
    exists outs,
      Plotcomp.collect_dca_scenarios resample_last inputs gold_monthly
                                     snp500_monthly = Ok outs /\
      nth_error outs i = Some s.

(** ** Sample data *)


(** A series with one date missing between two known ones. *)
Definition gapped_df : Filling.DataFrame :=
  Filling.mkDF [1; 5; 3]%Z
       [[Some (Qc_of_Z 10); Some (Qc_of_Z 50); None]].

(** A series of two fields, the second of which has no value at all. *)
Definition blank_field_df : Filling.DataFrame :=
  Filling.mkDF [1; 3]%Z
       [[Some (Qc_of_Z 10); Some (Qc_of_Z 30)]; [None; None]].

(** A parser to run the examples with, after [pd.to_datetime], for two month
    ends (in days since 1970-01-01).  The format of a column is that of its
    first label: year-month-day, or month/day/year; a month is read with or
    without its leading zero, and a label in the other format does not
    parse. *)
Inductive sample_format : Set := year_month_day | month_day_year.

Definition sample_strptime (f : sample_format) (c : Plotcomp.cell) : option Z :=
  match c, f with
  | Plotcomp.Str s, year_month_day =>
      if String.eqb s "2020-01-31" then Some 18292%Z
      else if String.eqb s "2020-02-29" then Some 18321%Z
      else None
  | Plotcomp.Str s, month_day_year =>
      if String.eqb s "01/31/2020" || String.eqb s "1/31/2020" then Some 18292%Z
      else if String.eqb s "02/29/2020" || String.eqb s "2/29/2020"
           then Some 18321%Z
      else None
  | Plotcomp.Num _, _ => None
  end.

Definition sample_guess_format (c : Plotcomp.cell) : option sample_format :=
  match sample_strptime year_month_day c, sample_strptime month_day_year c with
  | Some _, _ => Some year_month_day
  | None, Some _ => Some month_day_year
  | None, None => None
  end.

Definition sample_to_datetime (column : list Plotcomp.cell) (c : Plotcomp.cell)
  : option Z :=
  match column with
  | first :: _ =>
      match sample_guess_format first with
      | Some f => sample_strptime f c
      | None => None
      end
  | [] => None
  end.

(** A gold frame in which 2020-01-31 occurs twice, with different prices. *)
Definition repeated_gold_df : Plotcomp.RawFrame :=
  Plotcomp.mkRaw ["Date"; "Price"]%string
    [[Plotcomp.Str "2020-01-31"; Plotcomp.Num (Some (Qc_of_Z 100))];
     [Plotcomp.Str "2020-01-31"; Plotcomp.Num (Some (Qc_of_Z 300))];
     [Plotcomp.Str "2020-02-29"; Plotcomp.Num (Some (Qc_of_Z 110))]].

Definition sample_snp500_df : Plotcomp.RawFrame :=
  Plotcomp.mkRaw ["Date"; "SP500"]%string
    [[Plotcomp.Str "2020-01-31"; Plotcomp.Num (Some (Qc_of_Z 10))];
     [Plotcomp.Str "2020-02-29"; Plotcomp.Num (Some (Qc_of_Z 11))]].

(** A gold frame in which 31 January 2020 is written in two ways, and one in
    which the two dates are written in two formats. *)
Definition respelled_gold_df : Plotcomp.RawFrame :=
  Plotcomp.mkRaw ["Date"; "Price"]%string
    [[Plotcomp.Str "01/31/2020"; Plotcomp.Num (Some (Qc_of_Z 100))];
     [Plotcomp.Str "1/31/2020"; Plotcomp.Num (Some (Qc_of_Z 300))];
     [Plotcomp.Str "02/29/2020"; Plotcomp.Num (Some (Qc_of_Z 110))]].

Definition mixed_format_gold_df : Plotcomp.RawFrame :=
  Plotcomp.mkRaw ["Date"; "Price"]%string
    [[Plotcomp.Str "2020-01-31"; Plotcomp.Num (Some (Qc_of_Z 100))];
     [Plotcomp.Str "02/29/2020"; Plotcomp.Num (Some (Qc_of_Z 110))]].

(** A resampler to run the examples with, after pandas' period-end bins for
    an increasing series dated by month ordinals ([12 * year + month - 1]).
    A rule names a base period of 1, 3 or 12 calendar months and how many of
    them make a bin; the bins are counted from the base period of the first
    point; every bin up to the one of the last point is reported, under its
    last month, with the last known value that falls into it (NaN when there
    is none). *)
Definition rule_unit (rule : string) : Z * Z :=
  if String.eqb rule "Q" then (3, 1)%Z
  else if String.eqb rule "2Q" then (3, 2)%Z
  else if String.eqb rule "A" then (12, 1)%Z
  else (1, 1)%Z.

Definition bin_of (rule : string) (first m : Z) : Z :=
  let (u, k) := rule_unit rule in ((m / u - first / u + k - 1) / k)%Z.

Definition bin_label (rule : string) (first j : Z) : Z :=
  let (u, k) := rule_unit rule in (u * (first / u + k * j) + u - 1)%Z.

Definition last_known_in (rule : string) (first : Z) (s : Plotcomp.Series)
           (j : Z) : float :=
  fold_left (fun acc p =>
               if (bin_of rule first (fst p) =? j)%Z
               then match snd p with Some v => Some v | None => acc end
               else acc)
            s None.

Definition sample_resample_last (rule : string) (s : Plotcomp.Series)
  : Plotcomp.Series :=
  match s with
  | [] => []
  | (first, _) :: _ =>
      let bins := S (Z.to_nat (bin_of rule first (fst (last s (first, None))))) in
      map (fun j => (bin_label rule first (Z.of_nat j),
                     last_known_in rule first s (Z.of_nat j)))
          (seq 0 bins)
  end.

(** Gold and the index for January to March 2020, the prices of the
    specification's scenario; the index without February; and four months
    with a gold price of zero in April. *)
Definition sample_gold : Plotcomp.Series :=
  [(24240, Some (Qc_of_Z 100)); (24241, Some (Qc_of_Z 110));
   (24242, Some (Qc_of_Z 121))]%Z.

Definition sample_snp500 : Plotcomp.Series :=
  [(24240, Some (Qc_of_Z 10)); (24241, Some (Qc_of_Z 11));
   (24242, Some (Q2Qc (121 # 10)))]%Z.

Definition gapped_snp500 : Plotcomp.Series :=
  [(24240, Some (Qc_of_Z 10)); (24242, Some (Q2Qc (121 # 10)))]%Z.

Definition gold_with_zero : Plotcomp.Series :=
  sample_gold ++ [(24243, Some (Qc_of_Z 0))]%Z.

Definition snp500_four : Plotcomp.Series :=
  sample_snp500 ++ [(24243, Some (Qc_of_Z 12))]%Z.

(** A scenario asking for a frequency the program does not offer, and a plain
    one. *)
Definition weekly_scenario : Plotcomp.ScenarioInput :=
  Plotcomp.mkInput (Qc_of_Z 1000) (Qc_of_Z 50) "yes" "weekly".

Definition plain_scenario : Plotcomp.ScenarioInput :=
  Plotcomp.mkInput (Qc_of_Z 1000) (Qc_of_Z 50) "no" EmptyString.

(** A series in which the date 5 occurs twice with the same value. *)
Definition agreeing_df : Filling.DataFrame :=
  Filling.mkDF [5; 2; 5]%Z
       [[Some (Qc_of_Z 7); Some (Qc_of_Z 3); Some (Qc_of_Z 7)]].

(** A series whose field has no value at its first and at its last date. *)
Definition open_ends_df : Filling.DataFrame :=
  Filling.mkDF [1; 3; 5; 8]%Z
       [[None; Some (Qc_of_Z 30); Some (Qc_of_Z 50); None]].

(** ** Vocabulary and sample data for plotcomp.py before the simulation *)

(** [b] is the first label of [idx] that is not before [a]. *)
Definition first_label_from (idx : list Z) (a b : Z) : Prop :=
  In b idx /\ (a <= b)%Z /\ forall x, In x idx -> (a <= x)%Z -> (b <= x)%Z.

(** A frame has one row of values per label. *)
Definition one_row_per_label (df : Plotcomp.Frame) : Prop :=
  length (Plotcomp.index df) = length (Plotcomp.value_rows df).

(** The date [d] lies between two labels of [idx] that are not before
    [start]. *)
Definition covered_from (idx : list Z) (start d : Z) : Prop :=
  (exists a, In a idx /\ (start <= a <= d)%Z) /\
  (exists b, In b idx /\ (d <= b)%Z).

(** The rows of a frame with their labels. *)
Definition labelled_rows (df : Plotcomp.Frame) : list (Z * list Plotcomp.cell) :=
  combine (Plotcomp.index df) (Plotcomp.value_rows df).

(** Two frames whose dates only partly agree. *)
Definition gold_frame : Plotcomp.Frame :=
  Plotcomp.mkFrame [2; 5; 9]%Z ["Price"%string]
    [[Plotcomp.Num (Some (Qc_of_Z 100))]; [Plotcomp.Num (Some (Qc_of_Z 110))];
     [Plotcomp.Num (Some (Qc_of_Z 121))]].

Definition snp500_frame : Plotcomp.Frame :=
  Plotcomp.mkFrame [2; 3; 5; 7; 9]%Z ["SP500"%string]
    [[Plotcomp.Num (Some (Qc_of_Z 9))]; [Plotcomp.Num (Some (Qc_of_Z 10))];
     [Plotcomp.Num (Some (Qc_of_Z 11))]; [Plotcomp.Num (Some (Qc_of_Z 12))];
     [Plotcomp.Num (Some (Qc_of_Z 13))]].

(** Two frames with a row for every day, over different spans. *)
Definition daily_gold_frame : Plotcomp.Frame :=
  Plotcomp.mkFrame (Filling.date_range 1 6) ["Price"%string]
    (repeat [Plotcomp.Num (Some (Qc_of_Z 100))] 6).

Definition daily_snp500_frame : Plotcomp.Frame :=
  Plotcomp.mkFrame (Filling.date_range 3 8) ["SP500"%string]
    (repeat [Plotcomp.Num (Some (Qc_of_Z 10))] 6).

(** Gold for January to March 2020 with no price in February. *)
Definition gold_with_nan : Plotcomp.Series :=
  [(24240, Some (Qc_of_Z 100)); (24241, None); (24242, Some (Qc_of_Z 121))]%Z.

(** ** Vocabulary for clean_data and collect_dca_scenarios *)



(** A scenario asking for quarterly reports. *)
Definition quarterly_scenario : Plotcomp.ScenarioInput :=
  Plotcomp.mkInput (Qc_of_Z 500) (Qc_of_Z 30) "yes" "quarterly".

(** * Properties *)

(** ** Lists and labels *)

Lemma memZ_In (d : Z) (l : list Z) : memZ d l = true <-> In d l.
Proof.
  unfold memZ. rewrite existsb_exists. split.
  - intros [x [Hin Heq]]. apply Z.eqb_eq in Heq. now subst.
  - intros Hin. exists d. split; [assumption | apply Z.eqb_refl].
Qed.

Lemma memZ_false (d : Z) (l : list Z) : memZ d l = false <-> ~ In d l.
Proof.
  rewrite <- memZ_In. destruct (memZ d l); split; intros; congruence.
Qed.

Lemma duplicated_any_NoDup (l : list Z) : duplicated_any l = false <-> NoDup l.
Proof.
  induction l as [|d tl IH]; simpl.
  - split; [constructor | reflexivity].
  - rewrite orb_false_iff, IH, memZ_false. split.
    + intros [H1 H2]. now constructor.
    + intros H. inversion H; subst. now split.
Qed.


Lemma StronglySorted_lt_NoDup (l : list Z) : StronglySorted Z.lt l -> NoDup l.
Proof.
  induction 1 as [|x l Hs IH Hall]; constructor; [|assumption].
  intros Hin. rewrite Forall_forall in Hall. specialize (Hall _ Hin). lia.
Qed.

Lemma index_of_Some (d : Z) (l : list Z) (i : nat) :
  index_of d l = Some i -> nth_error l i = Some d.
Proof.
  revert i. induction l as [|x tl IH]; simpl; intros i H; [discriminate|].
  destruct (x =? d)%Z eqn:E.
  - injection H as <-. apply Z.eqb_eq in E. now subst.
  - destruct (index_of d tl); [|discriminate]. injection H as <-. now apply IH.
Qed.

Lemma index_of_NoDup (l : list Z) (i : nat) (d : Z) :
  NoDup l -> nth_error l i = Some d -> index_of d l = Some i.
Proof.
  intros Hnd. revert i. induction Hnd as [|x tl Hnotin Hnd IH]; intros i H.
  - destruct i; discriminate.
  - simpl. destruct i as [|i]; simpl in H.
    + injection H as ->. now rewrite Z.eqb_refl.
    + destruct (x =? d)%Z eqn:E.
      * apply Z.eqb_eq in E. subst. exfalso. apply Hnotin.
        eapply nth_error_In; eassumption.
      * now rewrite (IH _ H).
Qed.

(** ** Numbers *)

Lemma Qc_of_nat_S (n : nat) : Qc_of_nat (S n) = (Qc_of_nat n + 1)%Qc.
Proof.
  unfold Qc_of_nat, Qc_of_Z. apply Qc_is_canon.
  unfold Qcplus, Q2Qc, this. rewrite !Qred_correct.
  rewrite Nat2Z.inj_succ, <- Z.add_1_r, inject_Z_plus. reflexivity.
Qed.

Lemma nanmean_single (v : float) : nanmean [v] = v.
Proof.
  destruct v as [q|]; [|reflexivity]. unfold nanmean. simpl. f_equal.
  change (Qc_of_nat 1) with 1%Qc. field. discriminate.
Qed.

Lemma known_map_Some (qs : list Qc) : known (map Some qs) = qs.
Proof. induction qs as [|q qs IH]; simpl; congruence. Qed.

Lemma nanmean_all_known (q : Qc) (qs : list Qc) :
  nanmean (map Some (q :: qs)) =
  Some (Qc_sum (q :: qs) / Qc_of_nat (length (q :: qs)))%Qc.
Proof. unfold nanmean. rewrite known_map_Some. reflexivity. Qed.

(** ** handle_duplicates *)

Section HandleDuplicates.
Import Filling.

Lemma In_insert_key (k x : Z) (l : list Z) :
  In x (insert_key k l) <-> x = k \/ In x l.
Proof.
  induction l as [|y tl IH]; simpl.
  - intuition.
  - destruct (k <? y)%Z eqn:E1; [simpl; intuition|].
    destruct (k =? y)%Z eqn:E2.
    + apply Z.eqb_eq in E2. subst. simpl. intuition.
    + simpl. rewrite IH. intuition.
Qed.

Lemma insert_key_sorted (k : Z) (l : list Z) :
  StronglySorted Z.lt l -> StronglySorted Z.lt (insert_key k l).
Proof.
  induction 1 as [|y tl Hs IH Hall]; simpl.
  - repeat constructor.
  - destruct (k <? y)%Z eqn:E1.
    + apply Z.ltb_lt in E1. constructor; [now constructor|].
      constructor; [assumption|]. eapply Forall_impl; [|exact Hall].
      simpl. intros; lia.
    + destruct (k =? y)%Z eqn:E2; [now constructor|].
      apply Z.ltb_ge in E1. apply Z.eqb_neq in E2.
      constructor; [assumption|]. rewrite Forall_forall in *.
      intros x Hx. apply In_insert_key in Hx. destruct Hx as [->|Hx];
        [lia | now apply Hall].
Qed.

Lemma group_keys_sorted (dates : list Z) : StronglySorted Z.lt (group_keys dates).
Proof.
  induction dates as [|d tl IH]; simpl; [constructor|].
  now apply insert_key_sorted.
Qed.

Lemma In_group_keys (x : Z) (dates : list Z) : In x (group_keys dates) <-> In x dates.
Proof.
  induction dates as [|d tl IH]; simpl; [reflexivity|].
  rewrite In_insert_key, IH. intuition.
Qed.

Lemma group_values_other (dates : list Z) (col : list float) (d : Z) :
  ~ In d dates -> group_values dates col d = [].
Proof.
  revert col. induction dates as [|x tl IH]; intros col H; [reflexivity|].
  destruct col as [|v col]; [reflexivity|]. simpl.
  destruct (x =? d)%Z eqn:E.
  - apply Z.eqb_eq in E. exfalso. apply H. now left.
  - apply IH. intros H'. apply H. now right.
Qed.

Lemma group_values_unique (dates : list Z) (col : list float) (i : nat)
      (d : Z) (v : float) :
  NoDup dates -> nth_error dates i = Some d -> nth_error col i = Some v ->
  group_values dates col d = [v].
Proof.
  intros Hnd. revert col i. induction Hnd as [|x tl Hnotin Hnd IH];
    intros col i Hd Hv.
  - destruct i; discriminate.
  - destruct col as [|w col]; [destruct i; discriminate|].
    destruct i as [|i]; simpl in Hd, Hv.
    + injection Hd as ->. injection Hv as ->. simpl. rewrite Z.eqb_refl.
      now rewrite group_values_other.
    + simpl. destruct (x =? d)%Z eqn:E.
      * apply Z.eqb_eq in E. subst. exfalso. apply Hnotin.
        eapply nth_error_In; eassumption.
      * eapply IH; eassumption.
Qed.


Lemma groupby_mean_points (df : DataFrame) : dedup_points df (groupby_mean df).
Proof.
  unfold dedup_points, groupby_mean. simpl.
  split; [apply StronglySorted_lt_NoDup, group_keys_sorted|].
  split; [intros d; apply In_group_keys|].
  split; [apply length_map|].
  intros j col i d Hcol Hd.
  eexists. rewrite nth_error_map, Hcol. simpl. split; [reflexivity|].
  rewrite nth_error_map, Hd. simpl. split; [reflexivity|]. split.
  - intros v ->. now rewrite nanmean_single.
  - intros q qs ->. f_equal. exact (nanmean_all_known q qs).
Qed.

Lemma unchanged_points (df : DataFrame) :
  rectangular df -> NoDup (Date df) -> dedup_points df df.
Proof.
  intros Hrect Hnd. unfold dedup_points.
  split; [assumption|]. split; [reflexivity|]. split; [reflexivity|].
  intros j col i d Hcol Hd. exists col. split; [assumption|].
  unfold rectangular in Hrect. rewrite Forall_forall in Hrect.
  assert (Hlen : length col = length (Date df))
    by (apply Hrect; eapply nth_error_In; eassumption).
  assert (Hi : (i < length col)%nat)
    by (rewrite Hlen; apply nth_error_Some; congruence).
  destruct (nth_error col i) as [v|] eqn:Hv;
    [|apply nth_error_None in Hv; lia].
  rewrite (group_values_unique _ col _ _ _ Hnd Hd Hv).
  rewrite nanmean_single. split; [reflexivity|]. split.
  - now intros w [= ->].
  - intros q qs H. rewrite <- nanmean_all_known, <- H. now rewrite nanmean_single.
Qed.

Lemma handle_duplicates_points (df : DataFrame) :
  rectangular df -> dedup_points df (handle_duplicates df).
Proof.
  intros Hrect. unfold handle_duplicates.
  destruct (duplicated_any (Date df)) eqn:Hdup.
  - apply groupby_mean_points.
  - apply unchanged_points; [assumption | now apply duplicated_any_NoDup].
Qed.




(** Dates listed 2, 3, 2 come out as 2, 3: the date 2 repeats, but it occurs
    before the later date 3, and the order of the distinct dates is kept. *)
Example handle_duplicates_keeps_order_of_first_occurrences :
  order_preserved [2; 3; 2]%Z
    (Date (handle_duplicates
             (mkDF [2; 3; 2]%Z [[Some (Qc_of_Z 1); Some (Qc_of_Z 2);
                                 Some (Qc_of_Z 3)]]))).
Proof.
  intros a b Hne (i & j & Hij & Hi & Hj). cbn in Hi, Hj.
  destruct i as [|[|i]]; cbn in Hi; try (destruct i; discriminate);
    destruct j as [|[|j]]; cbn in Hj; try (destruct j; discriminate); try lia.
  injection Hi as <-. injection Hj as <-. exists 0%nat, 1%nat.
  split; [lia|]. split; reflexivity.
Qed.


End HandleDuplicates.

(** ** resample_and_fill *)

Section ResampleAndFill.
Import Filling.

Lemma ffill_from_keeps (prev : float) : keeps_known (ffill_from prev).
Proof.
  intros l. revert prev. induction l as [|[v|] tl IH]; intros prev; simpl.
  - split; [reflexivity|]. intros [|i] q H; discriminate.
  - destruct (IH (Some v)) as [Hl Hk]. split; [now rewrite Hl|].
    intros [|i] q H; simpl in *; [assumption | now apply Hk].
  - destruct (IH prev) as [Hl Hk]. split; [now rewrite Hl|].
    intros [|i] q H; simpl in *; [discriminate | now apply Hk].
Qed.

Lemma bfill_keeps : keeps_known bfill.
Proof.
  intros l. induction l as [|[v|] tl [Hl Hk]]; simpl.
  - split; [reflexivity|]. intros [|i] q H; discriminate.
  - split; [now rewrite Hl|].
    intros [|i] q H; simpl in *; [assumption | now apply Hk].
  - split; [now rewrite Hl|].
    intros [|i] q H; simpl in *; [discriminate | now apply Hk].
Qed.

Lemma interpolate_from_keeps (prev : option (Qc * nat)) :
  keeps_known (interpolate_from prev).
Proof.
  intros l. revert prev. induction l as [|[v|] tl IH]; intros prev; simpl.
  - split; [reflexivity|]. intros [|i] q H; discriminate.
  - destruct (IH (Some (v, O))) as [Hl Hk]. split; [now rewrite Hl|].
    intros [|i] q H; simpl in *; [assumption | now apply Hk].
  - destruct prev as [[v1 k]|].
    + destruct (IH (Some (v1, S k))) as [Hl Hk]. split; [simpl; now rewrite Hl|].
      intros [|i] q H; simpl in *; [discriminate | now apply Hk].
    + destruct (IH None) as [Hl Hk]. split; [simpl; now rewrite Hl|].
      intros [|i] q H; simpl in *; [discriminate | now apply Hk].
Qed.

Lemma fillna_mean_keeps : keeps_known fillna_mean.
Proof.
  intros l. unfold fillna_mean, fillna_value. split; [apply length_map|].
  intros i q H. now rewrite nth_error_map, H.
Qed.

Lemma fill_with_keeps (fill_method : string) (f : list float -> list float) :
  fill_with fill_method = Ok f -> keeps_known f.
Proof.
  unfold fill_with.
  destruct (String.eqb fill_method "ffill");
    [intros [= <-]; apply ffill_from_keeps|].
  destruct (String.eqb fill_method "bfill"); [intros [= <-]; apply bfill_keeps|].
  destruct (String.eqb fill_method "linear");
    [intros [= <-]; apply interpolate_from_keeps|].
  destruct (String.eqb fill_method "mean");
    [intros [= <-]; apply fillna_mean_keeps | discriminate].
Qed.

Lemma keeps_has_known (f : list float -> list float) (l : list float) :
  keeps_known f -> has_known l -> has_known (f l).
Proof.
  intros Hf [q Hq]. apply In_nth_error in Hq. destruct Hq as [i Hi].
  exists q. eapply nth_error_In. apply Hf. eassumption.
Qed.

Lemma ffill_from_known (p : Qc) (l : list float) :
  all_known (ffill_from (Some p) l).
Proof.
  revert p. induction l as [|[v|] tl IH]; intros p; simpl.
  - constructor.
  - constructor; [discriminate | apply IH].
  - constructor; [discriminate | apply IH].
Qed.

Lemma bfill_hd (l : list float) :
  has_known l -> exists q, hd None (bfill l) = Some q.
Proof.
  induction l as [|[v|] tl IH]; intros [q Hq]; simpl.
  - destruct Hq.
  - now exists v.
  - destruct Hq as [Hq|Hq]; [discriminate|].
    destruct IH as [q' Hq']; [now exists q|]. now exists q'.
Qed.

(** The closing pass: backward fill, then forward fill. *)
Lemma post_pass_all_known (l : list float) :
  has_known l -> all_known (ffill (bfill l)).
Proof.
  intros H. destruct (bfill_hd l H) as [q Hq].
  destruct (bfill l) as [|x r]; [discriminate|]. simpl in Hq. subst x.
  unfold ffill. simpl. constructor; [discriminate | apply ffill_from_known].
Qed.

Lemma post_pass_keeps : keeps_known (fun l => ffill (bfill l)).
Proof.
  intros l. destruct (bfill_keeps l) as [Hl1 Hk1].
  destruct (ffill_from_keeps None (bfill l)) as [Hl2 Hk2].
  split; [unfold ffill; congruence|]. intros i q H. now apply Hk2, Hk1.
Qed.

(** *** The daily calendar *)

Lemma date_range_length (lo hi : Z) :
  length (date_range lo hi) = Z.to_nat (hi - lo + 1).
Proof. unfold date_range. now rewrite length_map, length_seq. Qed.

Lemma date_range_nth (lo hi : Z) (k : nat) :
  (k < Z.to_nat (hi - lo + 1))%nat ->
  nth_error (date_range lo hi) k = Some (lo + Z.of_nat k)%Z.
Proof.
  intros H. unfold date_range. rewrite nth_error_map.
  rewrite nth_error_seq. destruct (Nat.ltb_spec k (Z.to_nat (hi - lo + 1)));
    [reflexivity | lia].
Qed.

Lemma In_date_range (lo hi d : Z) :
  In d (date_range lo hi) <-> (lo <= d <= hi)%Z.
Proof.
  unfold date_range. rewrite in_map_iff. split.
  - intros [k [<- Hk]]. apply in_seq in Hk. lia.
  - intros H. exists (Z.to_nat (d - lo)). split; [lia|]. apply in_seq. lia.
Qed.

Lemma date_range_sorted (lo hi : Z) : StronglySorted Z.lt (date_range lo hi).
Proof.
  unfold date_range. generalize (Z.to_nat (hi - lo + 1)) as n.
  generalize 0%nat as s. intros s n. revert s.
  induction n as [|n IH]; intros s; simpl; constructor; [apply IH|].
  rewrite Forall_forall. intros x Hx. apply in_map_iff in Hx.
  destruct Hx as [k [<- Hk]]. apply in_seq in Hk. lia.
Qed.

Lemma date_range_once (lo hi d : Z) :
  (lo <= d <= hi)%Z -> count_occ Z.eq_dec (date_range lo hi) d = 1%nat.
Proof.
  intros H. apply NoDup_count_occ'.
  - apply StronglySorted_lt_NoDup, date_range_sorted.
  - now apply In_date_range.
Qed.

Lemma fold_min_spec (l : list Z) (x : Z) :
  (In (fold_left Z.min l x) (x :: l)) /\
  (forall d, In d (x :: l) -> (fold_left Z.min l x <= d)%Z).
Proof.
  revert x. induction l as [|y tl IH]; intros x; simpl.
  - split; [now left|]. intros d [<-|[]]. lia.
  - destruct (IH (Z.min x y)) as [Hin Hle]. split.
    + destruct Hin as [Hin|Hin]; [|now right; right].
      rewrite <- Hin. destruct (Z.min_spec x y) as [[_ ->]|[_ ->]]; auto.
    + intros d Hd. assert (Hm : (fold_left Z.min tl (Z.min x y) <= Z.min x y)%Z)
        by (apply Hle; now left).
      destruct Hd as [<-|[<-|Hd]]; [lia | lia |]. apply Hle. now right.
Qed.

Lemma fold_max_spec (l : list Z) (x : Z) :
  (In (fold_left Z.max l x) (x :: l)) /\
  (forall d, In d (x :: l) -> (d <= fold_left Z.max l x)%Z).
Proof.
  revert x. induction l as [|y tl IH]; intros x; simpl.
  - split; [now left|]. intros d [<-|[]]. lia.
  - destruct (IH (Z.max x y)) as [Hin Hle]. split.
    + destruct Hin as [Hin|Hin]; [|now right; right].
      rewrite <- Hin. destruct (Z.max_spec x y) as [[_ ->]|[_ ->]]; auto.
    + intros d Hd. assert (Hm : (Z.max x y <= fold_left Z.max tl (Z.max x y))%Z)
        by (apply Hle; now left).
      destruct Hd as [<-|[<-|Hd]]; [lia | lia |]. apply Hle. now right.
Qed.

Lemma index_bounds (l : list Z) :
  l <> [] ->
  exists lo hi, index_min l = Some lo /\ index_max l = Some hi /\
                In lo l /\ In hi l /\ forall d, In d l -> (lo <= d <= hi)%Z.
Proof.
  destruct l as [|x tl]; [congruence|]. intros _.
  destruct (fold_min_spec tl x) as [H1 H2].
  destruct (fold_max_spec tl x) as [H3 H4].
  exists (fold_left Z.min tl x), (fold_left Z.max tl x).
  repeat split; auto.
Qed.

Lemma recognized_fill (fill_method : string) :
  recognized fill_method -> exists f, fill_with fill_method = Ok f.
Proof.
  unfold recognized, fill_with. simpl.
  intros [<-|[<-|[<-|[<-|[]]]]]; simpl; eauto.
Qed.

Lemma cell_at_date_nth (dates : list Z) (col : list float) (i : nat) (d : Z)
      (v : float) :
  NoDup dates -> nth_error dates i = Some d -> nth_error col i = Some v ->
  cell_at_date dates col d = v.
Proof.
  intros Hnd Hd Hv. unfold cell_at_date.
  rewrite (index_of_NoDup _ _ _ Hnd Hd). now apply nth_error_nth.
Qed.

Lemma reindex_has_known (dates : list Z) (col : list float) (lo hi : Z) :
  NoDup dates -> length col = length dates ->
  (forall d, In d dates -> (lo <= d <= hi)%Z) ->
  has_known col -> has_known (reindex_col dates col (date_range lo hi)).
Proof.
  intros Hnd Hlen Hb [q Hq]. apply In_nth_error in Hq. destruct Hq as [i Hi].
  assert (Hlt : (i < length dates)%nat)
    by (rewrite <- Hlen; apply nth_error_Some; congruence).
  destruct (nth_error dates i) as [d|] eqn:Hd;
    [|apply nth_error_None in Hd; lia].
  exists q. unfold reindex_col. apply in_map_iff. exists d. split.
  - now apply (cell_at_date_nth dates col i).
  - apply In_date_range, Hb. eapply nth_error_In; eassumption.
Qed.

Lemma classic_has_known (l : list float) : has_known l \/ ~ has_known l.
Proof.
  induction l as [|[q|] tl IH].
  - right. intros [q []].
  - left. exists q. now left.
  - destruct IH as [[q Hq]|H]; [left; exists q; now right|].
    right. intros [q [Hq|Hq]]; [discriminate | apply H; now exists q].
Qed.

(** A column without any known entry stays so through every step. *)
Lemma all_nan_iff (l : list float) : all_nan l <-> ~ has_known l.
Proof.
  unfold all_nan, has_known. rewrite Forall_forall. split.
  - intros H [q Hq]. specialize (H _ Hq). discriminate.
  - intros H [q|] Hv; [exfalso; apply H; now exists q | reflexivity].
Qed.

Lemma all_nan_cons (v : float) (tl : list float) :
  all_nan (v :: tl) <-> v = None /\ all_nan tl.
Proof.
  unfold all_nan. split.
  - intros H. inversion H. now split.
  - intros [-> H]. now constructor.
Qed.

Lemma all_nan_known (l : list float) : all_nan l -> known l = [].
Proof.
  induction l as [|v tl IH]; [reflexivity|]. rewrite all_nan_cons.
  intros [-> H]. now apply IH.
Qed.

Lemma reindex_all_nan (dates : list Z) (col : list float) (ds : list Z) :
  all_nan col -> all_nan (reindex_col dates col ds).
Proof.
  intros H. unfold all_nan, reindex_col. rewrite Forall_map, Forall_forall.
  intros d _. unfold cell_at_date. destruct (index_of d dates) as [i|];
    [|reflexivity].
  destruct (nth_in_or_default i col None) as [Hin | Hdef]; [|now rewrite Hdef].
  unfold all_nan in H. rewrite Forall_forall in H. now apply H.
Qed.

Lemma ffill_all_nan (l : list float) : all_nan l -> all_nan (ffill l).
Proof.
  unfold ffill. induction l as [|v tl IH]; [trivial|]. rewrite all_nan_cons.
  intros [-> H]. simpl. apply all_nan_cons. split; [reflexivity | now apply IH].
Qed.

Lemma bfill_all_nan (l : list float) : all_nan l -> all_nan (bfill l).
Proof.
  induction l as [|v tl IH]; [trivial|]. rewrite all_nan_cons.
  intros [-> H]. specialize (IH H). simpl. apply all_nan_cons.
  split; [|exact IH]. destruct (bfill tl) as [|x r]; [reflexivity|].
  now apply all_nan_cons in IH.
Qed.

Lemma interpolate_all_nan (l : list float) :
  all_nan l -> all_nan (interpolate_linear l).
Proof.
  unfold interpolate_linear. induction l as [|v tl IH]; [trivial|].
  rewrite all_nan_cons. intros [-> H]. simpl. apply all_nan_cons.
  split; [reflexivity | now apply IH].
Qed.

Lemma fillna_mean_all_nan (l : list float) : all_nan l -> all_nan (fillna_mean l).
Proof.
  intros H. unfold fillna_mean, fillna_value, nanmean.
  rewrite (all_nan_known l H). unfold all_nan in *. rewrite Forall_map.
  eapply Forall_impl; [|exact H]. now intros v ->.
Qed.

Lemma fill_with_all_nan (fill_method : string) (f : list float -> list float)
      (l : list float) :
  fill_with fill_method = Ok f -> all_nan l -> all_nan (f l).
Proof.
  unfold fill_with.
  destruct (String.eqb fill_method "ffill");
    [intros [= <-]; apply ffill_all_nan|].
  destruct (String.eqb fill_method "bfill"); [intros [= <-]; apply bfill_all_nan|].
  destruct (String.eqb fill_method "linear");
    [intros [= <-]; apply interpolate_all_nan|].
  destruct (String.eqb fill_method "mean");
    [intros [= <-]; apply fillna_mean_all_nan | discriminate].
Qed.

(** A non-empty frame whose points all carry numeric values has a known value
    in every field. *)
Lemma numeric_frame_has_known (df : DataFrame) :
  rectangular df -> Date df <> [] -> Forall all_known (fields df) ->
  Forall has_known (fields df).
Proof.
  unfold rectangular. rewrite !Forall_forall. intros Hrect Hne Hall col Hcol.
  specialize (Hrect col Hcol). specialize (Hall col Hcol).
  destruct col as [|[q|] tl].
  - destruct (Date df); [congruence | discriminate].
  - exists q. now left.
  - inversion Hall; congruence.
Qed.

(** What [resample_and_fill] returns for a non-empty frame with unique dates. *)
Lemma resample_and_fill_returns (df : DataFrame) (fill_method : string) :
  Date df <> [] -> NoDup (Date df) -> recognized fill_method ->
  exists lo hi f,
    index_min (Date df) = Some lo /\ index_max (Date df) = Some hi /\
    In lo (Date df) /\ In hi (Date df) /\
    (forall d, In d (Date df) -> (lo <= d <= hi)%Z) /\
    fill_with fill_method = Ok f /\
    resample_and_fill df fill_method =
    Ok (mkDF (date_range lo hi)
             (map (fun col => ffill (bfill col))
                  (map f (map (fun col => reindex_col (Date df) col
                                                      (date_range lo hi))
                              (fields df))))).
Proof.
  intros Hne Hnd Hrec.
  destruct (index_bounds (Date df) Hne)
    as (lo & hi & Hlo & Hhi & Hinlo & Hinhi & Hb).
  destruct (recognized_fill fill_method Hrec) as [f Hf].
  exists lo, hi, f. repeat (split; [assumption|]).
  unfold resample_and_fill. rewrite Hlo, Hhi.
  apply duplicated_any_NoDup in Hnd. now rewrite Hnd, Hf.
Qed.

(** C6 (as amended): for a non-empty frame with unique dates and a recognized
    fill method, [resample_and_fill] returns a frame dated by every calendar
    day from the earliest to the latest input date, each exactly once and in
    ascending order; after the backward and forward passes a field holds no
    unresolved entry exactly when it had at least one known value in the
    input. *)
Theorem resample_and_fill_gap_free (df : DataFrame) (fill_method : string) :
  Date df <> [] -> NoDup (Date df) -> rectangular df ->
  recognized fill_method ->
  exists lo hi out,
    index_min (Date df) = Some lo /\ index_max (Date df) = Some hi /\
    resample_and_fill df fill_method = Ok out /\
    Date out = date_range lo hi /\
    (forall d, In d (Date out) <-> (lo <= d <= hi)%Z) /\
    (forall d, (lo <= d <= hi)%Z -> count_occ Z.eq_dec (Date out) d = 1%nat) /\
    StronglySorted Z.lt (Date out) /\
    length (fields out) = length (fields df) /\
    (forall j col,
        nth_error (fields df) j = Some col ->
        exists ocol,
          nth_error (fields out) j = Some ocol /\
          length ocol = length (Date out) /\
          (all_known ocol <-> has_known col)).
Proof.
  intros Hne Hnd Hrect Hrec.
  destruct (resample_and_fill_returns df fill_method Hne Hnd Hrec)
    as (lo & hi & f & Hlo & Hhi & Hinlo & _ & Hb & Hf & Hout).
  pose proof (fill_with_keeps fill_method f Hf) as Hkeep.
  pose proof Hnd as Hnd'.
  exists lo, hi. eexists. split; [exact Hlo|]. split; [exact Hhi|].
  split; [exact Hout|]. cbn [Date fields].
  split; [reflexivity|].
  split; [apply In_date_range|]. split; [apply date_range_once|].
  split; [apply date_range_sorted|].
  split; [now rewrite !length_map|].
  intros j col Hcol. eexists. rewrite !nth_error_map, Hcol. cbn [option_map].
  split; [reflexivity|].
  set (rc := reindex_col (Date df) col (date_range lo hi)).
  assert (Hlen : length (ffill (bfill (f rc))) = length (date_range lo hi)).
  { destruct (post_pass_keeps (f rc)) as [-> _]. destruct (Hkeep rc) as [-> _].
    unfold rc, reindex_col. apply length_map. }
  split; [exact Hlen|]. split.
  - intros Hall. destruct (classic_has_known col) as [H|H]; [exact H|].
    exfalso. apply all_nan_iff in H.
    assert (Hnan : all_nan (ffill (bfill (f rc)))).
    { apply ffill_all_nan, bfill_all_nan, (fill_with_all_nan fill_method f);
        [assumption|]. now apply reindex_all_nan. }
    destruct (ffill (bfill (f rc))) as [|x r].
    + rewrite date_range_length in Hlen. simpl in Hlen.
      specialize (Hb _ Hinlo). lia.
    + inversion Hall; subst. inversion Hnan; subst. congruence.
  - intros Hk. apply post_pass_all_known, keeps_has_known; [assumption|].
    unfold rectangular in Hrect. rewrite Forall_forall in Hrect.
    apply reindex_has_known; auto.
    apply Hrect. eapply nth_error_In; eassumption.
Qed.

Lemma resample_and_fill_gap_free_witness :
  exists out, resample_and_fill gapped_df "linear" = Ok out /\
              Date out = [1; 2; 3; 4; 5]%Z /\
              length (fields out) = 1%nat.
Proof.
  destruct (resample_and_fill_gap_free gapped_df "linear")
    as (lo & hi & out & Hlo & Hhi & Hout & Hd & _ & _ & _ & Hlen & _).
  - discriminate.
  - repeat constructor; simpl; intuition discriminate.
  - repeat constructor.
  - right. right. now left.
  - exists out. split; [assumption|]. split.
    + rewrite Hd. injection Hlo as <-. injection Hhi as <-. reflexivity.
    + exact Hlen.
Defined.

(** C6 as stated fails: a field without any known value comes out of every
    pass as it went in. *)
Lemma resample_and_fill_leaves_blank_field :
  ~ gap_free_spec blank_field_df "linear".
Proof.
  intros H. destruct H as (lo & hi & out & _ & _ & Hout & _ & _ & _ & Hall).
  - discriminate.
  - repeat constructor; simpl; intuition discriminate.
  - repeat constructor.
  - right. right. now left.
  - vm_compute in Hout. injection Hout as <-.
    inversion Hall as [|c1 cs _ Hrest]; subst.
    inversion Hrest as [|c2 cs' Hblank _]; subst.
    inversion Hblank as [|v vs Hv _]; subst. now apply Hv.
Qed.

(** *** The whole pass *)

(** After [handle_duplicates] the dates are unique, so the reindexing never
    refuses the frame: any non-empty frame gets its full calendar, between
    the same first and last date. *)
Lemma fill_missing_dates_returns (df : DataFrame) (fill_method : string) :
  rectangular df -> Date df <> [] -> recognized fill_method ->
  exists lo hi out,
    index_min (Date df) = Some lo /\ index_max (Date df) = Some hi /\
    fill_missing_dates_with_interpolation df fill_method = Ok out /\
    Date out = date_range lo hi.
Proof.
  intros Hrect Hne Hrec.
  destruct (handle_duplicates_points df Hrect) as (Hnd & Hin & _).
  destruct (index_bounds (Date df) Hne)
    as (lo & hi & Hlo & Hhi & Hinlo & Hinhi & Hb).
  assert (Hne' : Date (handle_duplicates df) <> []).
  { intros E. apply Hin in Hinlo. rewrite E in Hinlo. destruct Hinlo. }
  destruct (resample_and_fill_returns (handle_duplicates df) fill_method
              Hne' Hnd Hrec)
    as (lo' & hi' & f & _ & _ & Hinlo' & Hinhi' & Hb' & _ & Hout).
  assert (lo' = lo).
  { apply Hin in Hinlo'. apply Hin in Hinlo.
    pose proof (Hb _ Hinlo'). pose proof (Hb' _ Hinlo). lia. }
  assert (hi' = hi).
  { apply Hin in Hinhi'. apply Hin in Hinhi.
    pose proof (Hb _ Hinhi'). pose proof (Hb' _ Hinhi). lia. }
  subst lo' hi'. exists lo, hi. eexists.
  split; [exact Hlo|]. split; [exact Hhi|].
  unfold fill_missing_dates_with_interpolation. split; [exact Hout | reflexivity].
Qed.

(** *** Linear interpolation *)

Lemma next_valid_nth (l : list float) (m : nat) (v : Qc) :
  (forall i, (i < m)%nat -> nth_error l i = Some None) ->
  nth_error l m = Some (Some v) ->
  next_valid l = Some (m, v).
Proof.
  revert m. induction l as [|x tl IH]; intros m Hgap Hm.
  - destruct m; discriminate.
  - destruct m as [|m]; simpl in Hm.
    + injection Hm as ->. reflexivity.
    + assert (Hx : x = None) by (specialize (Hgap 0%nat); simpl in Hgap;
                                 assert (Some x = Some None) by (apply Hgap; lia);
                                 congruence).
      subst x. simpl. rewrite (IH m); [reflexivity| |assumption].
      intros i Hi. apply (Hgap (S i)). lia.
Qed.

(** Inside a gap that started [k] rows after the value [v1] and ends with
    [v2] at row [p2]. *)
Lemma interpolate_gap (tl : list float) (k : nat) (v1 v2 : Qc) (p p2 : nat) :
  (forall i, (i < p2)%nat -> nth_error tl i = Some None) ->
  nth_error tl p2 = Some (Some v2) ->
  (p < p2)%nat ->
  nth_error (interpolate_from (Some (v1, k)) tl) p =
  Some (Some (v1 + (v2 - v1) * Qc_of_nat (S k + p) / Qc_of_nat (S k + p2))%Qc).
Proof.
  revert k p p2. induction tl as [|x tl IH]; intros k p p2 Hgap Hp2 Hlt.
  - destruct p2; discriminate.
  - destruct p2 as [|p2]; [lia|]. simpl in Hp2.
    assert (Hx : x = None).
    { assert (Some x = Some None) by (apply (Hgap 0%nat); lia). congruence. }
    subst x.
    assert (Hgap' : forall i, (i < p2)%nat -> nth_error tl i = Some None)
      by (intros i Hi; apply (Hgap (S i)); lia).
    simpl. rewrite (next_valid_nth tl p2 v2 Hgap' Hp2).
    destruct p as [|p]; simpl.
    + now rewrite Nat.add_0_r.
    + rewrite (IH (S k) p p2 Hgap' Hp2) by lia.
      replace (S (S k) + p)%nat with (S k + S p)%nat by lia.
      replace (S (S k) + p2)%nat with (S k + S p2)%nat by lia. reflexivity.
Qed.

Lemma interpolate_from_cons (prev : option (Qc * nat)) (x : float)
      (tl : list float) :
  exists y prev', interpolate_from prev (x :: tl) = y :: interpolate_from prev' tl.
Proof.
  destruct x as [v|]; simpl; [eauto|]. destruct prev as [[v1 k]|]; eauto.
Qed.

Lemma interpolate_between (l : list float) (prev : option (Qc * nat))
      (p1 p p2 : nat) (v1 v2 : Qc) :
  nth_error l p1 = Some (Some v1) ->
  nth_error l p2 = Some (Some v2) ->
  (forall i, (p1 < i < p2)%nat -> nth_error l i = Some None) ->
  (p1 < p < p2)%nat ->
  nth_error (interpolate_from prev l) p =
  Some (Some (v1 + (v2 - v1) * Qc_of_nat (p - p1) / Qc_of_nat (p2 - p1))%Qc).
Proof.
  revert prev p1 p p2. induction l as [|x tl IH]; intros prev p1 p p2 H1 H2 Hgap Hlt.
  - destruct p1; discriminate.
  - destruct p as [|p]; [lia|]. destruct p2 as [|p2]; [lia|]. simpl in H2.
    destruct p1 as [|p1]; simpl in H1.
    + injection H1 as ->. simpl.
      rewrite (interpolate_gap tl 0 v1 v2 p p2); [reflexivity| |assumption|lia].
      intros i Hi. apply (Hgap (S i)). lia.
    + destruct (interpolate_from_cons prev x tl) as (y & prev' & ->). simpl.
      rewrite (IH prev' p1 p p2 H1 H2); [reflexivity| |lia].
      intros i Hi. apply (Hgap (S i)). lia.
Qed.

Lemma cell_at_date_In (dates : list Z) (col : list float) (d : Z) (v : Qc) :
  cell_at_date dates col d = Some v -> In d dates.
Proof.
  unfold cell_at_date. destruct (index_of d dates) as [i|] eqn:E; [|discriminate].
  intros _. eapply nth_error_In, index_of_Some. eassumption.
Qed.

Lemma reindex_col_nth (dates : list Z) (col : list float) (lo hi : Z) (k : nat) :
  (k < Z.to_nat (hi - lo + 1))%nat ->
  nth_error (reindex_col dates col (date_range lo hi)) k =
  Some (cell_at_date dates col (lo + Z.of_nat k)).
Proof.
  intros H. unfold reindex_col. now rewrite nth_error_map, date_range_nth.
Qed.

(** C7: with the linear method, a date [t] strictly between two dates [t1] and
    [t2] that carry the known values [v1] and [v2] of a field, no date in
    between carrying a known value of it, receives
    [v1 + (v2 - v1) * (t - t1) / (t2 - t1)]. *)
Theorem linear_interpolation_between (df : DataFrame) (j : nat)
        (col : list float) (t1 t2 t : Z) (v1 v2 : Qc) :
  NoDup (Date df) ->
  nth_error (fields df) j = Some col ->
  cell_at_date (Date df) col t1 = Some v1 ->
  cell_at_date (Date df) col t2 = Some v2 ->
  (forall d, (t1 < d < t2)%Z -> cell_at_date (Date df) col d = None) ->
  (t1 < t < t2)%Z ->
  exists out ocol,
    resample_and_fill df "linear" = Ok out /\
    nth_error (fields out) j = Some ocol /\
    cell_at_date (Date out) ocol t =
    Some (v1 + (v2 - v1) * Qc_of_Z (t - t1) / Qc_of_Z (t2 - t1))%Qc.
Proof.
  intros Hnd Hcol H1 H2 Hgap Hlt.
  pose proof (cell_at_date_In _ _ _ _ H1) as Hin1.
  pose proof (cell_at_date_In _ _ _ _ H2) as Hin2.
  assert (Hne : Date df <> []) by (intros E; rewrite E in Hin1; destruct Hin1).
  destruct (index_bounds (Date df) Hne) as (lo & hi & Hlo & Hhi & _ & _ & Hb).
  pose proof (Hb _ Hin1) as Hb1. pose proof (Hb _ Hin2) as Hb2.
  set (rc := reindex_col (Date df) col (date_range lo hi)).
  set (ocol := ffill (bfill (interpolate_linear rc))).
  exists (mkDF (date_range lo hi)
               (map (fun c => ffill (bfill c))
                    (map interpolate_linear
                         (map (fun c => reindex_col (Date df) c (date_range lo hi))
                              (fields df))))).
  exists ocol. split; [|split].
  - unfold resample_and_fill. rewrite Hlo, Hhi.
    apply duplicated_any_NoDup in Hnd. now rewrite Hnd.
  - cbn [fields]. now rewrite !nth_error_map, Hcol.
  - cbn [Date].
    set (p1 := Z.to_nat (t1 - lo)). set (p := Z.to_nat (t - lo)).
    set (p2 := Z.to_nat (t2 - lo)).
    assert (Hp : nth_error ocol p =
                 Some (Some (v1 + (v2 - v1) * Qc_of_nat (p - p1)
                                  / Qc_of_nat (p2 - p1))%Qc)).
    { apply post_pass_keeps. unfold interpolate_linear.
      apply interpolate_between.
      - unfold rc. rewrite reindex_col_nth by lia.
        replace (lo + Z.of_nat p1)%Z with t1 by lia. now rewrite H1.
      - unfold rc. rewrite reindex_col_nth by lia.
        replace (lo + Z.of_nat p2)%Z with t2 by lia. now rewrite H2.
      - intros i Hi. unfold rc. rewrite reindex_col_nth by lia.
        rewrite Hgap by lia. reflexivity.
      - lia. }
    rewrite (cell_at_date_nth (date_range lo hi) ocol p t _
               (StronglySorted_lt_NoDup _ (date_range_sorted lo hi))
               ltac:(rewrite date_range_nth by lia; f_equal; lia) Hp).
    unfold Qc_of_nat. do 4 f_equal; f_equal; lia.
Qed.

Lemma linear_interpolation_between_witness :
  exists out ocol,
    resample_and_fill gapped_df "linear" = Ok out /\
    nth_error (fields out) 0 = Some ocol /\
    cell_at_date (Date out) ocol 2 =
    Some (Qc_of_Z 10 + (Qc_of_Z 50 - Qc_of_Z 10) * Qc_of_Z (2 - 1)
          / Qc_of_Z (5 - 1))%Qc.
Proof.
  apply (linear_interpolation_between gapped_df 0
           [Some (Qc_of_Z 10); Some (Qc_of_Z 50); None] 1 5 2).
  - repeat constructor; simpl; intuition discriminate.
  - reflexivity.
  - reflexivity.
  - reflexivity.
  - intros d Hd. assert (E : d = 2%Z \/ d = 3%Z \/ d = 4%Z) by lia.
    destruct E as [->|[->| ->]]; reflexivity.
  - lia.
Defined.

End ResampleAndFill.

(** ** clean_data *)

Section CleanDataProofs.
Import Plotcomp.

Variable to_datetime : list cell -> cell -> option Z.

Lemma mem_cell_In (c : cell) (l : list cell) : mem_cell c l = true <-> In c l.
Proof.
  unfold mem_cell. rewrite existsb_exists. split.
  - intros [x [Hin Hx]]. destruct (cell_eq_dec c x); [now subst | discriminate].
  - intros Hin. exists c. split; [assumption|].
    destruct (cell_eq_dec c c); congruence.
Qed.

Lemma mem_cell_false (c : cell) (l : list cell) :
  mem_cell c l = false <-> ~ In c l.
Proof.
  rewrite <- mem_cell_In. destruct (mem_cell c l); split; intros; congruence.
Qed.

Lemma Subsequence_In {A : Type} (l1 l2 : list A) (x : A) :
  Subsequence l1 l2 -> In x l1 -> In x l2.
Proof.
  induction 1 as [|y l1 l2 _ IH|y l1 l2 _ IH]; simpl; intuition.
Qed.

Lemma drop_duplicates_from_sub (seen : list cell) (pos : nat)
      (rs : list (list cell)) :
  Subsequence (drop_duplicates_from seen pos rs) rs.
Proof.
  revert seen. induction rs as [|r tl IH]; intros seen; simpl; [constructor|].
  destruct (mem_cell (cell_at pos r) seen); constructor; apply IH.
Qed.

Lemma drop_duplicates_from_fresh (seen : list cell) (pos : nat)
      (rs : list (list cell)) :
  NoDup (map (cell_at pos) (drop_duplicates_from seen pos rs)) /\
  forall k, In k (map (cell_at pos) (drop_duplicates_from seen pos rs)) ->
            ~ In k seen.
Proof.
  revert seen. induction rs as [|r tl IH]; intros seen; simpl.
  - split; [constructor | intros k []].
  - destruct (mem_cell (cell_at pos r) seen) eqn:E; [apply IH|].
    apply mem_cell_false in E.
    destruct (IH (cell_at pos r :: seen)) as [Hnd Hfresh]. simpl. split.
    + constructor; [|assumption]. intros Hin. apply (Hfresh _ Hin). now left.
    + intros k [<-|Hk]; [assumption|]. intros Hs. apply (Hfresh _ Hk). now right.
Qed.

Lemma drop_duplicates_from_first (seen : list cell) (pos : nat)
      (rs : list (list cell)) (r0 : list cell) :
  ~ In (cell_at pos r0) seen ->
  find (same_date pos r0) (drop_duplicates_from seen pos rs) =
  find (same_date pos r0) rs.
Proof.
  revert seen. induction rs as [|r tl IH]; intros seen Hout; simpl; [reflexivity|].
  destruct (mem_cell (cell_at pos r) seen) eqn:E.
  - apply mem_cell_In in E. unfold same_date at 2.
    destruct (cell_eq_dec (cell_at pos r) (cell_at pos r0)) as [Heq|_];
      [rewrite Heq in E; contradiction | now apply IH].
  - simpl. unfold same_date at 1 3.
    destruct (cell_eq_dec (cell_at pos r) (cell_at pos r0)) as [_|Hneq];
      [reflexivity|]. apply IH. intros [H|H]; [congruence | contradiction].
Qed.

Lemma drop_duplicates_from_id (seen : list cell) (pos : nat)
      (rs : list (list cell)) :
  NoDup (map (cell_at pos) rs) ->
  (forall r, In r rs -> ~ In (cell_at pos r) seen) ->
  drop_duplicates_from seen pos rs = rs.
Proof.
  revert seen. induction rs as [|r tl IH]; intros seen Hnd Hout; simpl;
    [reflexivity|].
  inversion Hnd as [|k ks Hk Hnd']; subst.
  assert (E : mem_cell (cell_at pos r) seen = false)
    by (apply mem_cell_false, Hout; now left).
  rewrite E. f_equal. apply IH; [assumption|].
  intros r' Hr' [H|H].
  - apply Hk. rewrite H. now apply in_map.
  - apply (Hout r'); [now right | assumption].
Qed.

Lemma parse_labels_ok (parse : cell -> option Z) (cells : list cell) :
  (forall c, In c cells -> parse c <> None) ->
  exists idx, parse_labels parse cells = Ok idx /\
              map Some idx = map parse cells.
Proof.
  induction cells as [|c tl IH]; intros Hall; simpl.
  - now exists [].
  - destruct (parse c) as [d|] eqn:E;
      [|exfalso; apply (Hall c); [now left | assumption]].
    destruct IH as (idx & -> & Hidx); [intros; apply Hall; now right|].
    exists (d :: idx). simpl. now rewrite Hidx.
Qed.

Lemma parse_labels_inv (parse : cell -> option Z) (cells : list cell)
      (idx : list Z) :
  parse_labels parse cells = Ok idx -> map Some idx = map parse cells.
Proof.
  revert idx. induction cells as [|c tl IH]; intros idx; simpl.
  - now intros [= <-].
  - destruct (parse c) as [d|]; [|discriminate].
    destruct (parse_labels parse tl) as [ds|e]; cbn [bind]; [|discriminate].
    intros [= <-]. simpl. f_equal. now apply IH.
Qed.


Lemma to_datetime_index_ok (cells : list cell) :
  (forall c, In c cells -> to_datetime cells c <> None) ->
  exists idx, to_datetime_index to_datetime cells = Ok idx /\
              map Some idx = map (to_datetime cells) cells.
Proof. apply parse_labels_ok. Qed.

Lemma clean_frame_cleaned (df : RawFrame) (pos : nat) :
  col_pos "Date" (columns df) = Some pos ->
  (forall r, In r (rows df) ->
             to_datetime (date_column pos df) (cell_at pos r) <> None) ->
  exists out, clean_frame to_datetime df = Ok out /\ cleaned to_datetime pos df out.
Proof.
  intros Hpos Hparse. unfold clean_frame. rewrite Hpos.
  pose proof (drop_duplicates_from_sub [] pos (rows df)) as Hsub.
  destruct (to_datetime_index_ok (map (cell_at pos) (drop_duplicates pos (rows df))))
    as (idx & Hidx & Hmap).
  { intros c Hc. apply in_map_iff in Hc. destruct Hc as (r & <- & Hr).
    apply Hparse. eapply Subsequence_In; eassumption. }
  rewrite Hidx. cbn [bind]. eexists. split; [reflexivity|].
  exists (drop_duplicates pos (rows df)). cbn [value_rows value_columns index].
  split; [exact Hsub|].
  split; [apply drop_duplicates_from_fresh|].
  split; [intros r _; apply drop_duplicates_from_first; intros []|].
  split; [intros Hnd; apply drop_duplicates_from_id; [assumption | intros r _ []]|].
  split; [reflexivity|]. split; [reflexivity|].
  unfold date_column. now rewrite Hmap, map_map.
Qed.

Lemma NoDup_map_on {A B : Type} (f : A -> B) (l : list A) :
  (forall x y, In x l -> In y l -> f x = f y -> x = y) ->
  NoDup l -> NoDup (map f l).
Proof.
  intros Hinj Hnd. induction Hnd as [|x l Hx Hnd IH]; simpl; constructor.
  - intros Hin. apply in_map_iff in Hin. destruct Hin as (y & Hy & Hiny).
    apply Hx. rewrite (Hinj x y); [assumption | now left | now right | congruence].
  - apply IH. intros a b Ha Hb. apply Hinj; now right.
Qed.

Lemma NoDup_map_Some (l : list Z) : NoDup (map Some l) -> NoDup l.
Proof. apply NoDup_map_inv. Qed.

Lemma NoDup_map_eq {A B : Type} (f : A -> B) (l : list A) (x y : A) :
  NoDup (map f l) -> In x l -> In y l -> f x = f y -> x = y.
Proof.
  induction l as [|a l IH]; simpl; intros Hnd Hx Hy Hxy; [destruct Hx|].
  inversion Hnd as [|b m Hnotin Hnd']; subst.
  destruct Hx as [->|Hx], Hy as [->|Hy].
  - reflexivity.
  - exfalso. apply Hnotin. rewrite Hxy. now apply in_map.
  - exfalso. apply Hnotin. rewrite <- Hxy. now apply in_map.
  - now apply IH.
Qed.

Lemma drop_duplicates_from_covers (seen : list cell) (pos : nat)
      (rs : list (list cell)) (r : list cell) :
  In r rs ->
  In (cell_at pos r) seen \/
  In (cell_at pos r) (map (cell_at pos) (drop_duplicates_from seen pos rs)).
Proof.
  revert seen. induction rs as [|r0 tl IH]; intros seen Hin; [destruct Hin|].
  simpl. destruct (mem_cell (cell_at pos r0) seen) eqn:E.
  - destruct Hin as [->|Hin]; [left; now apply mem_cell_In | now apply IH].
  - destruct Hin as [->|Hin]; [right; now left|].
    destruct (IH (cell_at pos r0 :: seen) Hin) as [[H|H]|H].
    + right. left. exact H.
    + now left.
    + right. now right.
Qed.

(** Every Date cell of the frame is in the column that is parsed. *)
Lemma date_column_covers (df : RawFrame) (pos : nat) (r : list cell) :
  In r (rows df) -> In (cell_at pos r) (date_column pos df).
Proof.
  intros Hr. destruct (drop_duplicates_from_covers [] pos (rows df) r Hr)
    as [[]|H]. exact H.
Qed.

(** An index without a repeated date comes from Date cells that are different
    dates. *)
Lemma index_apart (df : RawFrame) (pos : nat) (out : Frame) :
  col_pos "Date" (columns df) = Some pos ->
  clean_frame to_datetime df = Ok out ->
  NoDup (index out) -> parses_apart to_datetime df.
Proof.
  intros Hpos. unfold clean_frame. rewrite Hpos.
  destruct (to_datetime_index to_datetime
              (map (cell_at pos) (drop_duplicates pos (rows df))))
    as [idx|e] eqn:E; cbn [bind]; [|discriminate].
  intros [= <-]. cbn [index]. intros Hnd.
  apply parse_labels_inv in E. fold (date_column pos df) in E.
  assert (Hnd' : NoDup (map (to_datetime (date_column pos df))
                            (date_column pos df))).
  { rewrite <- E. apply NoDup_map_on; [|exact Hnd]. intros x y _ _. congruence. }
  intros pos' r r' Hpos' Hr Hr' Heq. rewrite Hpos in Hpos'.
  injection Hpos' as <-.
  apply (NoDup_map_eq _ _ _ _ Hnd'); [| |exact Heq]; now apply date_column_covers.
Qed.

(** The index of a cleaned frame: one label per kept row, and no date twice
    when different Date cells are different dates. *)
Lemma clean_frame_index (df : RawFrame) (out : Frame) :
  clean_frame to_datetime df = Ok out ->
  one_row_per_label out /\
  (parses_apart to_datetime df -> NoDup (index out)).
Proof.
  unfold clean_frame. destruct (col_pos "Date" (columns df)) as [pos|] eqn:Hpos;
    [|discriminate].
  destruct (to_datetime_index to_datetime
              (map (cell_at pos) (drop_duplicates pos (rows df))))
    as [idx|e] eqn:E; cbn [bind]; [|discriminate].
  intros [= <-]. apply parse_labels_inv in E.
  unfold one_row_per_label. cbn [index value_rows]. split.
  - apply (f_equal (@length _)) in E. rewrite !length_map in E.
    now rewrite length_map.
  - intros Hap. apply NoDup_map_Some. rewrite E.
    pose proof (drop_duplicates_from_sub [] pos (rows df)) as Hsub.
    destruct (drop_duplicates_from_fresh [] pos (rows df)) as [Hnd _].
    fold (drop_duplicates pos (rows df)) in Hsub, Hnd.
    apply NoDup_map_on; [|exact Hnd].
    intros x y Hx Hy Hxy. apply in_map_iff in Hx, Hy.
    destruct Hx as (r & <- & Hr), Hy as (r' & <- & Hr').
    apply (Hap pos r r' Hpos); [| |exact Hxy];
      eapply Subsequence_In; eassumption.
Qed.

(** C10 (as amended): [clean_data] keeps, for each of its two frames, the
    first row of every Date cell, whole and in place, and drops every later
    row with that cell (no averaging); a frame whose Date cells are all
    different keeps all its rows.  Rows are compared by their Date cell as
    loaded, before it is parsed: the index is free of repeated dates when
    different Date cells are different dates, and only then. *)
Theorem clean_data_keeps_first (gold_df snp500_df : RawFrame) (pg ps : nat) :
  col_pos "Date" (columns gold_df) = Some pg ->
  col_pos "Date" (columns snp500_df) = Some ps ->
  (forall r, In r (rows gold_df) ->
             to_datetime (date_column pg gold_df) (cell_at pg r) <> None) ->
  (forall r, In r (rows snp500_df) ->
             to_datetime (date_column ps snp500_df) (cell_at ps r) <> None) ->
  exists g s,
    clean_data to_datetime gold_df snp500_df = Ok (g, s) /\
    cleaned to_datetime pg gold_df g /\
    cleaned to_datetime ps snp500_df s /\
    (NoDup (index g) <-> parses_apart to_datetime gold_df) /\
    (NoDup (index s) <-> parses_apart to_datetime snp500_df).
Proof.
  intros Hpg Hps Hg Hs.
  destruct (clean_frame_cleaned gold_df pg Hpg Hg) as (g & Eg & Cg).
  destruct (clean_frame_cleaned snp500_df ps Hps Hs) as (s & Es & Cs).
  exists g, s. unfold clean_data. rewrite Eg, Es.
  split; [reflexivity|]. split; [exact Cg|]. split; [exact Cs|].
  split; (split; [|now apply clean_frame_index]).
  - exact (index_apart gold_df pg g Hpg Eg).
  - exact (index_apart snp500_df ps s Hps Es).
Qed.

End CleanDataProofs.

Lemma clean_data_keeps_first_witness :
  exists g s,
    Plotcomp.clean_data sample_to_datetime repeated_gold_df sample_snp500_df
    = Ok (g, s) /\
    cleaned sample_to_datetime 0 repeated_gold_df g /\
    cleaned sample_to_datetime 0 sample_snp500_df s.
Proof.
  destruct (clean_data_keeps_first sample_to_datetime repeated_gold_df
                                   sample_snp500_df 0 0)
    as (g & s & Hout & Hg & Hs & _).
  - reflexivity.
  - reflexivity.
  - intros r [<-|[<-|[<-|[]]]]; discriminate.
  - intros r [<-|[<-|[]]]; discriminate.
  - exists g, s. split; [exact Hout|]. split; [exact Hg | exact Hs].
Defined.

(** On the sample the second row for 2020-01-31 (price 300) is dropped and the
    first (price 100) kept as it is. *)
Example clean_data_sample :
  exists g s,
    Plotcomp.clean_data sample_to_datetime repeated_gold_df sample_snp500_df
    = Ok (g, s) /\
    Plotcomp.index g = [18292; 18321]%Z /\
    Plotcomp.value_rows g = [[Plotcomp.Num (Some (Qc_of_Z 100))];
                             [Plotcomp.Num (Some (Qc_of_Z 110))]].
Proof. eexists. eexists. split; [reflexivity|]. split; reflexivity. Qed.

(** C10 as stated fails: 31 January 2020 written 01/31/2020 and 1/31/2020
    makes two different Date cells, both rows are kept, and the index has
    the date twice. *)
Lemma clean_data_keeps_respelled_date :
  ~ one_row_per_date_spec sample_to_datetime respelled_gold_df sample_snp500_df.
Proof.
  intros H.
  destruct (H (Plotcomp.mkFrame [18292; 18292; 18321]%Z ["Price"%string]
                 [[Plotcomp.Num (Some (Qc_of_Z 100))];
                  [Plotcomp.Num (Some (Qc_of_Z 300))];
                  [Plotcomp.Num (Some (Qc_of_Z 110))]])
              (Plotcomp.mkFrame [18292; 18321]%Z ["SP500"%string]
                 [[Plotcomp.Num (Some (Qc_of_Z 10))];
                  [Plotcomp.Num (Some (Qc_of_Z 11))]]))
    as [Hg _]; [reflexivity|].
  cbn [Plotcomp.index] in Hg. inversion Hg as [|x l Hnotin _]; subst.
  apply Hnotin. now left.
Qed.

(** Labels in two formats: the format of the column is that of its first
    label, the second label does not fit it, and [pd.to_datetime] raises. *)
Example mixed_formats_raise :
  Plotcomp.clean_data sample_to_datetime mixed_format_gold_df sample_snp500_df
  = Raise ValueError.
Proof. reflexivity. Qed.

(** ** calculate_dca: the loop *)

Lemma multiples_length (m : Qc) (n : nat) : length (multiples m n) = n.
Proof. unfold multiples. now rewrite length_map, length_seq. Qed.

Lemma multiples_S (m : Qc) (n : nat) :
  multiples m (S n) = multiples m n ++ [(Qc_of_nat (S n) * m)%Qc].
Proof. unfold multiples. now rewrite seq_S, map_app. Qed.


Section LoopProofs.
Import Plotcomp.

Variables gold snp : Series.
Variables total_invest gold_percentage snp_percentage : Qc.

Let body := dca_body gold snp total_invest gold_percentage snp_percentage.

Lemma body_skipped (st : State) (d : Z) :
  simulated gold snp d = false -> body st d = st.
Proof. unfold body, dca_body, simulated. now intros ->. Qed.

Lemma body_simulated (st : State) (d : Z) :
  simulated gold snp d = true ->
  gold_shares (body st d) =
    buy (gold_shares st) (total_invest * (gold_percentage / Qc_of_Z 100))%Qc
        (loc gold d) /\
  snp500_shares (body st d) =
    buy (snp500_shares st) (total_invest * (snp_percentage / Qc_of_Z 100))%Qc
        (loc snp d) /\
  total_invested (body st d) = (total_invested st + total_invest)%Qc /\
  cumulative_invested (body st d) =
    cumulative_invested st ++ [(total_invested st + total_invest)%Qc] /\
  total_portfolio_values (body st d) =
    total_portfolio_values st ++
      [fadd (fmul (Some (gold_shares (body st d))) (loc gold d))
            (fmul (Some (snp500_shares (body st d))) (loc snp d))].
Proof.
  unfold body, dca_body, simulated. intros ->. cbn. repeat split.
Qed.

Lemma body_invariant (st : State) (d : Z) :
  loop_invariant total_invest st -> loop_invariant total_invest (body st d).
Proof.
  intros (Ht & Hc & Hl). destruct (simulated gold snp d) eqn:E.
  - destruct (body_simulated st d E) as (_ & _ & Ht' & Hc' & Hv').
    unfold loop_invariant. rewrite Ht', Hc', Hv', !length_app. simpl.
    rewrite !Nat.add_1_r. split; [|split].
    + rewrite Ht, Qc_of_nat_S. ring.
    + rewrite multiples_S, <- Hc. f_equal. f_equal. rewrite Ht, Qc_of_nat_S. ring.
    + congruence.
  - now rewrite body_skipped.
Qed.

Lemma loop_invariant_fold (dates : list Z) (st : State) :
  loop_invariant total_invest st ->
  loop_invariant total_invest (fold_left body dates st).
Proof.
  revert st. induction dates as [|d tl IH]; intros st H; simpl;
    [assumption | apply IH, body_invariant, H].
Qed.

Lemma loop_count (dates : list Z) (st : State) :
  length (cumulative_invested (fold_left body dates st)) =
  (length (cumulative_invested st) + length (filter (simulated gold snp) dates))%nat.
Proof.
  revert st. induction dates as [|d tl IH]; intros st; simpl; [lia|].
  rewrite IH. destruct (simulated gold snp d) eqn:E.
  - destruct (body_simulated st d E) as (_ & _ & _ & -> & _).
    rewrite length_app. simpl. lia.
  - now rewrite body_skipped.
Qed.

Lemma initial_invariant : loop_invariant total_invest initial_state.
Proof.
  unfold loop_invariant, initial_state. simpl. repeat split.
  change (Qc_of_nat 0) with 0%Qc. ring.
Qed.

(** The recorded totals after the whole loop. *)
Lemma loop_cumulative :
  let st := dca_loop gold snp total_invest gold_percentage snp_percentage in
  let n := length (filter (simulated gold snp) (labels gold)) in
  cumulative_invested st = multiples total_invest n /\
  length (total_portfolio_values st) = n.
Proof.
  intros st n.
  destruct (loop_invariant_fold (labels gold) initial_state initial_invariant)
    as (_ & Hc & Hl).
  pose proof (loop_count (labels gold) initial_state) as Hn. simpl in Hn.
  fold body in st. unfold dca_loop in st. fold body in st. subst st n.
  rewrite <- Hn. split; [exact Hc | exact Hl].
Qed.

(** Each entry of the trace is the loop body applied to the entry before. *)
Lemma trace_step (dates : list Z) (st0 st : State) (k : nat) (d : Z) :
  nth_error dates k = Some d ->
  nth_error (st0 :: dca_trace gold snp total_invest gold_percentage
                              snp_percentage st0 dates) k = Some st ->
  nth_error (dca_trace gold snp total_invest gold_percentage snp_percentage
                       st0 dates) k = Some (body st d).
Proof.
  revert st0 k. induction dates as [|x tl IH]; intros st0 k Hd Hst.
  - destruct k; discriminate.
  - destruct k as [|k]; simpl in *.
    + injection Hd as ->. injection Hst as ->. reflexivity.
    + now apply IH.
Qed.

End LoopProofs.

(** ** calculate_dca *)

Lemma labels_loc_from (start : Z) (s : Plotcomp.Series) :
  Plotcomp.labels (Plotcomp.loc_from start s) =
  filter (fun d => (start <=? d)%Z) (Plotcomp.labels s).
Proof.
  unfold Plotcomp.labels, Plotcomp.loc_from.
  induction s as [|[d v] tl IH]; simpl; [reflexivity|].
  destruct (start <=? d)%Z; simpl; now rewrite IH.
Qed.

Lemma memZ_filter (f : Z -> bool) (d : Z) (l : list Z) :
  memZ d (filter f l) = memZ d l && f d.
Proof.
  destruct (memZ d (filter f l)) eqn:E.
  - apply memZ_In, filter_In in E. destruct E as [Hin ->].
    apply memZ_In in Hin. now rewrite Hin.
  - destruct (memZ d l) eqn:E1; [|reflexivity]. destruct (f d) eqn:E2;
      [|reflexivity]. apply memZ_false in E. exfalso. apply E, filter_In.
    split; [now apply memZ_In | assumption].
Qed.

Lemma filter_twice {A : Type} (f g : A -> bool) (l : list A) :
  filter f (filter g l) = filter (fun x => g x && f x) l.
Proof.
  induction l as [|x tl IH]; simpl; [reflexivity|].
  destruct (g x); simpl; [destruct (f x)|]; now rewrite IH.
Qed.

(** The dates the loop treats are the eligible dates. *)
Lemma simulated_eligible (gold snp : Plotcomp.Series) (start : Z) :
  filter (simulated (Plotcomp.loc_from start gold) (Plotcomp.loc_from start snp))
         (Plotcomp.labels (Plotcomp.loc_from start gold)) =
  Plotcomp.eligible_dates gold snp start.
Proof.
  unfold Plotcomp.eligible_dates, simulated. rewrite !labels_loc_from, filter_twice.
  apply filter_ext_in. intros d Hd. rewrite !memZ_filter.
  apply memZ_In in Hd. rewrite Hd.
  destruct (start <=? d)%Z; [|reflexivity]. simpl. now rewrite andb_true_r.
Qed.

Lemma loc_loc_from (start d : Z) (s : Plotcomp.Series) :
  (start <= d)%Z -> Plotcomp.loc (Plotcomp.loc_from start s) d = Plotcomp.loc s d.
Proof.
  intros H. unfold Plotcomp.loc_from.
  induction s as [|[x v] tl IH]; simpl; [reflexivity|].
  destruct (start <=? x)%Z eqn:E; simpl.
  - now rewrite IH.
  - destruct (x =? d)%Z eqn:E'; [|assumption].
    apply Z.eqb_eq in E'. apply Z.leb_gt in E. lia.
Qed.

Lemma map_snd_combine {A B : Type} (a : list A) (b : list B) :
  (length b <= length a)%nat -> map snd (combine a b) = b.
Proof.
  revert b. induction a as [|x a IH]; intros [|y b] H; simpl in *;
    try reflexivity; [lia|]. f_equal. apply IH. lia.
Qed.

Lemma map_fst_combine {A B : Type} (a : list A) (b : list B) :
  (length a <= length b)%nat -> map fst (combine a b) = a.
Proof.
  revert b. induction a as [|x a IH]; intros [|y b] H; simpl in *;
    try reflexivity; [lia|]. f_equal. apply IH. lia.
Qed.

Lemma filter_length_le {A : Type} (f : A -> bool) (l : list A) :
  (length (filter f l) <= length l)%nat.
Proof.
  induction l as [|x tl IH]; simpl; [lia|]. destruct (f x); simpl; lia.
Qed.

Lemma Qc_ltb_nonpos (p : Qc) : (p <= 0)%Qc -> Qc_ltb 0%Qc p = false.
Proof.
  intros H. unfold Qc_ltb. destruct (0 ?= p)%Qc eqn:E; try reflexivity.
  apply Qclt_alt in E. exfalso. exact (Qcle_not_lt _ _ H E).
Qed.

Lemma buy_nonpos (shares invest p : Qc) :
  (p <= 0)%Qc -> Plotcomp.buy shares invest (Some p) = shares.
Proof. intros H. unfold Plotcomp.buy. now rewrite Qc_ltb_nonpos. Qed.



Section DCAProofs.
Import Plotcomp.

(** pandas' resampler, and what is used of it: no point in, no point out; some
    point in, some point out. *)
Variable resample_last : string -> Series -> Series.
Hypothesis resample_last_nil : forall rule, resample_last rule [] = [].
Hypothesis resample_last_cons :
  forall rule p s, resample_last rule (p :: s) <> [].

Lemma built_series (gold_monthly snp500_monthly : Series) (m gp sp : Qc)
      (start : Z) :
  let n := length (eligible_dates gold_monthly snp500_monthly start) in
  let pv := value_series gold_monthly snp500_monthly m gp sp start in
  let ci := invested_series gold_monthly snp500_monthly m gp sp start in
  cumulative_invested (dca_loop (loc_from start gold_monthly)
                                (loc_from start snp500_monthly) m gp sp)
  = multiples m n /\
  length pv = n /\ length ci = n /\
  labels pv = firstn n (labels (loc_from start gold_monthly)) /\
  labels ci = firstn n (labels (loc_from start gold_monthly)) /\
  map snd ci = map Some (multiples m n).
Proof.
  intros n pv ci. unfold value_series in pv. unfold invested_series in ci.
  cbv zeta in pv, ci.
  set (gold := loc_from start gold_monthly) in *.
  set (snp := loc_from start snp500_monthly) in *.
  set (st := dca_loop gold snp m gp sp) in *.
  destruct (loop_cumulative gold snp m gp sp) as [Hc Hl].
  fold st in Hc, Hl. unfold gold, snp in Hc, Hl.
  rewrite simulated_eligible in Hc, Hl. fold gold snp n in Hc, Hl.
  assert (Hn : (n <= length (labels gold))%nat).
  { unfold n. rewrite <- (simulated_eligible gold_monthly snp500_monthly start).
    apply filter_length_le. }
  assert (Hf : length (firstn n (labels gold)) = n)
    by (rewrite length_firstn; lia).
  assert (Hlc : length (cumulative_invested st) = n)
    by (rewrite Hc; apply multiples_length).
  split; [exact Hc|].
  split; [unfold pv; rewrite length_combine, Hl, Hf; lia|].
  split; [unfold ci; rewrite length_combine, length_map, Hlc, Hf; lia|].
  split; [change (labels pv) with (map fst pv); unfold pv; rewrite Hl;
          apply map_fst_combine; rewrite Hf, Hl; lia|].
  split; [change (labels ci) with (map fst ci); unfold ci; rewrite Hlc;
          apply map_fst_combine; rewrite Hf, length_map, Hlc; lia|].
  unfold ci. rewrite Hlc, <- Hc. apply map_snd_combine.
  rewrite Hf, length_map, Hlc. lia.
Qed.

(** [calculate_dca] in terms of the two series. *)
Lemma calculate_dca_unfold (gold_monthly snp500_monthly : Series) (m gp sp : Qc)
      (start : Z) (rebalance_frequency : option string) :
  calculate_dca resample_last gold_monthly snp500_monthly m gp sp start
                rebalance_frequency =
  let pv := value_series gold_monthly snp500_monthly m gp sp start in
  let ci := invested_series gold_monthly snp500_monthly m gp sp start in
  out <- match rebalance_frequency with
         | Some f =>
             if String.eqb f EmptyString then Ok (pv, ci)
             else match rebalance_period f with
                  | Some rule => Ok (resample_last rule pv, resample_last rule ci)
                  | None => Raise AttributeError
                  end
         | None => Ok (pv, ci)
         end ;;
  match fst out with
  | [] => Raise IndexError
  | _ :: _ => Ok out
  end.
Proof. reflexivity. Qed.

(** The labels of both returned series are the first dates of the gold index,
    as many as there were steps. *)
Lemma calculate_dca_index_is_prefix (gold_monthly snp500_monthly : Series)
      (m gp sp : Qc) (start : Z) :
  eligible_dates gold_monthly snp500_monthly start <> [] ->
  exists pv ci,
    calculate_dca resample_last gold_monthly snp500_monthly m gp sp start None
    = Ok (pv, ci) /\
    length pv = length ci /\
    labels pv = labels ci /\
    labels pv = firstn (length (eligible_dates gold_monthly snp500_monthly start))
                       (labels (loc_from start gold_monthly)).
Proof.
  intros Hne.
  pose proof (built_series gold_monthly snp500_monthly m gp sp start) as H.
  cbv zeta in H. destruct H as (_ & Hpv & Hci & Hlpv & Hlci & _).
  exists (value_series gold_monthly snp500_monthly m gp sp start),
         (invested_series gold_monthly snp500_monthly m gp sp start).
  split; [|split; [congruence | split; [congruence | exact Hlpv]]].
  rewrite calculate_dca_unfold. cbv zeta. cbn [bind fst].
  destruct (value_series gold_monthly snp500_monthly m gp sp start) eqn:E;
    [|reflexivity].
  simpl in Hpv. symmetry in Hpv. apply length_zero_iff_nil in Hpv. contradiction.
Qed.

(** When every gold date from the start on is also a date of the index, these
    labels are the eligible dates. *)
Lemma aligned_prefix_is_eligible (gold_monthly snp500_monthly : Series)
      (start : Z) :
  (forall d, In d (labels (loc_from start gold_monthly)) ->
             In d (labels snp500_monthly)) ->
  firstn (length (eligible_dates gold_monthly snp500_monthly start))
         (labels (loc_from start gold_monthly))
  = eligible_dates gold_monthly snp500_monthly start.
Proof.
  intros Hall.
  assert (E : eligible_dates gold_monthly snp500_monthly start
              = labels (loc_from start gold_monthly)).
  { rewrite labels_loc_from. unfold eligible_dates. apply filter_ext_in.
    intros d Hd. destruct (start <=? d)%Z eqn:Hs; [|reflexivity]. simpl.
    apply memZ_In, Hall. rewrite labels_loc_from. apply filter_In. now split. }
  rewrite E. apply firstn_all.
Qed.

(** C1 on a series with a missing month: the loop treats January and March
    2020, but the values it computes there are returned under the labels
    January and February; February was never invested, March is not
    reported. *)
Theorem calculate_dca_labels_after_gap :
  eligible_dates sample_gold gapped_snp500 24240 = [24240; 24242]%Z /\
  exists pv ci,
    calculate_dca resample_last sample_gold gapped_snp500 (Qc_of_Z 1000)
                  (Qc_of_Z 50) (Qc_of_Z 50) 24240 None = Ok (pv, ci) /\
    series_view pv = [(24240, Some (1000 # 1)); (24241, Some (2210 # 1))]%Z /\
    series_view ci = [(24240, Some (1000 # 1)); (24241, Some (2000 # 1))]%Z.
Proof.
  split; [reflexivity|]. eexists. eexists.
  split; [vm_compute; reflexivity|]. split; vm_compute; reflexivity.
Qed.


(** C3: at a date the loop treats, an asset whose price is zero or negative
    keeps its share count over the step, nothing is raised, and the invested
    total still grows by the whole monthly amount. *)
Theorem nonpositive_price_skips_purchase (gold_monthly snp500_monthly : Series)
        (m gp sp : Qc) (start : Z) (rebalance_frequency : option string)
        (k : nat) (d : Z) (st : State) :
  nth_error (labels (loc_from start gold_monthly)) k = Some d ->
  In d (labels snp500_monthly) ->
  nth_error (initial_state ::
             fst (calculate_dca_run resample_last gold_monthly snp500_monthly
                                    m gp sp start rebalance_frequency)) k
  = Some st ->
  exists st',
    nth_error (fst (calculate_dca_run resample_last gold_monthly snp500_monthly
                                      m gp sp start rebalance_frequency)) k
    = Some st' /\
    (forall p, loc gold_monthly d = Some p -> (p <= 0)%Qc ->
               gold_shares st' = gold_shares st) /\
    (forall p, loc snp500_monthly d = Some p -> (p <= 0)%Qc ->
               snp500_shares st' = snp500_shares st) /\
    total_invested st' = (total_invested st + m)%Qc /\
    cumulative_invested st' = cumulative_invested st ++ [(total_invested st + m)%Qc].
Proof.
  intros Hd Hsnp Hst. cbn [fst calculate_dca_run] in *.
  set (gold := loc_from start gold_monthly) in *.
  set (snp := loc_from start snp500_monthly) in *.
  assert (Hge : (start <= d)%Z).
  { apply nth_error_In in Hd. unfold gold in Hd. rewrite labels_loc_from in Hd.
    apply filter_In in Hd. destruct Hd as [_ Hd]. now apply Z.leb_le. }
  assert (Hsim : simulated gold snp d = true).
  { unfold simulated. apply andb_true_iff. split.
    - apply memZ_In. eapply nth_error_In; eassumption.
    - unfold snp. rewrite labels_loc_from, memZ_filter. apply andb_true_iff.
      split; [now apply memZ_In | now apply Z.leb_le]. }
  eexists. split; [exact (trace_step gold snp m gp sp _ _ _ _ _ Hd Hst)|].
  destruct (body_simulated gold snp m gp sp st d Hsim)
    as (Hg & Hs & Ht & Hc & _).
  unfold gold in Hg at 2. unfold snp in Hs at 2.
  rewrite loc_loc_from in Hg, Hs by assumption.
  split; [intros p Hp Hle; rewrite Hg, Hp; now apply buy_nonpos|].
  split; [intros p Hp Hle; rewrite Hs, Hp; now apply buy_nonpos|].
  split; assumption.
Qed.



(** *** collect_dca_scenarios *)

(** C9 (as amended): [collect_dca_scenarios] returns the results of all
    scenarios, in the order of the inputs, exactly when every scenario
    succeeds; the first scenario that raises ends the batch with its exception
    and nothing is returned for the others. *)
Theorem collect_dca_scenarios_all_or_nothing
        (gold_monthly snp500_monthly : Series) (inputs : list ScenarioInput) :
  (forall outs,
      collect_dca_scenarios resample_last inputs gold_monthly snp500_monthly
      = Ok outs <->
      results_from resample_last gold_monthly snp500_monthly 0 inputs
      = map Ok outs) /\
  (forall k e,
      nth_error (results_from resample_last gold_monthly snp500_monthly 0 inputs) k
      = Some (Raise e) ->
      (forall j, (j < k)%nat ->
                 exists s, nth_error (results_from resample_last gold_monthly
                                                   snp500_monthly 0 inputs) j
                           = Some (Ok s)) ->
      collect_dca_scenarios resample_last inputs gold_monthly snp500_monthly
      = Raise e).
Proof.
  unfold collect_dca_scenarios. generalize 0%nat as i.
  induction inputs as [|inp tl IH]; intros i; cbn [collect_from results_from].
  - split.
    + intros outs. split.
      * now intros [= <-].
      * destruct outs; [reflexivity | discriminate].
    + intros [|k] e H; discriminate.
  - destruct (IH (S i)) as [IH1 IH2].
    destruct (run_scenario resample_last gold_monthly snp500_monthly i inp)
      as [s|e0] eqn:Erun; cbn [bind].
    + split.
      * intros outs.
        destruct (collect_from resample_last gold_monthly snp500_monthly (S i) tl)
          as [rest|e1] eqn:Erest; cbn [bind].
        -- split.
           ++ intros [= <-]. cbn [map]. f_equal. now apply IH1.
           ++ destruct outs as [|s' outs']; [discriminate|]. cbn [map].
              intros [= <- Htl]. apply IH1 in Htl. congruence.
        -- split; [discriminate|].
           destruct outs as [|s' outs']; [discriminate|]. cbn [map].
           intros [= <- Htl]. apply IH1 in Htl. congruence.
      * intros [|k] e Hk Hbefore; cbn [nth_error] in Hk; [discriminate|].
        rewrite (IH2 k e Hk); [reflexivity|].
        intros j Hj. apply (Hbefore (S j)). lia.
    + split.
      * intros outs. split; [discriminate|].
        destruct outs; discriminate.
      * intros [|k] e Hk Hbefore; cbn [nth_error] in Hk.
        -- congruence.
        -- destruct (Hbefore 0%nat) as [s Hs]; [lia | discriminate].
Qed.

End DCAProofs.

(** ** The theorems on sample data *)

Lemma sample_resample_last_nil (rule : string) : sample_resample_last rule [] = [].
Proof. reflexivity. Qed.

Lemma sample_resample_last_cons (rule : string) (p : Z * option Qc)
      (s : Plotcomp.Series) :
  sample_resample_last rule (p :: s) <> [].
Proof. destruct p as [first v]. discriminate. Qed.


(** April 2020, where the gold price is 0. *)
Lemma nonpositive_price_skips_purchase_witness :
  exists st st',
    nth_error (Plotcomp.initial_state ::
               fst (Plotcomp.calculate_dca_run sample_resample_last gold_with_zero
                      snp500_four (Qc_of_Z 1000) (Qc_of_Z 50) (Qc_of_Z 50)
                      24240 None)) 3 = Some st /\
    nth_error (fst (Plotcomp.calculate_dca_run sample_resample_last gold_with_zero
                      snp500_four (Qc_of_Z 1000) (Qc_of_Z 50) (Qc_of_Z 50)
                      24240 None)) 3 = Some st' /\
    Plotcomp.gold_shares st' = Plotcomp.gold_shares st /\
    Plotcomp.total_invested st' = (Plotcomp.total_invested st + Qc_of_Z 1000)%Qc.
Proof.
  set (trace := fst (Plotcomp.calculate_dca_run sample_resample_last gold_with_zero
                       snp500_four (Qc_of_Z 1000) (Qc_of_Z 50) (Qc_of_Z 50)
                       24240 None)).
  exists (nth 2 trace Plotcomp.initial_state).
  destruct (nonpositive_price_skips_purchase sample_resample_last gold_with_zero
              snp500_four (Qc_of_Z 1000) (Qc_of_Z 50) (Qc_of_Z 50) 24240 None
              3 24243 (nth 2 trace Plotcomp.initial_state))
    as (st' & Hst' & Hgold & _ & Htotal & _).
  - reflexivity.
  - simpl. tauto.
  - reflexivity.
  - exists st'. split; [reflexivity|]. split; [exact Hst'|].
    split; [|exact Htotal].
    apply (Hgold (Qc_of_Z 0)); [reflexivity | exact (Qcle_refl 0%Qc)].
Defined.




(** The four months reported per quarter, under March and June 2020. *)
Example quarterly_report :
  exists pv ci,
    Plotcomp.calculate_dca sample_resample_last gold_with_zero snp500_four
                           (Qc_of_Z 1000) (Qc_of_Z 50) (Qc_of_Z 50) 24240
                           (Some "quarterly"%string) = Ok (pv, ci) /\
    series_view pv = [(24242, Some (3310 # 1)); (24245, Some (259100 # 121))]%Z /\
    series_view ci = [(24242, Some (3000 # 1)); (24245, Some (4000 # 1))]%Z.
Proof.
  eexists. eexists. split; [vm_compute; reflexivity|].
  split; vm_compute; reflexivity.
Qed.

(** The scenario of the specification: prices 100, 110, 121 and 10, 11, 12.1,
    1000 a month split in halves. *)
Example three_months :
  exists pv ci,
    Plotcomp.calculate_dca sample_resample_last sample_gold sample_snp500
                           (Qc_of_Z 1000) (Qc_of_Z 50) (Qc_of_Z 50) 24240 None
    = Ok (pv, ci) /\
    series_view pv = [(24240, Some (1000 # 1)); (24241, Some (2100 # 1));
                      (24242, Some (3310 # 1))]%Z /\
    series_view ci = [(24240, Some (1000 # 1)); (24241, Some (2000 # 1));
                      (24242, Some (3000 # 1))]%Z.
Proof.
  eexists. eexists. split; [vm_compute; reflexivity|].
  split; vm_compute; reflexivity.
Qed.

(** C9 as stated fails: the scenario asking for weekly rebalancing raises, and
    the plain scenario after it, which succeeds on its own, gets no result. *)
Lemma collect_dca_scenarios_aborts_batch :
  ~ isolates_failures sample_resample_last sample_gold sample_snp500
      [weekly_scenario; plain_scenario].
Proof.
  intros H.
  assert (Hs : exists s, Plotcomp.run_scenario sample_resample_last sample_gold
                           sample_snp500 1 plain_scenario = Ok s)
    by (eexists; vm_compute; reflexivity).
  destruct Hs as [s Hs].
  destruct (H 1%nat plain_scenario s eq_refl Hs) as (outs & Hout & _).
  vm_compute in Hout. discriminate.
Qed.

Example weekly_scenario_raises :
  Plotcomp.run_scenario sample_resample_last sample_gold sample_snp500 0
                        weekly_scenario = Raise AttributeError.
Proof. reflexivity. Qed.

(** * Further properties of interpollation_filling.py *)

Section FillingMore.
Import Filling.

(** ** handle_duplicates *)

(** X1: [handle_duplicates] applied to its own output changes nothing: the
    output has no repeated date left. *)
Theorem handle_duplicates_idempotent (df : DataFrame) :
  handle_duplicates (handle_duplicates df) = handle_duplicates df.
Proof.
  unfold handle_duplicates at 2 3.
  destruct (duplicated_any (Date df)) eqn:Hdup.
  - unfold handle_duplicates.
    assert (H : duplicated_any (Date (groupby_mean df)) = false).
    { apply duplicated_any_NoDup. cbn [groupby_mean Date].
      apply StronglySorted_lt_NoDup, group_keys_sorted. }
    now rewrite H.
  - unfold handle_duplicates. now rewrite Hdup.
Qed.

(** X2: [handle_duplicates] never adds a row, and it removes rows exactly
    when some date repeats. *)
Theorem handle_duplicates_row_count (df : DataFrame) :
  (length (Date (handle_duplicates df)) <= length (Date df))%nat /\
  (length (Date (handle_duplicates df)) = length (Date df) <-> NoDup (Date df)).
Proof.
  unfold handle_duplicates. destruct (duplicated_any (Date df)) eqn:Hdup.
  - cbn [groupby_mean Date].
    pose proof (StronglySorted_lt_NoDup _ (group_keys_sorted (Date df))) as Hnd.
    assert (Hincl : incl (group_keys (Date df)) (Date df))
      by (intros x Hx; now apply In_group_keys).
    split; [now apply NoDup_incl_length|]. split.
    + intros Hlen. eapply NoDup_incl_NoDup; [exact Hnd | lia | exact Hincl].
    + intros H. apply duplicated_any_NoDup in H. congruence.
  - split; [lia|]. split; [|reflexivity].
    intros _. now apply duplicated_any_NoDup.
Qed.

Lemma Qc_of_nat_S_neq0 (n : nat) : Qc_of_nat (S n) <> 0%Qc.
Proof.
  intros H. apply (f_equal this) in H. unfold Qc_of_nat, Qc_of_Z, Q2Qc, this in H.
  assert (E : (inject_Z (Z.of_nat (S n)) == 0)%Q).
  { rewrite <- (Qred_correct (inject_Z (Z.of_nat (S n)))), H.
    apply Qred_correct. }
  unfold Qeq in E. simpl in E. lia.
Qed.

Lemma Qc_sum_repeat (v : Qc) (n : nat) :
  Qc_sum (repeat v n) = (Qc_of_nat n * v)%Qc.
Proof.
  induction n as [|n IH].
  - simpl. change (Qc_of_nat 0) with 0%Qc. ring.
  - cbn [repeat Qc_sum fold_right]. fold (Qc_sum (repeat v n)).
    rewrite IH, Qc_of_nat_S. ring.
Qed.

Lemma known_constant (l : list float) (v : Qc) :
  (forall x, In x l -> x = Some v) -> known l = repeat v (length l).
Proof.
  induction l as [|x tl IH]; intros H; [reflexivity|].
  rewrite (H x (or_introl eq_refl)). simpl. f_equal. apply IH.
  intros y Hy. apply H. now right.
Qed.

Lemma nanmean_constant (l : list float) (v : Qc) :
  l <> [] -> (forall x, In x l -> x = Some v) -> nanmean l = Some v.
Proof.
  intros Hne H. unfold nanmean. rewrite (known_constant l v H).
  destruct l as [|x tl]; [congruence|]. cbn [length repeat].
  f_equal. change (v :: repeat v (length tl)) with (repeat v (S (length tl))).
  rewrite Qc_sum_repeat, repeat_length. field. apply Qc_of_nat_S_neq0.
Qed.

Lemma group_values_rows (dates : list Z) (col : list float) (d : Z) (x : float) :
  In x (group_values dates col d) ->
  exists k, nth_error dates k = Some d /\ nth_error col k = Some x.
Proof.
  revert col. induction dates as [|d0 dates IH]; intros [|v col] H;
    try (destruct H).
  simpl in H. destruct (d0 =? d)%Z eqn:E.
  - apply Z.eqb_eq in E. subst d0. destruct H as [<-|H].
    + now exists 0%nat.
    + destruct (IH col H) as (k & Hk1 & Hk2). now exists (S k).
  - destruct (IH col H) as (k & Hk1 & Hk2). now exists (S k).
Qed.

Lemma group_values_nonempty (dates : list Z) (col : list float) (d : Z) :
  In d dates -> length col = length dates -> group_values dates col d <> [].
Proof.
  revert col. induction dates as [|d0 dates IH]; intros [|v col] Hin Hlen;
    try destruct Hin; try discriminate; simpl.
  - subst d0. rewrite Z.eqb_refl. discriminate.
  - destruct (d0 =? d)%Z; [discriminate|]. apply IH; [assumption|].
    simpl in Hlen. lia.
Qed.

(** X3: in exact arithmetic, when all the rows of a date carry the same
    known value in a field, that value is the one [handle_duplicates] leaves
    for the date.  (The code sums doubles and divides by the count: there the
    value is kept up to rounding only.) *)
Theorem agreeing_duplicates_keep_value (df : DataFrame) (j : nat)
        (col : list float) (i : nat) (d : Z) (v : Qc) :
  rectangular df ->
  nth_error (fields df) j = Some col ->
  nth_error (Date (handle_duplicates df)) i = Some d ->
  (forall k, nth_error (Date df) k = Some d -> nth_error col k = Some (Some v)) ->
  exists ocol,
    nth_error (fields (handle_duplicates df)) j = Some ocol /\
    nth_error ocol i = Some (Some v).
Proof.
  intros Hrect Hcol Hd Hsame.
  destruct (handle_duplicates_points df Hrect) as (_ & Hin & _ & Hval).
  destruct (Hval j col i d Hcol Hd) as (ocol & Hocol & Hmean & _).
  exists ocol. split; [exact Hocol|]. rewrite Hmean. f_equal.
  apply nanmean_constant.
  - apply group_values_nonempty.
    + apply Hin. eapply nth_error_In; eassumption.
    + unfold rectangular in Hrect. rewrite Forall_forall in Hrect.
      apply Hrect. eapply nth_error_In; eassumption.
  - intros x Hx. destruct (group_values_rows _ _ _ _ Hx) as (k & Hk1 & Hk2).
    specialize (Hsame k Hk1). congruence.
Qed.

Lemma agreeing_duplicates_keep_value_witness :
  exists ocol,
    nth_error (fields (handle_duplicates agreeing_df)) 0 = Some ocol /\
    nth_error ocol 1 = Some (Some (Qc_of_Z 7)).
Proof.
  apply (agreeing_duplicates_keep_value agreeing_df 0
           [Some (Qc_of_Z 7); Some (Qc_of_Z 3); Some (Qc_of_Z 7)] 1 5 (Qc_of_Z 7)).
  - repeat constructor.
  - reflexivity.
  - reflexivity.
  - intros [|[|[|k]]] H; try reflexivity; try discriminate.
    destruct k; discriminate.
Defined.

(** ** resample_and_fill *)

Lemma fill_with_unrecognized (fill_method : string) :
  ~ recognized fill_method -> fill_with fill_method = Raise ValueError.
Proof.
  intros H. unfold fill_with, recognized in *. simpl in H.
  destruct (String.eqb_spec fill_method "ffill"); [exfalso; auto|].
  destruct (String.eqb_spec fill_method "bfill"); [exfalso; auto|].
  destruct (String.eqb_spec fill_method "linear"); [exfalso; auto 6|].
  destruct (String.eqb_spec fill_method "mean"); [exfalso; auto 8|].
  reflexivity.
Qed.

Lemma recognized_dec (fill_method : string) :
  recognized fill_method \/ ~ recognized fill_method.
Proof.
  unfold recognized.
  destruct (in_dec string_dec fill_method
                   ["ffill"; "bfill"; "linear"; "mean"]%string); auto.
Qed.

Lemma resample_and_fill_raises (df : DataFrame) (fill_method : string) :
  Date df = [] \/ ~ NoDup (Date df) \/ ~ recognized fill_method ->
  resample_and_fill df fill_method = Raise ValueError.
Proof.
  intros H. unfold resample_and_fill.
  destruct (Date df) as [|d0 dates] eqn:Ed; [reflexivity|].
  cbn [index_min index_max].
  destruct (duplicated_any (d0 :: dates)) eqn:Hdup; [reflexivity|].
  apply duplicated_any_NoDup in Hdup.
  destruct H as [H|[H|H]]; [discriminate | contradiction|].
  now rewrite (fill_with_unrecognized _ H).
Qed.

(** X4: [resample_and_fill] returns a frame exactly for a non-empty frame
    with unique dates and one of its four methods; in every other case
    (no row, a repeated date, another method name) it raises ValueError. *)
Theorem resample_and_fill_outcome (df : DataFrame) (fill_method : string) :
  ((exists out, resample_and_fill df fill_method = Ok out) <->
   Date df <> [] /\ NoDup (Date df) /\ recognized fill_method) /\
  ((forall out, resample_and_fill df fill_method <> Ok out) ->
   resample_and_fill df fill_method = Raise ValueError).
Proof.
  assert (Hdec : (Date df <> [] /\ NoDup (Date df) /\ recognized fill_method) \/
                 (Date df = [] \/ ~ NoDup (Date df) \/ ~ recognized fill_method)).
  { destruct (Date df) as [|d0 dates] eqn:Ed; [right; now left|].
    destruct (duplicated_any (d0 :: dates)) eqn:Hdup.
    - right. right. left. intros H. apply duplicated_any_NoDup in H. congruence.
    - apply duplicated_any_NoDup in Hdup.
      destruct (recognized_dec fill_method) as [Hr|Hr].
      + left. repeat split; [discriminate | assumption | assumption].
      + right. right. now right. }
  destruct Hdec as [(Hne & Hnd & Hrec)|Hbad].
  - destruct (resample_and_fill_returns df fill_method Hne Hnd Hrec)
      as (lo & hi & f & _ & _ & _ & _ & _ & _ & Hout).
    split.
    + split; [intros _; now repeat split | intros _; eexists; exact Hout].
    + intros H. exfalso. eapply H. exact Hout.
  - pose proof (resample_and_fill_raises df fill_method Hbad) as Hraise.
    split; [|intros _; exact Hraise]. split.
    + intros [out Hout]. congruence.
    + intros (Hne & Hnd & Hrec). destruct Hbad as [H|[H|H]]; contradiction.
Qed.

(** X5: no method changes a value that is there: a date of the input keeps,
    in the output, the known value it had in a field. *)
Theorem resample_and_fill_keeps_known (df : DataFrame) (fill_method : string)
        (j : nat) (col : list float) (d : Z) (v : Qc) :
  NoDup (Date df) -> recognized fill_method ->
  nth_error (fields df) j = Some col ->
  cell_at_date (Date df) col d = Some v ->
  exists out ocol,
    resample_and_fill df fill_method = Ok out /\
    nth_error (fields out) j = Some ocol /\
    cell_at_date (Date out) ocol d = Some v.
Proof.
  intros Hnd Hrec Hcol Hv.
  pose proof (cell_at_date_In _ _ _ _ Hv) as Hin.
  assert (Hne : Date df <> []) by (intros E; rewrite E in Hin; destruct Hin).
  destruct (resample_and_fill_returns df fill_method Hne Hnd Hrec)
    as (lo & hi & f & _ & _ & _ & _ & Hb & Hf & Hout).
  pose proof (Hb _ Hin) as Hd.
  eexists. eexists. split; [exact Hout|]. cbn [fields Date].
  split; [now rewrite !nth_error_map, Hcol|].
  set (rc := reindex_col (Date df) col (date_range lo hi)).
  set (p := Z.to_nat (d - lo)).
  assert (Hp : nth_error (ffill (bfill (f rc))) p = Some (Some v)).
  { apply post_pass_keeps. apply (fill_with_keeps fill_method f Hf).
    unfold rc. rewrite reindex_col_nth by lia.
    replace (lo + Z.of_nat p)%Z with d by lia. now rewrite Hv. }
  exact (cell_at_date_nth (date_range lo hi) _ p d _
           (StronglySorted_lt_NoDup _ (date_range_sorted lo hi))
           ltac:(rewrite date_range_nth by lia; f_equal; lia) Hp).
Qed.

Lemma resample_and_fill_keeps_known_witness :
  exists out ocol,
    resample_and_fill gapped_df "mean" = Ok out /\
    nth_error (fields out) 0 = Some ocol /\
    cell_at_date (Date out) ocol 5 = Some (Qc_of_Z 50).
Proof.
  apply (resample_and_fill_keeps_known gapped_df "mean" 0
           [Some (Qc_of_Z 10); Some (Qc_of_Z 50); None] 5 (Qc_of_Z 50)).
  - repeat constructor; simpl; intuition discriminate.
  - right. right. right. now left.
  - reflexivity.
  - reflexivity.
Defined.

(** *** How a fill carries a value over a run of NaN *)

Lemma ffill_from_run (tl : list float) (v : Qc) (p : nat) :
  (forall i x, (i <= p)%nat -> nth_error tl i = Some x -> x = None \/ x = Some v) ->
  (p < length tl)%nat ->
  nth_error (ffill_from (Some v) tl) p = Some (Some v).
Proof.
  revert p. induction tl as [|y tl IH]; intros p Hrun Hlen; [simpl in Hlen; lia|].
  assert (Hy : ffill_from (Some v) (y :: tl) = Some v :: ffill_from (Some v) tl).
  { assert (H0 : y = None \/ y = Some v)
      by (apply (Hrun 0%nat); [lia | reflexivity]).
    destruct H0 as [-> | ->]; reflexivity. }
  rewrite Hy. destruct p as [|p]; [reflexivity|]. simpl. apply IH.
  - intros i x Hi Hx. apply (Hrun (S i)); [lia | exact Hx].
  - simpl in Hlen. lia.
Qed.

Lemma ffill_from_carry (l : list float) (prev : float) (p1 p : nat) (v : Qc) :
  nth_error l p1 = Some (Some v) ->
  (forall i x, (p1 < i <= p)%nat -> nth_error l i = Some x ->
               x = None \/ x = Some v) ->
  (p1 <= p < length l)%nat ->
  nth_error (ffill_from prev l) p = Some (Some v).
Proof.
  revert prev p1 p. induction l as [|y tl IH]; intros prev p1 p H1 Hrun Hp.
  - destruct p1; discriminate.
  - destruct p1 as [|p1]; simpl in H1.
    + injection H1 as ->. simpl. destruct p as [|p]; [reflexivity|]. simpl.
      apply ffill_from_run.
      * intros i x Hi Hx. apply (Hrun (S i)); [lia | exact Hx].
      * simpl in Hp. lia.
    + destruct p as [|p]; [lia|].
      assert (Hy : exists z prev', ffill_from prev (y :: tl)
                                   = z :: ffill_from prev' tl)
        by (destruct y; simpl; eauto).
      destruct Hy as (z & prev' & ->). simpl. apply (IH prev' p1 p H1).
      * intros i x Hi Hx. apply (Hrun (S i)); [lia | exact Hx].
      * simpl in Hp. lia.
Qed.

Lemma bfill_cons (y : float) (tl : list float) :
  exists z, bfill (y :: tl) = z :: bfill tl.
Proof. destruct y; simpl; eauto. Qed.

Lemma bfill_carry (l : list float) (p p2 : nat) (v : Qc) :
  nth_error l p2 = Some (Some v) ->
  (forall i x, (p <= i < p2)%nat -> nth_error l i = Some x ->
               x = None \/ x = Some v) ->
  (p <= p2)%nat ->
  nth_error (bfill l) p = Some (Some v).
Proof.
  revert p p2. induction l as [|y tl IH]; intros p p2 H2 Hrun Hp.
  - destruct p2; discriminate.
  - destruct p2 as [|p2]; simpl in H2.
    + injection H2 as ->. assert (p = 0)%nat by lia. subst p. reflexivity.
    + destruct p as [|p].
      * assert (H0 : nth_error (bfill tl) 0 = Some (Some v)).
        { apply (IH 0%nat p2 H2); [|lia].
          intros i x Hi Hx. apply (Hrun (S i)); [lia | exact Hx]. }
        assert (Hy : y = None \/ y = Some v)
          by (apply (Hrun 0%nat); [lia | reflexivity]).
        destruct Hy as [-> | ->]; [|reflexivity].
        simpl. destruct (bfill tl); [discriminate|]. simpl in H0.
        injection H0 as ->. reflexivity.
      * destruct (bfill_cons y tl) as [z ->]. simpl. apply (IH p p2 H2); [|lia].
        intros i x Hi Hx. apply (Hrun (S i)); [lia | exact Hx].
Qed.

(** Cells that are NaN or [v] from some row on stay so under [bfill]. *)
Lemma bfill_Forall (l : list float) (v : Qc) :
  Forall (fun x => x = None \/ x = Some v) l ->
  Forall (fun x => x = None \/ x = Some v) (bfill l).
Proof.
  induction 1 as [|y tl Hy Htl IH]; simpl; [constructor|].
  destruct y as [q|]; constructor; auto.
  destruct (bfill tl) as [|z r]; [now left|]. simpl. now inversion IH.
Qed.

Lemma bfill_suffix (l : list float) (v : Qc) (p : nat) :
  (forall i x, (p <= i)%nat -> nth_error l i = Some x -> x = None \/ x = Some v) ->
  forall i x, (p <= i)%nat -> nth_error (bfill l) i = Some x ->
              x = None \/ x = Some v.
Proof.
  revert p. induction l as [|y tl IH]; intros p H i x Hi Hx.
  - destruct i; discriminate.
  - destruct p as [|p].
    + assert (HF : Forall (fun x => x = None \/ x = Some v) (y :: tl)).
      { apply Forall_forall. intros z Hz. apply In_nth_error in Hz.
        destruct Hz as [k Hk]. apply (H k); [lia | exact Hk]. }
      apply bfill_Forall in HF. rewrite Forall_forall in HF. apply HF.
      eapply nth_error_In; eassumption.
    + destruct i as [|i]; [lia|]. destruct (bfill_cons y tl) as [z Hz].
      rewrite Hz in Hx. simpl in Hx. apply (IH p) with (i := i); [|lia|exact Hx].
      intros k w Hk Hw. apply (H (S k)); [lia | exact Hw].
Qed.

Lemma interpolate_from_leading (l : list float) (p : nat) :
  (forall i, (i <= p)%nat -> nth_error l i = Some None) ->
  nth_error (interpolate_from None l) p = Some None.
Proof.
  revert p. induction l as [|y tl IH]; intros p H.
  - specialize (H 0%nat). simpl in H. discriminate H. lia.
  - assert (Hy : y = None).
    { assert (Some y = Some None) by (apply (H 0%nat); lia). congruence. }
    subst y. simpl. destruct p as [|p]; [reflexivity|]. simpl. apply IH.
    intros i Hi. apply (H (S i)). lia.
Qed.

Lemma ffill_leading (l : list float) (p : nat) :
  (forall i, (i <= p)%nat -> nth_error l i = Some None) ->
  nth_error (ffill l) p = Some None.
Proof.
  unfold ffill. revert p. induction l as [|y tl IH]; intros p H.
  - specialize (H 0%nat). simpl in H. discriminate H. lia.
  - assert (Hy : y = None).
    { assert (Some y = Some None) by (apply (H 0%nat); lia). congruence. }
    subst y. simpl. destruct p as [|p]; [reflexivity|]. simpl. apply IH.
    intros i Hi. apply (H (S i)). lia.
Qed.

Lemma next_valid_none (l : list float) : all_nan l -> next_valid l = None.
Proof.
  induction l as [|y tl IH]; [reflexivity|]. rewrite all_nan_cons.
  intros [-> H]. simpl. now rewrite IH.
Qed.

Lemma interpolate_from_tail (tl : list float) (v : Qc) (k p : nat) :
  all_nan tl -> (p < length tl)%nat ->
  nth_error (interpolate_from (Some (v, k)) tl) p = Some (Some v).
Proof.
  revert k p. induction tl as [|y tl IH]; intros k p Hnan Hp;
    [simpl in Hp; lia|].
  apply all_nan_cons in Hnan. destruct Hnan as [-> Hnan]. simpl.
  rewrite (next_valid_none tl Hnan). destruct p as [|p]; [reflexivity|].
  simpl. apply IH; [assumption | simpl in Hp; lia].
Qed.

Lemma interpolate_from_trailing (l : list float) (prev : option (Qc * nat))
      (p1 p : nat) (v : Qc) :
  nth_error l p1 = Some (Some v) ->
  (forall i, (p1 < i)%nat -> (i < length l)%nat -> nth_error l i = Some None) ->
  (p1 < p < length l)%nat ->
  nth_error (interpolate_from prev l) p = Some (Some v).
Proof.
  revert prev p1 p. induction l as [|y tl IH]; intros prev p1 p H1 Hnan Hp.
  - destruct p1; discriminate.
  - destruct p as [|p]; [lia|]. destruct p1 as [|p1]; simpl in H1.
    + injection H1 as ->. simpl. apply interpolate_from_tail; [|simpl in Hp; lia].
      apply Forall_forall. intros x Hx. apply In_nth_error in Hx.
      destruct Hx as [i Hi].
      assert (Hlt : (i < length tl)%nat) by (apply nth_error_Some; congruence).
      specialize (Hnan (S i)). simpl in Hnan.
      rewrite Hnan in Hi by lia. congruence.
    + destruct (interpolate_from_cons prev y tl) as (z & prev' & ->). simpl.
      apply (IH prev' p1 p H1); [|simpl in Hp; lia].
      intros i Hi Hlen. apply (Hnan (S i)); simpl; lia.
Qed.

(** *** The methods, date by date *)

(** The column of the output that comes from a column of the input. *)
Lemma filled_column (df : DataFrame) (fill_method : string) (j : nat)
      (col : list float) :
  Date df <> [] -> NoDup (Date df) -> recognized fill_method ->
  nth_error (fields df) j = Some col ->
  exists lo hi f out,
    (forall d, In d (Date df) -> (lo <= d <= hi)%Z) /\
    fill_with fill_method = Ok f /\
    resample_and_fill df fill_method = Ok out /\
    nth_error (fields out) j
    = Some (ffill (bfill (f (reindex_col (Date df) col (date_range lo hi))))) /\
    length (reindex_col (Date df) col (date_range lo hi))
    = Z.to_nat (hi - lo + 1) /\
    (forall t ocol x,
        (lo <= t <= hi)%Z -> nth_error ocol (Z.to_nat (t - lo)) = Some x ->
        cell_at_date (Date out) ocol t = x).
Proof.
  intros Hne Hnd Hrec Hcol.
  destruct (resample_and_fill_returns df fill_method Hne Hnd Hrec)
    as (lo & hi & f & _ & _ & _ & _ & Hb & Hf & Hout).
  exists lo, hi, f. eexists. split; [exact Hb|]. split; [exact Hf|].
  split; [exact Hout|]. cbn [fields Date].
  split; [now rewrite !nth_error_map, Hcol|].
  split; [unfold reindex_col; now rewrite length_map, date_range_length|].
  intros t ocol x Ht Hx.
  apply (cell_at_date_nth (date_range lo hi) ocol (Z.to_nat (t - lo)) t x);
    [apply StronglySorted_lt_NoDup, date_range_sorted | | exact Hx].
  rewrite date_range_nth by lia. f_equal. lia.
Qed.

(** X6: under [ffill] a date takes the known value of the nearest earlier
    date that has one. *)
Theorem ffill_takes_previous (df : DataFrame) (j : nat) (col : list float)
        (t1 t tb : Z) (v1 : Qc) :
  NoDup (Date df) ->
  nth_error (fields df) j = Some col ->
  cell_at_date (Date df) col t1 = Some v1 ->
  (forall d, (t1 < d <= t)%Z -> cell_at_date (Date df) col d = None) ->
  In tb (Date df) -> (t1 <= t <= tb)%Z ->
  exists out ocol,
    resample_and_fill df "ffill" = Ok out /\
    nth_error (fields out) j = Some ocol /\
    cell_at_date (Date out) ocol t = Some v1.
Proof.
  intros Hnd Hcol H1 Hgap Hb Ht.
  pose proof (cell_at_date_In _ _ _ _ H1) as Hin1.
  assert (Hne : Date df <> []) by (intros E; rewrite E in Hin1; destruct Hin1).
  destruct (filled_column df "ffill" j col Hne Hnd
              ltac:(now left) Hcol)
    as (lo & hi & f & out & Hbound & Hf & Hout & Hocol & Hlen & Hcell).
  injection Hf as <-.
  pose proof (Hbound _ Hin1). pose proof (Hbound _ Hb).
  set (rc := reindex_col (Date df) col (date_range lo hi)) in *.
  exists out. eexists. split; [exact Hout|]. split; [exact Hocol|].
  apply Hcell; [lia|]. apply post_pass_keeps. unfold ffill.
  apply (ffill_from_carry rc None (Z.to_nat (t1 - lo))).
  - unfold rc. rewrite reindex_col_nth by lia.
    replace (lo + Z.of_nat (Z.to_nat (t1 - lo)))%Z with t1 by lia. now rewrite H1.
  - intros i x Hi Hx. unfold rc in Hx. rewrite reindex_col_nth in Hx by lia.
    rewrite Hgap in Hx by lia. left. congruence.
  - rewrite Hlen. lia.
Qed.

Lemma ffill_takes_previous_witness :
  exists out ocol,
    resample_and_fill gapped_df "ffill" = Ok out /\
    nth_error (fields out) 0 = Some ocol /\
    cell_at_date (Date out) ocol 4 = Some (Qc_of_Z 10).
Proof.
  apply (ffill_takes_previous gapped_df 0
           [Some (Qc_of_Z 10); Some (Qc_of_Z 50); None] 1 4 5).
  - repeat constructor; simpl; intuition discriminate.
  - reflexivity.
  - reflexivity.
  - intros d Hd. assert (E : d = 2%Z \/ d = 3%Z \/ d = 4%Z) by lia.
    destruct E as [->|[->| ->]]; reflexivity.
  - simpl. tauto.
  - lia.
Defined.

(** X7: under [bfill] a date takes the known value of the nearest later date
    that has one. *)
Theorem bfill_takes_next (df : DataFrame) (j : nat) (col : list float)
        (ta t t2 : Z) (v2 : Qc) :
  NoDup (Date df) ->
  nth_error (fields df) j = Some col ->
  cell_at_date (Date df) col t2 = Some v2 ->
  (forall d, (t <= d < t2)%Z -> cell_at_date (Date df) col d = None) ->
  In ta (Date df) -> (ta <= t <= t2)%Z ->
  exists out ocol,
    resample_and_fill df "bfill" = Ok out /\
    nth_error (fields out) j = Some ocol /\
    cell_at_date (Date out) ocol t = Some v2.
Proof.
  intros Hnd Hcol H2 Hgap Ha Ht.
  pose proof (cell_at_date_In _ _ _ _ H2) as Hin2.
  assert (Hne : Date df <> []) by (intros E; rewrite E in Hin2; destruct Hin2).
  destruct (filled_column df "bfill" j col Hne Hnd
              ltac:(right; now left) Hcol)
    as (lo & hi & f & out & Hbound & Hf & Hout & Hocol & Hlen & Hcell).
  injection Hf as <-.
  pose proof (Hbound _ Hin2). pose proof (Hbound _ Ha).
  set (rc := reindex_col (Date df) col (date_range lo hi)) in *.
  exists out. eexists. split; [exact Hout|]. split; [exact Hocol|].
  apply Hcell; [lia|]. apply post_pass_keeps.
  apply (bfill_carry rc _ (Z.to_nat (t2 - lo))); [| |lia].
  - unfold rc. rewrite reindex_col_nth by lia.
    replace (lo + Z.of_nat (Z.to_nat (t2 - lo)))%Z with t2 by lia. now rewrite H2.
  - intros i x Hi Hx. unfold rc in Hx. rewrite reindex_col_nth in Hx by lia.
    rewrite Hgap in Hx by lia. left. congruence.
Qed.

Lemma bfill_takes_next_witness :
  exists out ocol,
    resample_and_fill gapped_df "bfill" = Ok out /\
    nth_error (fields out) 0 = Some ocol /\
    cell_at_date (Date out) ocol 2 = Some (Qc_of_Z 50).
Proof.
  apply (bfill_takes_next gapped_df 0
           [Some (Qc_of_Z 10); Some (Qc_of_Z 50); None] 1 2 5).
  - repeat constructor; simpl; intuition discriminate.
  - reflexivity.
  - reflexivity.
  - intros d Hd. assert (E : d = 2%Z \/ d = 3%Z \/ d = 4%Z) by lia.
    destruct E as [->|[->| ->]]; reflexivity.
  - simpl. tauto.
  - lia.
Defined.

(** *** The edges *)

Lemma nearest_fill (fill_method : string) :
  nearest_method fill_method ->
  fill_with fill_method = Ok ffill \/ fill_with fill_method = Ok bfill \/
  fill_with fill_method = Ok interpolate_linear.
Proof.
  unfold nearest_method. simpl. intros [<-|[<-|[<-|[]]]]; auto.
Qed.

Lemma nearest_recognized (fill_method : string) :
  nearest_method fill_method -> recognized fill_method.
Proof.
  unfold nearest_method, recognized. simpl. intuition.
Qed.

Lemma leading_after_fill (fill_method : string) (f : list float -> list float)
      (l : list float) (p2 : nat) (v : Qc) :
  nearest_method fill_method -> fill_with fill_method = Ok f ->
  nth_error l p2 = Some (Some v) ->
  (forall i, (i < p2)%nat -> nth_error l i = Some None) ->
  forall i x, (i < p2)%nat -> nth_error (f l) i = Some x ->
              x = None \/ x = Some v.
Proof.
  intros Hm Hf H2 Hnan i x Hi Hx.
  destruct (nearest_fill _ Hm) as [E|[E|E]]; rewrite E in Hf;
    injection Hf as <-.
  - rewrite ffill_leading in Hx; [left; congruence|].
    intros k Hk. apply Hnan. lia.
  - rewrite (bfill_carry l i p2 v H2) in Hx; [right; congruence | | lia].
    intros k y Hk Hy. rewrite Hnan in Hy by lia. left. congruence.
  - unfold interpolate_linear in Hx.
    rewrite interpolate_from_leading in Hx; [left; congruence|].
    intros k Hk. apply Hnan. lia.
Qed.

Lemma trailing_after_fill (fill_method : string) (f : list float -> list float)
      (l : list float) (p1 : nat) (v : Qc) :
  nearest_method fill_method -> fill_with fill_method = Ok f ->
  nth_error l p1 = Some (Some v) ->
  (forall i, (p1 < i)%nat -> (i < length l)%nat -> nth_error l i = Some None) ->
  forall i x, (p1 < i)%nat -> nth_error (f l) i = Some x ->
              x = None \/ x = Some v.
Proof.
  intros Hm Hf H1 Hnan i x Hi Hx.
  assert (Hlen : (i < length (f l))%nat) by (apply nth_error_Some; congruence).
  destruct (nearest_fill _ Hm) as [E|[E|E]]; rewrite E in Hf;
    injection Hf as <-.
  - destruct (ffill_from_keeps None l) as [Hl _]. fold (ffill l) in Hl.
    unfold ffill in Hx.
    rewrite (ffill_from_carry l None p1 i v H1) in Hx; [right; congruence | |].
    + intros k y Hk Hy. rewrite Hnan in Hy; [left; congruence | lia |].
      apply nth_error_Some. congruence.
    + rewrite Hl in Hlen. lia.
  - apply (bfill_suffix l v (S p1)) with (i := i); [|lia|exact Hx].
    intros k y Hk Hy. rewrite Hnan in Hy; [left; congruence | lia |].
    apply nth_error_Some. congruence.
  - destruct (interpolate_from_keeps None l) as [Hl _].
    unfold interpolate_linear in *.
    rewrite (interpolate_from_trailing l None p1 i v H1 Hnan) in Hx;
      [right; congruence|]. rewrite Hl in Hlen. lia.
Qed.

(** X8: with [ffill], [bfill] or [linear], the dates before the first known
    value of a field take that value: what the method leaves open at the
    start is closed by the backward pass. *)
Theorem leading_edge_takes_first_known (df : DataFrame) (fill_method : string)
        (j : nat) (col : list float) (ta t t2 : Z) (v2 : Qc) :
  NoDup (Date df) -> nearest_method fill_method ->
  nth_error (fields df) j = Some col ->
  cell_at_date (Date df) col t2 = Some v2 ->
  (forall d, (d < t2)%Z -> cell_at_date (Date df) col d = None) ->
  In ta (Date df) -> (ta <= t <= t2)%Z ->
  exists out ocol,
    resample_and_fill df fill_method = Ok out /\
    nth_error (fields out) j = Some ocol /\
    cell_at_date (Date out) ocol t = Some v2.
Proof.
  intros Hnd Hm Hcol H2 Hnan Ha Ht.
  pose proof (cell_at_date_In _ _ _ _ H2) as Hin2.
  assert (Hne : Date df <> []) by (intros E; rewrite E in Hin2; destruct Hin2).
  destruct (filled_column df fill_method j col Hne Hnd
              (nearest_recognized _ Hm) Hcol)
    as (lo & hi & f & out & Hbound & Hf & Hout & Hocol & Hlen & Hcell).
  pose proof (Hbound _ Hin2). pose proof (Hbound _ Ha).
  set (rc := reindex_col (Date df) col (date_range lo hi)) in *.
  assert (Hrc2 : nth_error rc (Z.to_nat (t2 - lo)) = Some (Some v2)).
  { unfold rc. rewrite reindex_col_nth by lia.
    replace (lo + Z.of_nat (Z.to_nat (t2 - lo)))%Z with t2 by lia. now rewrite H2. }
  assert (Hrcn : forall i, (i < Z.to_nat (t2 - lo))%nat -> nth_error rc i = Some None).
  { intros i Hi. unfold rc. rewrite reindex_col_nth by lia.
    rewrite Hnan by lia. reflexivity. }
  exists out. eexists. split; [exact Hout|]. split; [exact Hocol|].
  apply Hcell; [lia|].
  destruct (ffill_from_keeps None (bfill (f rc))) as [_ Hk]. apply Hk.
  apply (bfill_carry (f rc) _ (Z.to_nat (t2 - lo))); [| |lia].
  - now apply (fill_with_keeps fill_method f Hf).
  - intros i x Hi Hx.
    apply (leading_after_fill fill_method f rc _ v2 Hm Hf Hrc2 Hrcn i x);
      [lia | exact Hx].
Qed.

Lemma leading_edge_takes_first_known_witness :
  exists out ocol,
    resample_and_fill open_ends_df "linear" = Ok out /\
    nth_error (fields out) 0 = Some ocol /\
    cell_at_date (Date out) ocol 2 = Some (Qc_of_Z 30).
Proof.
  apply (leading_edge_takes_first_known open_ends_df "linear" 0
           [None; Some (Qc_of_Z 30); Some (Qc_of_Z 50); None] 1 2 3).
  - repeat constructor; simpl; intuition discriminate.
  - right. right. now left.
  - reflexivity.
  - reflexivity.
  - intros d Hd. unfold cell_at_date, open_ends_df. cbn [Date index_of].
    destruct (Z.eqb_spec 1 d); [reflexivity|].
    destruct (Z.eqb_spec 3 d); [lia|].
    destruct (Z.eqb_spec 5 d); [lia|].
    destruct (Z.eqb_spec 8 d); reflexivity.
  - simpl. tauto.
  - lia.
Defined.

(** X9: with [ffill], [bfill] or [linear], the dates after the last known
    value of a field take that value. *)
Theorem trailing_edge_takes_last_known (df : DataFrame) (fill_method : string)
        (j : nat) (col : list float) (t1 t tb : Z) (v1 : Qc) :
  NoDup (Date df) -> nearest_method fill_method ->
  nth_error (fields df) j = Some col ->
  cell_at_date (Date df) col t1 = Some v1 ->
  (forall d, (t1 < d)%Z -> cell_at_date (Date df) col d = None) ->
  In tb (Date df) -> (t1 <= t <= tb)%Z ->
  exists out ocol,
    resample_and_fill df fill_method = Ok out /\
    nth_error (fields out) j = Some ocol /\
    cell_at_date (Date out) ocol t = Some v1.
Proof.
  intros Hnd Hm Hcol H1 Hnan Hb Ht.
  pose proof (cell_at_date_In _ _ _ _ H1) as Hin1.
  assert (Hne : Date df <> []) by (intros E; rewrite E in Hin1; destruct Hin1).
  destruct (filled_column df fill_method j col Hne Hnd
              (nearest_recognized _ Hm) Hcol)
    as (lo & hi & f & out & Hbound & Hf & Hout & Hocol & Hlen & Hcell).
  pose proof (Hbound _ Hin1). pose proof (Hbound _ Hb).
  set (rc := reindex_col (Date df) col (date_range lo hi)) in *.
  set (p1 := Z.to_nat (t1 - lo)).
  assert (Hrc1 : nth_error rc p1 = Some (Some v1)).
  { unfold rc, p1. rewrite reindex_col_nth by lia.
    replace (lo + Z.of_nat (Z.to_nat (t1 - lo)))%Z with t1 by lia. now rewrite H1. }
  assert (Hrcn : forall i, (p1 < i)%nat -> (i < length rc)%nat ->
                           nth_error rc i = Some None).
  { intros i Hi Hl. unfold rc. rewrite reindex_col_nth by lia.
    rewrite Hnan by lia. reflexivity. }
  pose proof (fill_with_keeps fill_method f Hf) as Hkeep.
  destruct (Hkeep rc) as [Hlf Hkf]. destruct (bfill_keeps (f rc)) as [Hlb Hkb].
  exists out. eexists. split; [exact Hout|]. split; [exact Hocol|].
  apply Hcell; [lia|]. unfold ffill.
  apply (ffill_from_carry (bfill (f rc)) None p1).
  - apply Hkb, Hkf, Hrc1.
  - intros i x Hi Hx.
    apply (bfill_suffix (f rc) v1 (S p1)) with (i := i); [|lia|exact Hx].
    intros k y Hk Hy.
    apply (trailing_after_fill fill_method f rc p1 v1 Hm Hf Hrc1 Hrcn k y);
      [lia | exact Hy].
  - rewrite Hlb, Hlf, Hlen. unfold p1. lia.
Qed.

Lemma trailing_edge_takes_last_known_witness :
  exists out ocol,
    resample_and_fill open_ends_df "bfill" = Ok out /\
    nth_error (fields out) 0 = Some ocol /\
    cell_at_date (Date out) ocol 7 = Some (Qc_of_Z 50).
Proof.
  apply (trailing_edge_takes_last_known open_ends_df "bfill" 0
           [None; Some (Qc_of_Z 30); Some (Qc_of_Z 50); None] 5 7 8).
  - repeat constructor; simpl; intuition discriminate.
  - right. now left.
  - reflexivity.
  - reflexivity.
  - intros d Hd. unfold cell_at_date, open_ends_df. cbn [Date index_of].
    destruct (Z.eqb_spec 1 d); [lia|].
    destruct (Z.eqb_spec 3 d); [lia|].
    destruct (Z.eqb_spec 5 d); [lia|].
    destruct (Z.eqb_spec 8 d); reflexivity.
  - simpl. tauto.
  - lia.
Defined.

(** *** The mean method *)

Lemma known_app (l1 l2 : list float) : known (l1 ++ l2) = known l1 ++ known l2.
Proof.
  induction l1 as [|[q|] l1 IH]; simpl; [reflexivity | now rewrite IH | exact IH].
Qed.

Lemma index_of_None (d : Z) (l : list Z) : ~ In d l -> index_of d l = None.
Proof.
  induction l as [|x l IH]; simpl; [reflexivity|]. intros H.
  destruct (Z.eqb_spec x d); [exfalso; auto|]. rewrite IH; auto.
Qed.

Lemma cell_at_date_tail (x : Z) (dt : list Z) (c : float) (ct : list float)
      (ds : list Z) :
  ~ In x ds ->
  map (cell_at_date (x :: dt) (c :: ct)) ds = map (cell_at_date dt ct) ds.
Proof.
  intros Hx. apply map_ext_in. intros d Hd. unfold cell_at_date. simpl.
  destruct (Z.eqb_spec x d); [subst; contradiction|].
  destruct (index_of d dt); reflexivity.
Qed.

(** Reindexing on dates that cover the index, once each, moves the known
    values of a column without adding or losing one. *)
Lemma known_reindex (dates : list Z) (col : list float) (ds : list Z) :
  NoDup dates -> NoDup ds -> length col = length dates -> incl dates ds ->
  Permutation (known (reindex_col dates col ds)) (known col).
Proof.
  unfold reindex_col. revert col ds.
  induction dates as [|x dt IH]; intros col ds Hnd Hds Hlen Hincl.
  - destruct col; [|discriminate]. simpl.
    replace (map (cell_at_date [] []) ds) with (map (fun _ : Z => @None Qc) ds)
      by (apply map_ext; intros d; reflexivity).
    induction ds; simpl; [constructor|]. apply IHds.
    + now inversion Hds.
    + intros y [].
  - destruct col as [|c ct]; [discriminate|]. simpl in Hlen.
    injection Hlen as Hlen. inversion Hnd as [|? ? Hx Hnd']; subst.
    destruct (in_split x ds (Hincl x (or_introl eq_refl))) as (ds1 & ds2 & ->).
    pose proof (NoDup_remove_1 _ _ _ Hds) as Hds'.
    pose proof (NoDup_remove_2 _ _ _ Hds) as Hxds.
    assert (Hincl' : incl dt (ds1 ++ ds2)).
    { intros y Hy. specialize (Hincl y (or_intror Hy)).
      apply in_app_or in Hincl. apply in_or_app.
      destruct Hincl as [H|[H|H]]; [now left | subst; contradiction | now right]. }
    specialize (IH ct (ds1 ++ ds2) Hnd' Hds' Hlen Hincl').
    rewrite map_app, known_app in IH. rewrite map_app, known_app. simpl map.
    rewrite !cell_at_date_tail
      by (intros H; apply Hxds, in_or_app; auto).
    replace (cell_at_date (x :: dt) (c :: ct) x) with c
      by (unfold cell_at_date; simpl; now rewrite Z.eqb_refl).
    destruct c as [q|]; simpl.
    + apply Permutation_sym, Permutation_cons_app, Permutation_sym, IH.
    + exact IH.
Qed.

Lemma Qc_sum_perm (l1 l2 : list Qc) :
  Permutation l1 l2 -> Qc_sum l1 = Qc_sum l2.
Proof.
  induction 1; simpl.
  - reflexivity.
  - now rewrite IHPermutation.
  - rewrite !Qcplus_assoc. f_equal. apply Qcplus_comm.
  - congruence.
Qed.

Lemma nanmean_perm (l1 l2 : list float) :
  Permutation (known l1) (known l2) -> nanmean l1 = nanmean l2.
Proof.
  intros H. unfold nanmean.
  pose proof (Permutation_length H) as Hlen. pose proof (Qc_sum_perm _ _ H) as Hs.
  destruct (known l1), (known l2); try discriminate; [reflexivity|].
  now rewrite Hs, Hlen.
Qed.

Lemma known_nil_all_nan (l : list float) : known l = [] -> all_nan l.
Proof.
  induction l as [|[q|] l IH]; simpl; intros H.
  - constructor.
  - discriminate.
  - constructor; [reflexivity | exact (IH H)].
Qed.

(** X10: under [mean] a date without a value takes the mean of the values
    the field has in the input: the mean is taken before any gap is closed,
    so the days added between two rows do not weigh in it. *)
Theorem mean_fills_with_field_mean (df : DataFrame) (j : nat)
        (col : list float) (ta t tb : Z) :
  NoDup (Date df) ->
  nth_error (fields df) j = Some col -> length col = length (Date df) ->
  In ta (Date df) -> In tb (Date df) -> (ta <= t <= tb)%Z ->
  cell_at_date (Date df) col t = None ->
  exists out ocol,
    resample_and_fill df "mean" = Ok out /\
    nth_error (fields out) j = Some ocol /\
    cell_at_date (Date out) ocol t = nanmean col.
Proof.
  intros Hnd Hcol Hlen Ha Hb Ht Hnan.
  assert (Hne : Date df <> []) by (intros E; rewrite E in Ha; destruct Ha).
  destruct (filled_column df "mean" j col Hne Hnd
              ltac:(right; right; right; now left) Hcol)
    as (lo & hi & f & out & Hbound & Hf & Hout & Hocol & Hrlen & Hcell).
  injection Hf as <-.
  pose proof (Hbound _ Ha). pose proof (Hbound _ Hb).
  set (rc := reindex_col (Date df) col (date_range lo hi)) in *.
  assert (Hmean : nanmean rc = nanmean col).
  { apply nanmean_perm, known_reindex; try assumption.
    - apply StronglySorted_lt_NoDup, date_range_sorted.
    - intros d Hd. apply In_date_range. now apply Hbound. }
  assert (Hp : nth_error rc (Z.to_nat (t - lo)) = Some None).
  { unfold rc. rewrite reindex_col_nth by lia.
    replace (lo + Z.of_nat (Z.to_nat (t - lo)))%Z with t by lia. now rewrite Hnan. }
  assert (Hfp : nth_error (fillna_mean rc) (Z.to_nat (t - lo))
                = Some (nanmean col)).
  { unfold fillna_mean, fillna_value. rewrite nth_error_map, Hp. simpl.
    now rewrite Hmean. }
  exists out. eexists. split; [exact Hout|]. split; [exact Hocol|].
  apply Hcell; [lia|].
  destruct (nanmean col) as [m|] eqn:Em.
  - now apply post_pass_keeps.
  - assert (Hall : all_nan (ffill (bfill (fillna_mean rc)))).
    { apply ffill_all_nan, bfill_all_nan, fillna_mean_all_nan.
      apply known_nil_all_nan. unfold nanmean in Hmean.
      destruct (known rc); [reflexivity | discriminate]. }
    destruct (nth_error (ffill (bfill (fillna_mean rc))) (Z.to_nat (t - lo)))
      as [x|] eqn:Ex.
    + apply nth_error_In in Ex. unfold all_nan in Hall.
      rewrite Forall_forall in Hall. now rewrite (Hall _ Ex).
    + apply nth_error_None in Ex.
      destruct (post_pass_keeps (fillna_mean rc)) as [L1 _].
      destruct (fillna_mean_keeps rc) as [L2 _].
      rewrite L1, L2, Hrlen in Ex. lia.
Qed.

Lemma mean_fills_with_field_mean_witness :
  exists out ocol,
    resample_and_fill gapped_df "mean" = Ok out /\
    nth_error (fields out) 0 = Some ocol /\
    cell_at_date (Date out) ocol 2
    = nanmean [Some (Qc_of_Z 10); Some (Qc_of_Z 50); None].
Proof.
  apply (mean_fills_with_field_mean gapped_df 0
           [Some (Qc_of_Z 10); Some (Qc_of_Z 50); None] 1 2 5).
  - repeat constructor; simpl; intuition discriminate.
  - reflexivity.
  - reflexivity.
  - simpl. tauto.
  - simpl. tauto.
  - lia.
  - reflexivity.
Defined.

(** *** Filling what is already filled *)

Lemma resample_and_fill_Ok_inv (df out : DataFrame) (fill_method : string) :
  resample_and_fill df fill_method = Ok out ->
  Date df <> [] /\ NoDup (Date df) /\ recognized fill_method.
Proof.
  intros Hout.
  split; [|split].
  - intros E. rewrite (resample_and_fill_raises df fill_method) in Hout;
      [discriminate | now left].
  - destruct (duplicated_any (Date df)) eqn:Hdup.
    + rewrite (resample_and_fill_raises df fill_method) in Hout;
        [discriminate|]. right. left. intros H.
      apply duplicated_any_NoDup in H. congruence.
    + now apply duplicated_any_NoDup.
  - destruct (recognized_dec fill_method) as [H|H]; [exact H|].
    rewrite (resample_and_fill_raises df fill_method) in Hout;
      [discriminate | now right; right].
Qed.

Lemma reindex_self (dates : list Z) (col : list float) :
  NoDup dates -> length col = length dates -> reindex_col dates col dates = col.
Proof.
  intros Hnd Hlen. apply nth_error_ext. intros k. unfold reindex_col.
  rewrite nth_error_map.
  destruct (nth_error dates k) as [d|] eqn:Ed; simpl.
  - destruct (nth_error col k) as [v|] eqn:Ev.
    + f_equal. now apply (cell_at_date_nth dates col k).
    + apply nth_error_None in Ev.
      assert (k < length dates)%nat by (apply nth_error_Some; congruence). lia.
  - symmetry. apply nth_error_None. apply nth_error_None in Ed. lia.
Qed.

Lemma ffill_from_all_known (prev : float) (l : list float) :
  all_known l -> ffill_from prev l = l.
Proof.
  intros H. revert prev. induction H as [|[q|] l Hv _ IH]; intros prev; simpl.
  - reflexivity.
  - now rewrite IH.
  - contradiction.
Qed.

Lemma bfill_all_known (l : list float) : all_known l -> bfill l = l.
Proof.
  induction 1 as [|[q|] l Hv _ IH]; simpl;
    [reflexivity | now rewrite IH | contradiction].
Qed.

Lemma interpolate_from_all_known (prev : option (Qc * nat)) (l : list float) :
  all_known l -> interpolate_from prev l = l.
Proof.
  intros H. revert prev. induction H as [|[q|] l Hv _ IH]; intros prev; simpl.
  - reflexivity.
  - now rewrite IH.
  - contradiction.
Qed.

Lemma fillna_value_all_known (x : float) (l : list float) :
  all_known l -> fillna_value x l = l.
Proof.
  unfold fillna_value.
  induction 1 as [|[q|] l Hv _ IH]; cbn [map];
    [reflexivity | now rewrite IH | contradiction].
Qed.

Lemma ffill_all_nan_id (l : list float) : all_nan l -> ffill l = l.
Proof.
  unfold ffill. induction l as [|v l IH]; intros H; [reflexivity|].
  apply all_nan_cons in H. destruct H as [-> H]. simpl. now rewrite IH.
Qed.

Lemma bfill_all_nan_id (l : list float) : all_nan l -> bfill l = l.
Proof.
  induction l as [|v l IH]; intros H; [reflexivity|].
  apply all_nan_cons in H. destruct H as [-> H]. simpl. rewrite (IH H).
  destruct l as [|w l]; [reflexivity|].
  apply all_nan_cons in H. destruct H as [-> _]. reflexivity.
Qed.

Lemma interpolate_all_nan_id (l : list float) :
  all_nan l -> interpolate_linear l = l.
Proof.
  unfold interpolate_linear. induction l as [|v l IH]; intros H; [reflexivity|].
  apply all_nan_cons in H. destruct H as [-> H]. simpl. now rewrite IH.
Qed.

Lemma fillna_none (l : list float) : fillna_value None l = l.
Proof.
  unfold fillna_value. induction l as [|[q|] l IH]; simpl; congruence.
Qed.

(** A column that the fills leave alone: no NaN in it, or nothing else. *)
Lemma fill_settled (fill_method : string) (f : list float -> list float)
      (l : list float) :
  fill_with fill_method = Ok f -> all_known l \/ all_nan l ->
  f l = l /\ ffill (bfill l) = l.
Proof.
  intros Hf Hl. split.
  - unfold fill_with in Hf.
    repeat match type of Hf with
           | (if ?b then _ else _) = _ => destruct b
           end; try discriminate; injection Hf as <-; destruct Hl as [H|H].
    + now apply ffill_from_all_known.
    + now apply ffill_all_nan_id.
    + now apply bfill_all_known.
    + now apply bfill_all_nan_id.
    + now apply interpolate_from_all_known.
    + now apply interpolate_all_nan_id.
    + now apply fillna_value_all_known.
    + unfold fillna_mean, nanmean. rewrite (all_nan_known _ H). apply fillna_none.
  - destruct Hl as [H|H].
    + rewrite (bfill_all_known _ H). now apply ffill_from_all_known.
    + rewrite (bfill_all_nan_id _ H). now apply ffill_all_nan_id.
Qed.

Lemma filled_settled (fill_method : string) (f : list float -> list float)
      (l : list float) :
  fill_with fill_method = Ok f ->
  all_known (ffill (bfill (f l))) \/ all_nan (ffill (bfill (f l))).
Proof.
  intros Hf. destruct (classic_has_known l) as [H|H].
  - left. apply post_pass_all_known.
    apply keeps_has_known; [exact (fill_with_keeps _ _ Hf) | exact H].
  - right. apply all_nan_iff in H.
    apply ffill_all_nan, bfill_all_nan. exact (fill_with_all_nan _ _ _ Hf H).
Qed.

(** X11: a frame that [resample_and_fill] has produced is left as it is by
    [resample_and_fill], whatever method is chosen the second time. *)
Theorem resample_and_fill_fixed_point (df out : DataFrame)
        (fill_method another_method : string) :
  resample_and_fill df fill_method = Ok out -> recognized another_method ->
  resample_and_fill out another_method = Ok out.
Proof.
  intros Hout Hrec'.
  destruct (resample_and_fill_Ok_inv _ _ _ Hout) as (Hne & Hnd & Hrec).
  destruct (resample_and_fill_returns df fill_method Hne Hnd Hrec)
    as (lo & hi & f & _ & _ & Hinlo & _ & Hb & Hf & Hout0).
  rewrite Hout in Hout0. injection Hout0 as ->.
  pose proof (Hb _ Hinlo) as Hle.
  set (dr := date_range lo hi).
  assert (Hdr : NoDup dr) by apply StronglySorted_lt_NoDup, date_range_sorted.
  match goal with
  | |- resample_and_fill ?o _ = _ => set (o' := o)
  end.
  assert (Hne' : Date o' <> []).
  { cbn [o' Date]. intros E. apply (f_equal (@length Z)) in E.
    unfold dr in E. rewrite date_range_length in E. simpl in E. lia. }
  destruct (resample_and_fill_returns o' another_method Hne' Hdr Hrec')
    as (lo' & hi' & f' & _ & _ & Hinlo' & Hinhi' & Hb' & Hf' & Hout').
  cbn [o' Date fields] in *. fold dr in Hout', Hinlo', Hinhi', Hb'.
  assert (Elo : lo' = lo).
  { apply In_date_range in Hinlo'.
    assert (H : (lo' <= lo <= hi')%Z) by (apply Hb', In_date_range; lia). lia. }
  assert (Ehi : hi' = hi).
  { apply In_date_range in Hinhi'.
    assert (H : (lo' <= hi <= hi')%Z) by (apply Hb', In_date_range; lia). lia. }
  subst lo' hi'. fold dr in Hout'. rewrite Hout'. unfold o'. do 2 f_equal.
  set (cols := map (fun col => ffill (bfill col))
                   (map f (map (fun col => reindex_col (Date df) col dr)
                               (fields df)))).
  rewrite !map_map. transitivity (map (fun c : list float => c) cols);
    [|apply map_id].
  apply map_ext_in. intros c Hc.
  unfold cols in Hc. rewrite !map_map in Hc. apply in_map_iff in Hc.
  destruct Hc as (col & <- & _).
  set (rc := reindex_col (Date df) col dr).
  assert (Hlen : length (ffill (bfill (f rc))) = length dr).
  { destruct (post_pass_keeps (f rc)) as [L1 _].
    destruct (fill_with_keeps _ _ Hf rc) as [L2 _].
    rewrite L1, L2. unfold rc, reindex_col. apply length_map. }
  rewrite (reindex_self dr _ Hdr Hlen).
  destruct (fill_settled another_method f' _ Hf' (filled_settled _ f rc Hf))
    as [E1 E2].
  now rewrite E1, E2.
Qed.

Lemma resample_and_fill_fixed_point_witness :
  resample_and_fill
    (mkDF [1; 2; 3; 4; 5]%Z
          [[Some (Qc_of_Z 10); Some (Qc_of_Z 10); Some (Qc_of_Z 10);
            Some (Qc_of_Z 10); Some (Qc_of_Z 50)]]) "linear"
  = Ok (mkDF [1; 2; 3; 4; 5]%Z
          [[Some (Qc_of_Z 10); Some (Qc_of_Z 10); Some (Qc_of_Z 10);
            Some (Qc_of_Z 10); Some (Qc_of_Z 50)]]).
Proof.
  apply (resample_and_fill_fixed_point gapped_df _ "ffill" "linear").
  - reflexivity.
  - right. right. now left.
Defined.

(** *** The two steps together *)

(** X12: on a rectangular frame [fill_missing_dates_with_interpolation]
    returns exactly when the frame has a row and the method is one of the
    four; repeated dates never make it fail; otherwise it raises ValueError.
    What it returns is dated by every day from the earliest to the latest
    input date. *)
Theorem fill_missing_dates_outcome (df : DataFrame) (fill_method : string) :
  rectangular df ->
  ((exists out, fill_missing_dates_with_interpolation df fill_method = Ok out)
   <-> Date df <> [] /\ recognized fill_method) /\
  ((forall out, fill_missing_dates_with_interpolation df fill_method <> Ok out)
   -> fill_missing_dates_with_interpolation df fill_method = Raise ValueError) /\
  (forall out,
      fill_missing_dates_with_interpolation df fill_method = Ok out ->
      exists lo hi, index_min (Date df) = Some lo /\
                    index_max (Date df) = Some hi /\
                    Date out = date_range lo hi).
Proof.
  intros Hrect.
  assert (Hbad : Date df = [] \/ ~ recognized fill_method ->
                 fill_missing_dates_with_interpolation df fill_method
                 = Raise ValueError).
  { intros H. unfold fill_missing_dates_with_interpolation.
    apply resample_and_fill_raises. destruct H as [H|H]; [left | now right; right].
    unfold handle_duplicates. now rewrite H. }
  assert (Hdec : (Date df <> [] /\ recognized fill_method) \/
                 (Date df = [] \/ ~ recognized fill_method)).
  { destruct (Date df); [right; now left|].
    destruct (recognized_dec fill_method);
      [left; split; [discriminate | assumption] | right; now right]. }
  destruct Hdec as [[Hne Hrec]|H].
  - destruct (fill_missing_dates_returns df fill_method Hrect Hne Hrec)
      as (lo & hi & out & Hlo & Hhi & Hout & Hd).
    split; [|split].
    + split; [intros _; now split | intros _; now exists out].
    + intros Hno. exfalso. exact (Hno _ Hout).
    + intros out' Hout'. rewrite Hout in Hout'. injection Hout' as <-.
      now exists lo, hi.
  - pose proof (Hbad H) as Hr. split; [|split].
    + split; [intros [out Hout]; congruence|].
      intros [Hne Hrec]. destruct H; contradiction.
    + intros _. exact Hr.
    + intros out Hout. congruence.
Qed.

Lemma fill_missing_dates_outcome_witness :
  ((exists out, fill_missing_dates_with_interpolation agreeing_df "linear" = Ok out)
   <-> Date agreeing_df <> [] /\ recognized "linear") /\
  ((forall out,
       fill_missing_dates_with_interpolation agreeing_df "linear" <> Ok out)
   -> fill_missing_dates_with_interpolation agreeing_df "linear"
      = Raise ValueError) /\
  (forall out,
      fill_missing_dates_with_interpolation agreeing_df "linear" = Ok out ->
      exists lo hi, index_min (Date agreeing_df) = Some lo /\
                    index_max (Date agreeing_df) = Some hi /\
                    Date out = date_range lo hi).
Proof.
  apply (fill_missing_dates_outcome agreeing_df "linear").
  repeat constructor.
Defined.

End FillingMore.

(** * Further properties of plotcomp.py *)

(** ** get_starting_date *)

Section StartingDate.
Import Plotcomp.

Lemma adjust_starting_date_spec (idx : list Z) (a b : Z) :
  adjust_starting_date idx a = Ok b <-> first_label_from idx a b.
Proof.
  unfold adjust_starting_date, first_label_from.
  destruct (memZ a idx) eqn:Hmem.
  - apply memZ_In in Hmem. split.
    + intros [= <-]. split; [assumption|]. split; [lia | auto].
    + intros (Hin & Hle & Hmin). specialize (Hmin a Hmem). f_equal. lia.
  - apply memZ_false in Hmem.
    assert (Hfil : forall x, In x (filter (fun d => (a <? d)%Z) idx)
                             <-> In x idx /\ (a < x)%Z).
    { intros x. rewrite filter_In, Z.ltb_lt. reflexivity. }
    destruct (filter (fun d => (a <? d)%Z) idx) as [|x tl] eqn:E.
    + split; [discriminate|]. intros (Hin & Hle & _).
      assert (a <> b) by (intros ->; contradiction).
      exfalso. apply (proj2 (Hfil b)). split; [assumption | lia].
    + destruct (fold_min_spec tl x) as [Hm1 Hm2].
      apply Hfil in Hm1. destruct Hm1 as [Hm1 Hlt]. split.
      * intros [= <-]. split; [assumption|]. split; [lia|].
        intros y Hy Hle. apply Hm2, Hfil. split; [assumption|].
        assert (a <> y) by (intros ->; contradiction). lia.
      * intros (Hin & Hle & Hmin). f_equal.
        assert (a <> b) by (intros ->; contradiction).
        assert (fold_left Z.min tl x <= b)%Z
          by (apply Hm2, Hfil; split; [assumption | lia]).
        assert (b <= fold_left Z.min tl x)%Z by (apply Hmin; [assumption | lia]).
        lia.
Qed.

Lemma adjust_starting_date_cases (idx : list Z) (a : Z) :
  (exists b, adjust_starting_date idx a = Ok b) \/
  (adjust_starting_date idx a = Raise ValueError /\
   forall x, In x idx -> (x < a)%Z).
Proof.
  unfold adjust_starting_date. destruct (memZ a idx) eqn:Hmem; [left; eauto|].
  apply memZ_false in Hmem.
  destruct (filter (fun d => (a <? d)%Z) idx) as [|x tl] eqn:E; [|left; eauto].
  right. split; [reflexivity|]. intros x Hx.
  assert (a <> x) by (intros ->; contradiction).
  destruct (Z.ltb_spec a x) as [Hlt|Hge]; [|lia].
  exfalso. assert (Hin : In x (filter (fun d => (a <? d)%Z) idx)).
  { apply filter_In. split; [assumption | now apply Z.ltb_lt]. }
  rewrite E in Hin. destruct Hin.
Qed.

(** X13: the date [get_starting_date] returns is found in two rounds: the
    first gold label not before the date asked for, then the first label of
    the index frame not before that one. *)
Theorem get_starting_date_returns (gold_df snp500_df : Frame)
        (starting_date d : Z) :
  get_starting_date gold_df snp500_df starting_date = Ok d <->
  exists d1, first_label_from (index gold_df) starting_date d1 /\
             first_label_from (index snp500_df) d1 d.
Proof.
  unfold get_starting_date. split.
  - destruct (adjust_starting_date (index gold_df) starting_date) as [d1|e] eqn:E;
      cbn [bind]; [|discriminate].
    intros H. exists d1. split; now apply adjust_starting_date_spec.
  - intros (d1 & H1 & H2). apply adjust_starting_date_spec in H1, H2.
    now rewrite H1.
Qed.

(** X14: [get_starting_date] raises only ValueError, and it raises it exactly
    when the gold frame has no label from the date asked for on, or the index
    frame none from the gold label found on. *)
Theorem get_starting_date_raises (gold_df snp500_df : Frame) (starting_date : Z) :
  (get_starting_date gold_df snp500_df starting_date = Raise ValueError <->
   (forall x, In x (index gold_df) -> (x < starting_date)%Z) \/
   exists d1, first_label_from (index gold_df) starting_date d1 /\
              forall x, In x (index snp500_df) -> (x < d1)%Z) /\
  (forall e, get_starting_date gold_df snp500_df starting_date = Raise e ->
             e = ValueError).
Proof.
  unfold get_starting_date.
  destruct (adjust_starting_date_cases (index gold_df) starting_date)
    as [[d1 H1]|[H1 Hall]]; rewrite H1; cbn [bind].
  - pose proof (proj1 (adjust_starting_date_spec _ _ _) H1) as F1.
    destruct (adjust_starting_date_cases (index snp500_df) d1)
      as [[d H2]|[H2 Hall2]]; rewrite H2.
    + pose proof (proj1 (adjust_starting_date_spec _ _ _) H2) as F2.
      split; [|discriminate]. split; [discriminate|].
      intros [Hall|(d1' & F1' & Hall)]; exfalso.
      * destruct F1 as (Hin & Hle & _). specialize (Hall _ Hin). lia.
      * assert (d1' = d1).
        { destruct F1 as (Hin & Hle & Hmin), F1' as (Hin' & Hle' & Hmin').
          specialize (Hmin _ Hin' Hle'). specialize (Hmin' _ Hin Hle). lia. }
        subst d1'. destruct F2 as (Hin & Hle & _). specialize (Hall _ Hin). lia.
    + split; [|now intros e [= <-]]. split; [|reflexivity].
      intros _. right. now exists d1.
  - split; [|now intros e [= <-]]. split; [|reflexivity]. intros _. now left.
Qed.

(** X15: when every date of the gold frame is a date of the index frame and
    the gold frame has a label from the date asked for on, the date returned
    is the first such gold label, and it is a label of both frames. *)
Theorem get_starting_date_common (gold_df snp500_df : Frame)
        (starting_date x : Z) :
  incl (index gold_df) (index snp500_df) ->
  In x (index gold_df) -> (starting_date <= x)%Z ->
  exists d,
    get_starting_date gold_df snp500_df starting_date = Ok d /\
    first_label_from (index gold_df) starting_date d /\
    In d (index snp500_df).
Proof.
  intros Hincl Hx Hle.
  destruct (adjust_starting_date_cases (index gold_df) starting_date)
    as [[d H1]|[_ Hall]]; [|specialize (Hall _ Hx); lia].
  pose proof (proj1 (adjust_starting_date_spec _ _ _) H1) as F1.
  assert (Hd : In d (index snp500_df)) by (apply Hincl, F1).
  exists d. split; [|split; assumption].
  unfold get_starting_date. rewrite H1. cbn [bind].
  unfold adjust_starting_date. now rewrite (proj2 (memZ_In _ _) Hd).
Qed.

Lemma get_starting_date_common_witness :
  exists d,
    get_starting_date gold_frame snp500_frame 3 = Ok d /\
    first_label_from (index gold_frame) 3 d /\
    In d (index snp500_frame).
Proof.
  apply (get_starting_date_common gold_frame snp500_frame 3 5).
  - intros y Hy. simpl in *. intuition.
  - simpl. tauto.
  - lia.
Defined.

End StartingDate.

(** ** filter_data *)

Section FilterData.
Import Plotcomp.

Lemma filter_combine_fst {A B : Type} (keep : A -> bool) (a : list A)
      (b : list B) :
  length a = length b ->
  map fst (filter (fun p => keep (fst p)) (combine a b)) = filter keep a.
Proof.
  revert b. induction a as [|x a IH]; intros [|y b] H; try discriminate;
    [reflexivity|]. simpl in *. injection H as H.
  destruct (keep x); simpl; now rewrite IH.
Qed.

Lemma combine_fst_snd {A B : Type} (l : list (A * B)) :
  combine (map fst l) (map snd l) = l.
Proof. induction l as [|[x y] l IH]; simpl; congruence. Qed.

Lemma slice_rows_index (keep : Z -> bool) (df : Frame) :
  one_row_per_label df -> index (slice_rows keep df) = filter keep (index df).
Proof. intros H. unfold slice_rows. cbn [index]. now apply filter_combine_fst. Qed.

Lemma slice_rows_one_row (keep : Z -> bool) (df : Frame) :
  one_row_per_label (slice_rows keep df).
Proof.
  unfold one_row_per_label, slice_rows. cbn [index value_rows].
  now rewrite !length_map.
Qed.

Lemma slice_rows_labelled (keep : Z -> bool) (df : Frame) :
  labelled_rows (slice_rows keep df)
  = filter (fun p => keep (fst p)) (labelled_rows df).
Proof. unfold labelled_rows, slice_rows. cbn [index value_rows]. apply combine_fst_snd. Qed.

Lemma filter_Subsequence {A : Type} (f : A -> bool) (l : list A) :
  Subsequence (filter f l) l.
Proof.
  induction l as [|x l IH]; simpl; [constructor|].
  destruct (f x); now constructor.
Qed.

Lemma filter_sorted (f : Z -> bool) (l : list Z) :
  StronglySorted Z.lt l -> StronglySorted Z.lt (filter f l).
Proof.
  induction 1 as [|x l Hs IH Hx]; simpl; [constructor|].
  destruct (f x); [|assumption]. constructor; [assumption|].
  rewrite Forall_forall in *. intros y Hy. apply Hx.
  apply filter_In in Hy. tauto.
Qed.

Lemma sorted_same_members (l1 l2 : list Z) :
  StronglySorted Z.lt l1 -> StronglySorted Z.lt l2 ->
  (forall d, In d l1 <-> In d l2) -> l1 = l2.
Proof.
  intros H1. revert l2. induction H1 as [|x l1 Hs1 IH Hx]; intros l2 H2 Hmem.
  - destruct l2 as [|y l2]; [reflexivity|].
    exfalso. apply (proj2 (Hmem y)). now left.
  - destruct H2 as [|y l2 Hs2 Hy].
    + exfalso. apply (proj1 (Hmem x)). now left.
    + rewrite Forall_forall in Hx, Hy.
      assert (x = y).
      { destruct (proj1 (Hmem x) (or_introl eq_refl)) as [E|Hin]; [now subst|].
        destruct (proj2 (Hmem y) (or_introl eq_refl)) as [E|Hin']; [assumption|].
        specialize (Hx _ Hin'). specialize (Hy _ Hin). lia. }
      subst y. f_equal. apply IH; [assumption|].
      intros d. split; intros Hd.
      * destruct (proj1 (Hmem d) (or_intror Hd)) as [E|Hin]; [|assumption].
        subst d. specialize (Hx _ Hd). lia.
      * destruct (proj2 (Hmem d) (or_intror Hd)) as [E|Hin]; [|assumption].
        subst d. specialize (Hy _ Hd). lia.
Qed.

(** What [filter_data] returns when both frames have a row from the starting
    date on. *)
Lemma filter_data_members (gold_df snp500_df : Frame) (starting_date x y : Z) :
  one_row_per_label gold_df -> one_row_per_label snp500_df ->
  In x (index gold_df) -> (starting_date <= x)%Z ->
  In y (index snp500_df) -> (starting_date <= y)%Z ->
  exists g s kg ks,
    filter_data gold_df snp500_df starting_date = Some (g, s) /\
    index g = filter kg (index gold_df) /\
    index s = filter ks (index snp500_df) /\
    (forall d, In d (index g) <->
               In d (index gold_df) /\ (starting_date <= d)%Z /\
               covered_from (index snp500_df) starting_date d) /\
    (forall d, In d (index s) <->
               In d (index snp500_df) /\ (starting_date <= d)%Z /\
               covered_from (index gold_df) starting_date d).
Proof.
  intros Hg Hs Hx Hxle Hy Hyle. unfold filter_data. cbv zeta.
  set (from := fun d => (starting_date <=? d)%Z).
  rewrite !(slice_rows_index from) by assumption.
  assert (Hfrom : forall l d, In d (filter from l)
                              <-> In d l /\ (starting_date <= d)%Z).
  { intros l d. unfold from. now rewrite filter_In, Z.leb_le. }
  assert (Hgne : filter from (index gold_df) <> []).
  { intros E. apply (in_nil (a := x)). rewrite <- E. now apply Hfrom. }
  assert (Hsne : filter from (index snp500_df) <> []).
  { intros E. apply (in_nil (a := y)). rewrite <- E. now apply Hfrom. }
  destruct (index_bounds _ Hgne) as (gmin & gmax & -> & -> & Hg1 & Hg2 & Hgb).
  destruct (index_bounds _ Hsne) as (smin & smax & -> & -> & Hs1 & Hs2 & Hsb).
  apply Hfrom in Hg1, Hg2, Hs1, Hs2.
  set (in_range := fun d => (Z.max gmin smin <=? d)%Z && (d <=? Z.min gmax smax)%Z).
  assert (Hrange : forall d, in_range d = true
                             <-> (Z.max gmin smin <= d <= Z.min gmax smax)%Z).
  { intros d. unfold in_range. rewrite andb_true_iff, !Z.leb_le. reflexivity. }
  do 2 eexists. exists (fun d => from d && in_range d),
                       (fun d => from d && in_range d).
  split; [reflexivity|].
  rewrite !(slice_rows_index in_range) by apply slice_rows_one_row.
  rewrite !(slice_rows_index from) by assumption. rewrite !filter_twice.
  split; [reflexivity|]. split; [reflexivity|].
  split; intros d; rewrite filter_In, andb_true_iff, Hrange; unfold from;
    rewrite Z.leb_le; unfold covered_from.
  - split.
    + intros (Hin & Hle & Hr). split; [assumption|]. split; [assumption|].
      split; [exists smin | exists smax]; (split; [tauto | lia]).
    + intros (Hin & Hle & (a & Ha & Hale) & (b & Hb & Hble)).
      split; [assumption|]. split; [assumption|].
      assert (In d (filter from (index gold_df))) by now apply Hfrom.
      assert (In a (filter from (index snp500_df))) by (apply Hfrom; split; [assumption | lia]).
      assert (In b (filter from (index snp500_df))) by (apply Hfrom; split; [assumption | lia]).
      pose proof (Hgb d ltac:(assumption)). pose proof (Hsb a ltac:(assumption)).
      pose proof (Hsb b ltac:(assumption)). lia.
  - split.
    + intros (Hin & Hle & Hr). split; [assumption|]. split; [assumption|].
      split; [exists gmin | exists gmax]; (split; [tauto | lia]).
    + intros (Hin & Hle & (a & Ha & Hale) & (b & Hb & Hble)).
      split; [assumption|]. split; [assumption|].
      assert (In d (filter from (index snp500_df))) by now apply Hfrom.
      assert (In a (filter from (index gold_df))) by (apply Hfrom; split; [assumption | lia]).
      assert (In b (filter from (index gold_df))) by (apply Hfrom; split; [assumption | lia]).
      pose proof (Hsb d ltac:(assumption)). pose proof (Hgb a ltac:(assumption)).
      pose proof (Hgb b ltac:(assumption)). lia.
Qed.

(** X16: of two frames with increasing indexes, [filter_data] keeps the rows
    that are not before the starting date and whose date lies between two
    dates of the other frame that are not before it either; both indexes stay
    increasing. *)
Theorem filter_data_keeps_common_range (gold_df snp500_df : Frame)
        (starting_date x y : Z) :
  StronglySorted Z.lt (index gold_df) -> StronglySorted Z.lt (index snp500_df) ->
  one_row_per_label gold_df -> one_row_per_label snp500_df ->
  In x (index gold_df) -> (starting_date <= x)%Z ->
  In y (index snp500_df) -> (starting_date <= y)%Z ->
  exists g s,
    filter_data gold_df snp500_df starting_date = Some (g, s) /\
    (forall d, In d (index g) <->
               In d (index gold_df) /\ (starting_date <= d)%Z /\
               covered_from (index snp500_df) starting_date d) /\
    (forall d, In d (index s) <->
               In d (index snp500_df) /\ (starting_date <= d)%Z /\
               covered_from (index gold_df) starting_date d) /\
    StronglySorted Z.lt (index g) /\ StronglySorted Z.lt (index s).
Proof.
  intros Sg Ss Hg Hs Hx Hxle Hy Hyle.
  destruct (filter_data_members gold_df snp500_df starting_date x y
              Hg Hs Hx Hxle Hy Hyle)
    as (g & s & kg & ks & Hout & Eg & Es & Mg & Ms).
  exists g, s. split; [exact Hout|]. split; [exact Mg|]. split; [exact Ms|].
  rewrite Eg, Es. split; now apply filter_sorted.
Qed.

Lemma filter_data_keeps_common_range_witness :
  exists g s,
    filter_data gold_frame snp500_frame 3 = Some (g, s) /\
    (forall d, In d (index g) <->
               In d (index gold_frame) /\ (3 <= d)%Z /\
               covered_from (index snp500_frame) 3 d) /\
    (forall d, In d (index s) <->
               In d (index snp500_frame) /\ (3 <= d)%Z /\
               covered_from (index gold_frame) 3 d) /\
    StronglySorted Z.lt (index g) /\ StronglySorted Z.lt (index s).
Proof.
  apply (filter_data_keeps_common_range gold_frame snp500_frame 3 5 3).
  - repeat constructor.
  - repeat constructor.
  - reflexivity.
  - reflexivity.
  - simpl. tauto.
  - lia.
  - simpl. tauto.
  - lia.
Defined.

(** X17: [filter_data] only leaves rows out: of frames with increasing
    indexes, the rows of each frame it returns are rows of the frame it was
    given, with their labels and in their order, under the same columns. *)
Theorem filter_data_keeps_rows (gold_df snp500_df g s : Frame)
        (starting_date : Z) :
  StronglySorted Z.lt (index gold_df) -> StronglySorted Z.lt (index snp500_df) ->
  filter_data gold_df snp500_df starting_date = Some (g, s) ->
  Subsequence (labelled_rows g) (labelled_rows gold_df) /\
  Subsequence (labelled_rows s) (labelled_rows snp500_df) /\
  value_columns g = value_columns gold_df /\
  value_columns s = value_columns snp500_df /\
  one_row_per_label g /\ one_row_per_label s.
Proof.
  intros _ _. unfold filter_data. cbv zeta.
  repeat match goal with
         | |- match ?x with Some _ => _ | None => _ end = _ -> _ => destruct x
         end; try discriminate.
  intros [= <- <-]. rewrite !slice_rows_labelled, !filter_twice.
  split; [apply filter_Subsequence|]. split; [apply filter_Subsequence|].
  split; [reflexivity|]. split; [reflexivity|].
  split; apply slice_rows_one_row.
Qed.

Lemma filter_data_keeps_rows_witness :
  Subsequence
    (labelled_rows (mkFrame [5; 9]%Z ["Price"%string]
                      [[Num (Some (Qc_of_Z 110))]; [Num (Some (Qc_of_Z 121))]]))
    (labelled_rows gold_frame).
Proof.
  apply (filter_data_keeps_rows gold_frame snp500_frame
           (mkFrame [5; 9]%Z ["Price"%string]
              [[Num (Some (Qc_of_Z 110))]; [Num (Some (Qc_of_Z 121))]])
           (mkFrame [5; 7; 9]%Z ["SP500"%string]
              [[Num (Some (Qc_of_Z 11))]; [Num (Some (Qc_of_Z 12))];
               [Num (Some (Qc_of_Z 13))]]) 3).
  - repeat constructor.
  - repeat constructor.
  - reflexivity.
Defined.

(** X18: frames that have a row for every day of their span, as
    [fill_missing_dates_with_interpolation] leaves them, come out of
    [filter_data] with one and the same index: every day from the latest of
    the two first days and the starting date to the earlier of the two last
    days. *)
Theorem filter_data_daily_frames_agree (gold_df snp500_df : Frame)
        (starting_date a b c e : Z) :
  index gold_df = Filling.date_range a b ->
  index snp500_df = Filling.date_range c e ->
  one_row_per_label gold_df -> one_row_per_label snp500_df ->
  (Z.max (Z.max a c) starting_date <= Z.min b e)%Z ->
  exists g s,
    filter_data gold_df snp500_df starting_date = Some (g, s) /\
    index g = Filling.date_range (Z.max (Z.max a c) starting_date) (Z.min b e) /\
    index s = index g.
Proof.
  intros Eg Es Hg Hs Hle.
  set (lo := Z.max (Z.max a c) starting_date) in *. set (hi := Z.min b e) in *.
  assert (Hlo_g : In lo (index gold_df))
    by (rewrite Eg; apply In_date_range; lia).
  assert (Hlo_s : In lo (index snp500_df))
    by (rewrite Es; apply In_date_range; lia).
  assert (Hhi_g : In hi (index gold_df))
    by (rewrite Eg; apply In_date_range; lia).
  assert (Hhi_s : In hi (index snp500_df))
    by (rewrite Es; apply In_date_range; lia).
  destruct (filter_data_members gold_df snp500_df starting_date lo lo
              Hg Hs Hlo_g ltac:(lia) Hlo_s ltac:(lia))
    as (g & s & kg & ks & Hout & Fg & Fs & Mg & Ms).
  assert (Sg : StronglySorted Z.lt (index g))
    by (rewrite Fg, Eg; apply filter_sorted, date_range_sorted).
  assert (Ss : StronglySorted Z.lt (index s))
    by (rewrite Fs, Es; apply filter_sorted, date_range_sorted).
  assert (Hmem_g : forall d, In d (index g) <-> In d (Filling.date_range lo hi)).
  { intros d. rewrite Mg, In_date_range, Eg, In_date_range. unfold covered_from.
    split.
    - intros (Hin & Hd & (x & Hx & Hxd) & (y & Hy & Hyd)).
      rewrite Es in Hx, Hy. apply In_date_range in Hx, Hy. lia.
    - intros Hd. split; [lia|]. split; [lia|].
      split; [exists lo | exists hi]; (split; [assumption | lia]). }
  assert (Hmem_s : forall d, In d (index s) <-> In d (Filling.date_range lo hi)).
  { intros d. rewrite Ms, In_date_range, Es, In_date_range. unfold covered_from.
    split.
    - intros (Hin & Hd & (x & Hx & Hxd) & (y & Hy & Hyd)).
      rewrite Eg in Hx, Hy. apply In_date_range in Hx, Hy. lia.
    - intros Hd. split; [lia|]. split; [lia|].
      split; [exists lo | exists hi]; (split; [assumption | lia]). }
  exists g, s. split; [exact Hout|].
  assert (E1 : index g = Filling.date_range lo hi)
    by (apply sorted_same_members; [assumption | apply date_range_sorted | assumption]).
  split; [exact E1|]. rewrite E1.
  apply sorted_same_members; [assumption | apply date_range_sorted | assumption].
Qed.

Lemma filter_data_daily_frames_agree_witness :
  exists g s,
    filter_data daily_gold_frame daily_snp500_frame 2 = Some (g, s) /\
    index g = Filling.date_range (Z.max (Z.max 1 3) 2) (Z.min 6 8) /\
    index s = index g.
Proof.
  apply (filter_data_daily_frames_agree daily_gold_frame daily_snp500_frame
           2 1 6 3 8).
  - reflexivity.
  - reflexivity.
  - reflexivity.
  - reflexivity.
  - simpl. lia.
Defined.

End FilterData.

(** ** calculate_dca *)

Lemma Qcinv_pos (p : Qc) : (0 < p)%Qc -> (0 < / p)%Qc.
Proof.
  unfold Qclt. intros H. change (this (/ p)%Qc) with (Qred (/ this p)).
  rewrite Qred_correct. now apply Qinv_lt_0_compat.
Qed.

Lemma Qcmult_nonneg (x y : Qc) : (0 <= x)%Qc -> (0 <= y)%Qc -> (0 <= x * y)%Qc.
Proof.
  intros Hx Hy. replace 0%Qc with (0 * y)%Qc by ring.
  now apply Qcmult_le_compat_r.
Qed.

Lemma Qcdiv_nonneg (x p : Qc) : (0 <= x)%Qc -> (0 < p)%Qc -> (0 <= x / p)%Qc.
Proof.
  intros Hx Hp. unfold Qcdiv. apply Qcmult_nonneg; [assumption|].
  apply Qclt_le_weak, Qcinv_pos, Hp.
Qed.

Lemma Qc_ltb_lt (x y : Qc) : Qc_ltb x y = true <-> (x < y)%Qc.
Proof.
  unfold Qc_ltb. rewrite Qclt_alt. destruct (x ?= y)%Qc; split; congruence.
Qed.

Lemma Qc_hundred_pos : (0 < Qc_of_Z 100)%Qc.
Proof. reflexivity. Qed.

Lemma Qc_hundred_neq0 : Qc_of_Z 100 <> 0%Qc.
Proof. intros E. apply (f_equal this) in E. discriminate. Qed.

Lemma buy_le (shares invest : Qc) (price : float) :
  (0 <= invest)%Qc -> (shares <= Plotcomp.buy shares invest price)%Qc.
Proof.
  intros Hi. unfold Plotcomp.buy. destruct price as [p|]; [|apply Qcle_refl].
  destruct (Qc_ltb 0 p) eqn:E; [|apply Qcle_refl].
  apply Qc_ltb_lt in E. rewrite <- (Qcplus_0_r shares) at 1.
  apply Qcplus_le_compat; [apply Qcle_refl | now apply Qcdiv_nonneg].
Qed.

Lemma buy_positive (shares invest p : Qc) :
  (0 < p)%Qc -> Plotcomp.buy shares invest (Some p) = (shares + invest / p)%Qc.
Proof. intros H. unfold Plotcomp.buy. now rewrite (proj2 (Qc_ltb_lt 0 p) H). Qed.

Section DCAMore.
Import Plotcomp.

Variable resample_last : string -> Series -> Series.

Lemma trace_length (gold snp : Series) (m gp sp : Qc) (dates : list Z)
      (st0 : State) :
  length (dca_trace gold snp m gp sp st0 dates) = length dates.
Proof.
  revert st0. induction dates as [|d tl IH]; intros st0; simpl; [reflexivity|].
  now rewrite IH.
Qed.

(** Two neighbours of the trace are one iteration apart. *)
Lemma trace_neighbours (gold snp : Series) (m gp sp : Qc) (dates : list Z)
      (st0 st st' : State) (k : nat) :
  nth_error (st0 :: dca_trace gold snp m gp sp st0 dates) k = Some st ->
  nth_error (dca_trace gold snp m gp sp st0 dates) k = Some st' ->
  exists d, nth_error dates k = Some d /\ st' = dca_body gold snp m gp sp st d.
Proof.
  intros Hst Hst'.
  assert (Hk : (k < length dates)%nat).
  { rewrite <- (trace_length gold snp m gp sp dates st0).
    apply nth_error_Some. congruence. }
  destruct (nth_error dates k) as [d|] eqn:Ed;
    [|apply nth_error_None in Ed; lia].
  exists d. split; [reflexivity|].
  rewrite (trace_step gold snp m gp sp dates st0 st k d Ed Hst) in Hst'.
  congruence.
Qed.

Lemma treated_date (gold_monthly snp500_monthly : Series) (start : Z) (k : nat)
      (d : Z) :
  nth_error (labels (loc_from start gold_monthly)) k = Some d ->
  In d (labels snp500_monthly) ->
  (start <= d)%Z /\
  simulated (loc_from start gold_monthly) (loc_from start snp500_monthly) d = true.
Proof.
  intros Hd Hsnp.
  assert (Hge : (start <= d)%Z).
  { apply nth_error_In in Hd. rewrite labels_loc_from in Hd.
    apply filter_In in Hd. destruct Hd as [_ Hd]. now apply Z.leb_le. }
  split; [exact Hge|]. unfold simulated. apply andb_true_iff. split.
  - apply memZ_In. eapply nth_error_In; eassumption.
  - rewrite labels_loc_from, memZ_filter. apply andb_true_iff.
    split; [now apply memZ_In | now apply Z.leb_le].
Qed.

Lemma aligned_eligible (gold_monthly snp500_monthly : Series) (start : Z) :
  (forall d, In d (labels (loc_from start gold_monthly)) ->
             In d (labels snp500_monthly)) ->
  eligible_dates gold_monthly snp500_monthly start
  = labels (loc_from start gold_monthly).
Proof.
  intros Hall. rewrite labels_loc_from. unfold eligible_dates.
  apply filter_ext_in. intros d Hd.
  destruct (start <=? d)%Z eqn:Hs; [|reflexivity]. simpl.
  apply memZ_In, Hall. rewrite labels_loc_from. apply filter_In. now split.
Qed.

(** X19: when every gold date from the start date on is also a date of the
    index series, [calculate_dca] without rebalancing returns both series
    under exactly these gold dates, one point for each. *)
Theorem calculate_dca_aligned_labels (gold_monthly snp500_monthly : Series)
        (m gp sp : Qc) (start : Z) :
  (forall d, In d (labels (loc_from start gold_monthly)) ->
             In d (labels snp500_monthly)) ->
  loc_from start gold_monthly <> [] ->
  exists pv ci,
    calculate_dca resample_last gold_monthly snp500_monthly m gp sp start None
    = Ok (pv, ci) /\
    labels pv = labels (loc_from start gold_monthly) /\
    labels ci = labels (loc_from start gold_monthly).
Proof.
  intros Hall Hne.
  pose proof (aligned_eligible gold_monthly snp500_monthly start Hall) as E.
  assert (Hel : eligible_dates gold_monthly snp500_monthly start <> []).
  { rewrite E. unfold labels. destruct (loc_from start gold_monthly);
      [congruence | discriminate]. }
  destruct (calculate_dca_index_is_prefix resample_last gold_monthly
              snp500_monthly m gp sp start Hel)
    as (pv & ci & Hout & _ & Hlab & Hpre).
  exists pv, ci. split; [exact Hout|].
  rewrite E, firstn_all in Hpre. split; congruence.
Qed.

Lemma body_shares_le (gold snp : Series) (m gp sp : Qc) (st : State) (d : Z) :
  (0 <= m)%Qc -> (0 <= gp)%Qc -> (0 <= sp)%Qc ->
  (gold_shares st <= gold_shares (dca_body gold snp m gp sp st d))%Qc /\
  (snp500_shares st <= snp500_shares (dca_body gold snp m gp sp st d))%Qc.
Proof.
  intros Hm Hgp Hsp. destruct (simulated gold snp d) eqn:E.
  - destruct (body_simulated gold snp m gp sp st d E) as (-> & -> & _).
    split; apply buy_le; apply Qcmult_nonneg; try assumption;
      apply Qcdiv_nonneg; try assumption; apply Qc_hundred_pos.
  - rewrite (body_skipped gold snp m gp sp st d E). split; apply Qcle_refl.
Qed.

Lemma trace_nonneg (gold snp : Series) (m gp sp : Qc) (dates : list Z)
      (st0 : State) :
  (0 <= m)%Qc -> (0 <= gp)%Qc -> (0 <= sp)%Qc ->
  (0 <= gold_shares st0)%Qc /\ (0 <= snp500_shares st0)%Qc ->
  Forall (fun st => (0 <= gold_shares st)%Qc /\ (0 <= snp500_shares st)%Qc)
         (dca_trace gold snp m gp sp st0 dates).
Proof.
  intros Hm Hgp Hsp. revert st0.
  induction dates as [|d tl IH]; intros st0 [H1 H2]; cbn [dca_trace];
    [constructor|].
  destruct (body_shares_le gold snp m gp sp st0 d Hm Hgp Hsp) as [L1 L2].
  assert (H' : (0 <= gold_shares (dca_body gold snp m gp sp st0 d))%Qc /\
               (0 <= snp500_shares (dca_body gold snp m gp sp st0 d))%Qc).
  { split; [exact (Qcle_trans _ _ _ H1 L1) | exact (Qcle_trans _ _ _ H2 L2)]. }
  constructor; [exact H' | apply IH, H'].
Qed.

(** X20: with an amount and percentages that are not negative, the share
    counts never go down from one step of the loop to the next and are never
    negative: the simulation sells nothing, with or without rebalancing. *)
Theorem shares_never_decrease (gold_monthly snp500_monthly : Series)
        (m gp sp : Qc) (start : Z) (rebalance_frequency : option string)
        (k : nat) (st st' : State) :
  (0 <= m)%Qc -> (0 <= gp)%Qc -> (0 <= sp)%Qc ->
  nth_error (initial_state ::
             fst (calculate_dca_run resample_last gold_monthly snp500_monthly
                                    m gp sp start rebalance_frequency)) k
  = Some st ->
  nth_error (fst (calculate_dca_run resample_last gold_monthly snp500_monthly
                                    m gp sp start rebalance_frequency)) k
  = Some st' ->
  (gold_shares st <= gold_shares st')%Qc /\
  (snp500_shares st <= snp500_shares st')%Qc /\
  (0 <= gold_shares st)%Qc /\ (0 <= snp500_shares st)%Qc.
Proof.
  intros Hm Hgp Hsp Hst Hst'. cbn [fst calculate_dca_run] in *.
  set (gold := loc_from start gold_monthly) in *.
  set (snp := loc_from start snp500_monthly) in *.
  destruct (trace_neighbours gold snp m gp sp _ _ _ _ _ Hst Hst') as (d & _ & ->).
  destruct (body_shares_le gold snp m gp sp st d Hm Hgp Hsp) as [L1 L2].
  split; [exact L1|]. split; [exact L2|].
  assert (H0 : (0 <= gold_shares initial_state)%Qc /\
               (0 <= snp500_shares initial_state)%Qc)
    by (split; apply Qcle_refl).
  pose proof (trace_nonneg gold snp m gp sp (labels gold) initial_state
                Hm Hgp Hsp H0) as Hall.
  pose proof (Forall_cons _ H0 Hall) as Hall'.
  rewrite Forall_forall in Hall'. apply Hall'.
  eapply nth_error_In. exact Hst.
Qed.

(** X21: at a date the loop treats, with both prices positive and the two
    percentages adding up to 100, the value recorded is the value of the
    shares held before at the prices of the date, plus the monthly amount. *)
Theorem purchase_adds_monthly_amount (gold_monthly snp500_monthly : Series)
        (m gp sp : Qc) (start : Z) (rebalance_frequency : option string)
        (k : nat) (d : Z) (pg ps : Qc) (st : State) :
  nth_error (labels (loc_from start gold_monthly)) k = Some d ->
  In d (labels snp500_monthly) ->
  loc gold_monthly d = Some pg -> loc snp500_monthly d = Some ps ->
  (0 < pg)%Qc -> (0 < ps)%Qc -> (gp + sp)%Qc = Qc_of_Z 100 ->
  nth_error (initial_state ::
             fst (calculate_dca_run resample_last gold_monthly snp500_monthly
                                    m gp sp start rebalance_frequency)) k
  = Some st ->
  exists st',
    nth_error (fst (calculate_dca_run resample_last gold_monthly snp500_monthly
                                      m gp sp start rebalance_frequency)) k
    = Some st' /\
    total_portfolio_values st' =
    total_portfolio_values st ++
      [Some (gold_shares st * pg + snp500_shares st * ps + m)%Qc].
Proof.
  intros Hd Hsnp Hpg Hps Hgpos Hspos Hsum Hst. cbn [fst calculate_dca_run] in *.
  destruct (treated_date gold_monthly snp500_monthly start k d Hd Hsnp)
    as [Hge Hsim].
  set (gold := loc_from start gold_monthly) in *.
  set (snp := loc_from start snp500_monthly) in *.
  eexists. split; [exact (trace_step gold snp m gp sp _ _ _ _ _ Hd Hst)|].
  destruct (body_simulated gold snp m gp sp st d Hsim)
    as (Hg & Hs & _ & _ & Hv).
  rewrite Hv, Hg, Hs. unfold gold, snp.
  rewrite !loc_loc_from by assumption. rewrite Hpg, Hps.
  rewrite !buy_positive by assumption. cbn [fmul fadd]. do 3 f_equal.
  assert (Hsp : sp = (Qc_of_Z 100 - gp)%Qc) by (rewrite <- Hsum; ring).
  assert (pg <> 0%Qc) by (intros ->; exact (Qclt_not_eq _ _ Hgpos eq_refl)).
  assert (ps <> 0%Qc) by (intros ->; exact (Qclt_not_eq _ _ Hspos eq_refl)).
  pose proof Qc_hundred_neq0. subst sp. field. auto.
Qed.

(** X22: at a date the loop treats where a price is NaN, nothing is bought
    of that asset and nothing is raised; the value recorded for the date is
    NaN, and the invested total grows as at any other date. *)
Theorem nan_price_gives_nan_value (gold_monthly snp500_monthly : Series)
        (m gp sp : Qc) (start : Z) (rebalance_frequency : option string)
        (k : nat) (d : Z) (st : State) :
  nth_error (labels (loc_from start gold_monthly)) k = Some d ->
  In d (labels snp500_monthly) ->
  loc gold_monthly d = None \/ loc snp500_monthly d = None ->
  nth_error (initial_state ::
             fst (calculate_dca_run resample_last gold_monthly snp500_monthly
                                    m gp sp start rebalance_frequency)) k
  = Some st ->
  exists st',
    nth_error (fst (calculate_dca_run resample_last gold_monthly snp500_monthly
                                      m gp sp start rebalance_frequency)) k
    = Some st' /\
    total_portfolio_values st' = total_portfolio_values st ++ [None] /\
    (loc gold_monthly d = None -> gold_shares st' = gold_shares st) /\
    (loc snp500_monthly d = None -> snp500_shares st' = snp500_shares st) /\
    total_invested st' = (total_invested st + m)%Qc.
Proof.
  intros Hd Hsnp Hnan Hst. cbn [fst calculate_dca_run] in *.
  destruct (treated_date gold_monthly snp500_monthly start k d Hd Hsnp)
    as [Hge Hsim].
  set (gold := loc_from start gold_monthly) in *.
  set (snp := loc_from start snp500_monthly) in *.
  eexists. split; [exact (trace_step gold snp m gp sp _ _ _ _ _ Hd Hst)|].
  destruct (body_simulated gold snp m gp sp st d Hsim)
    as (Hg & Hs & Ht & _ & Hv).
  rewrite Hv, Hg, Hs. unfold gold, snp.
  rewrite !loc_loc_from by assumption.
  split; [|split; [|split]].
  - f_equal. f_equal. destruct Hnan as [-> | ->].
    + reflexivity.
    + destruct (fmul _ (loc gold_monthly d)); reflexivity.
  - now intros ->.
  - now intros ->.
  - exact Ht.
Qed.

End DCAMore.

Lemma calculate_dca_aligned_labels_witness :
  exists pv ci,
    Plotcomp.calculate_dca sample_resample_last sample_gold sample_snp500
                           (Qc_of_Z 1000) (Qc_of_Z 50) (Qc_of_Z 50) 24241 None
    = Ok (pv, ci) /\
    Plotcomp.labels pv = Plotcomp.labels (Plotcomp.loc_from 24241 sample_gold) /\
    Plotcomp.labels ci = Plotcomp.labels (Plotcomp.loc_from 24241 sample_gold).
Proof.
  apply (calculate_dca_aligned_labels sample_resample_last sample_gold
           sample_snp500 (Qc_of_Z 1000) (Qc_of_Z 50) (Qc_of_Z 50) 24241).
  - intros d Hd. simpl in *. intuition.
  - discriminate.
Defined.

Lemma shares_never_decrease_witness :
  exists st st',
    nth_error (Plotcomp.initial_state ::
               fst (Plotcomp.calculate_dca_run sample_resample_last gold_with_zero
                      snp500_four (Qc_of_Z 1000) (Qc_of_Z 50) (Qc_of_Z 50)
                      24240 None)) 1 = Some st /\
    nth_error (fst (Plotcomp.calculate_dca_run sample_resample_last gold_with_zero
                      snp500_four (Qc_of_Z 1000) (Qc_of_Z 50) (Qc_of_Z 50)
                      24240 None)) 1 = Some st' /\
    (Plotcomp.gold_shares st <= Plotcomp.gold_shares st')%Qc /\
    (Plotcomp.snp500_shares st <= Plotcomp.snp500_shares st')%Qc.
Proof.
  set (trace := fst (Plotcomp.calculate_dca_run sample_resample_last gold_with_zero
                       snp500_four (Qc_of_Z 1000) (Qc_of_Z 50) (Qc_of_Z 50)
                       24240 None)).
  exists (nth 0 trace Plotcomp.initial_state),
         (nth 1 trace Plotcomp.initial_state).
  split; [reflexivity|]. split; [reflexivity|].
  destruct (shares_never_decrease sample_resample_last gold_with_zero
              snp500_four (Qc_of_Z 1000) (Qc_of_Z 50) (Qc_of_Z 50) 24240 None
              1 (nth 0 trace Plotcomp.initial_state)
              (nth 1 trace Plotcomp.initial_state))
    as (H1 & H2 & _).
  - discriminate.
  - discriminate.
  - discriminate.
  - reflexivity.
  - reflexivity.
  - split; assumption.
Defined.

Lemma purchase_adds_monthly_amount_witness :
  exists st st',
    nth_error (Plotcomp.initial_state ::
               fst (Plotcomp.calculate_dca_run sample_resample_last sample_gold
                      sample_snp500 (Qc_of_Z 1000) (Qc_of_Z 50) (Qc_of_Z 50)
                      24240 None)) 1 = Some st /\
    nth_error (fst (Plotcomp.calculate_dca_run sample_resample_last sample_gold
                      sample_snp500 (Qc_of_Z 1000) (Qc_of_Z 50) (Qc_of_Z 50)
                      24240 None)) 1 = Some st' /\
    Plotcomp.total_portfolio_values st' =
    Plotcomp.total_portfolio_values st ++
      [Some (Plotcomp.gold_shares st * Qc_of_Z 110
             + Plotcomp.snp500_shares st * Qc_of_Z 11 + Qc_of_Z 1000)%Qc].
Proof.
  set (trace := fst (Plotcomp.calculate_dca_run sample_resample_last sample_gold
                       sample_snp500 (Qc_of_Z 1000) (Qc_of_Z 50) (Qc_of_Z 50)
                       24240 None)).
  exists (nth 0 trace Plotcomp.initial_state).
  destruct (purchase_adds_monthly_amount sample_resample_last sample_gold
              sample_snp500 (Qc_of_Z 1000) (Qc_of_Z 50) (Qc_of_Z 50) 24240 None
              1 24241 (Qc_of_Z 110) (Qc_of_Z 11)
              (nth 0 trace Plotcomp.initial_state))
    as (st' & Hst' & Hv).
  - reflexivity.
  - simpl. tauto.
  - reflexivity.
  - reflexivity.
  - reflexivity.
  - reflexivity.
  - apply Qc_is_canon. reflexivity.
  - reflexivity.
  - exists st'. split; [reflexivity|]. split; [exact Hst' | exact Hv].
Defined.

Lemma nan_price_gives_nan_value_witness :
  exists st st',
    nth_error (Plotcomp.initial_state ::
               fst (Plotcomp.calculate_dca_run sample_resample_last gold_with_nan
                      sample_snp500 (Qc_of_Z 1000) (Qc_of_Z 50) (Qc_of_Z 50)
                      24240 None)) 1 = Some st /\
    nth_error (fst (Plotcomp.calculate_dca_run sample_resample_last gold_with_nan
                      sample_snp500 (Qc_of_Z 1000) (Qc_of_Z 50) (Qc_of_Z 50)
                      24240 None)) 1 = Some st' /\
    Plotcomp.total_portfolio_values st'
    = Plotcomp.total_portfolio_values st ++ [None] /\
    Plotcomp.gold_shares st' = Plotcomp.gold_shares st.
Proof.
  set (trace := fst (Plotcomp.calculate_dca_run sample_resample_last gold_with_nan
                       sample_snp500 (Qc_of_Z 1000) (Qc_of_Z 50) (Qc_of_Z 50)
                       24240 None)).
  exists (nth 0 trace Plotcomp.initial_state).
  destruct (nan_price_gives_nan_value sample_resample_last gold_with_nan
              sample_snp500 (Qc_of_Z 1000) (Qc_of_Z 50) (Qc_of_Z 50) 24240 None
              1 24241 (nth 0 trace Plotcomp.initial_state))
    as (st' & Hst' & Hv & Hg & _).
  - reflexivity.
  - simpl. tauto.
  - left. reflexivity.
  - reflexivity.
  - exists st'. split; [reflexivity|]. split; [exact Hst'|].
    split; [exact Hv | now apply Hg].
Defined.

(** ** collect_dca_scenarios *)

Section CollectMore.
Import Plotcomp.

Variable resample_last : string -> Series -> Series.
Hypothesis resample_last_nil : forall rule, resample_last rule [] = [].
Hypothesis resample_last_cons :
  forall rule p s, resample_last rule (p :: s) <> [].

Lemma run_scenario_inv (gold_monthly snp500_monthly : Series) (i : nat)
      (inp : ScenarioInput) (sc : Scenario) :
  run_scenario resample_last gold_monthly snp500_monthly i inp = Ok sc ->
  exists d0 pv ci,
    hd_error (labels gold_monthly) = Some d0 /\
    calculate_dca resample_last gold_monthly snp500_monthly (total_invest_in inp)
                  (gold_percentage_in inp)
                  (Qc_of_Z 100 - gold_percentage_in inp)%Qc d0
                  (rebalance_answer inp) = Ok (pv, ci) /\
    sc = (pv, ci, mkLabel (S i) (total_invest_in inp) (gold_percentage_in inp)
                          (Qc_of_Z 100 - gold_percentage_in inp)%Qc
                          (rebalance_answer inp)).
Proof.
  unfold run_scenario. destruct (labels gold_monthly) as [|d0 tl]; cbn [bind];
    [discriminate|].
  destruct (calculate_dca _ _ _ _ _ _ _ _) as [[pv ci]|e] eqn:E; cbn [bind];
    [|discriminate].
  intros [= <-]. exists d0, pv, ci. repeat split. exact E.
Qed.

Lemma collect_from_results (gold_monthly snp500_monthly : Series) (n : nat)
      (inputs : list ScenarioInput) (outs : list Scenario) :
  collect_from resample_last gold_monthly snp500_monthly n inputs = Ok outs ->
  length outs = length inputs /\
  forall i inp,
    nth_error inputs i = Some inp ->
    exists sc, nth_error outs i = Some sc /\
               run_scenario resample_last gold_monthly snp500_monthly (n + i) inp
               = Ok sc.
Proof.
  revert n outs. induction inputs as [|inp0 tl IH]; intros n outs;
    cbn [collect_from].
  - intros [= <-]. split; [reflexivity|]. intros [|i] inp H; discriminate.
  - destruct (run_scenario resample_last gold_monthly snp500_monthly n inp0)
      as [s0|e] eqn:E0; cbn [bind]; [|discriminate].
    destruct (collect_from resample_last gold_monthly snp500_monthly (S n) tl)
      as [rest|e] eqn:Er; cbn [bind]; [|discriminate].
    intros [= <-]. destruct (IH (S n) rest Er) as [Hlen Hnth].
    split; [simpl; congruence|]. intros [|i] inp Hi; cbn [nth_error] in *.
    + injection Hi as <-. exists s0. rewrite Nat.add_0_r. now split.
    + destruct (Hnth i inp Hi) as (sc & H1 & H2). exists sc.
      split; [exact H1|]. now rewrite Nat.add_succ_r.
Qed.

(** X23: a batch that [collect_dca_scenarios] returns has one result per
    scenario entered, in the order of entry; result [i] is what
    [calculate_dca] gives for that scenario alone from the first gold date
    on, and its label carries the number [i + 1], the amount and the
    percentage entered, and an index percentage that makes 100 with it. *)
Theorem collect_dca_scenarios_results (gold_monthly snp500_monthly : Series)
        (inputs : list ScenarioInput) (outs : list Scenario) :
  collect_dca_scenarios resample_last inputs gold_monthly snp500_monthly
  = Ok outs ->
  length outs = length inputs /\
  forall i inp,
    nth_error inputs i = Some inp ->
    exists d0 pv ci lab,
      nth_error outs i = Some (pv, ci, lab) /\
      hd_error (labels gold_monthly) = Some d0 /\
      calculate_dca resample_last gold_monthly snp500_monthly
                    (total_invest_in inp) (gold_percentage_in inp)
                    (label_snp_percentage lab) d0 (rebalance_answer inp)
      = Ok (pv, ci) /\
      scenario_number lab = S i /\
      label_total_invest lab = total_invest_in inp /\
      label_gold_percentage lab = gold_percentage_in inp /\
      (label_gold_percentage lab + label_snp_percentage lab)%Qc = Qc_of_Z 100 /\
      label_rebalance lab = rebalance_answer inp.
Proof.
  unfold collect_dca_scenarios. intros H.
  destruct (collect_from_results _ _ _ _ _ H) as [Hlen Hnth].
  split; [exact Hlen|]. intros i inp Hi.
  destruct (Hnth i inp Hi) as (sc & Hsc & Hrun). simpl in Hrun.
  destruct (run_scenario_inv _ _ _ _ _ Hrun) as (d0 & pv & ci & Hd0 & Hcalc & ->).
  exists d0, pv, ci. eexists. split; [exact Hsc|]. cbn.
  split; [exact Hd0|]. split; [exact Hcalc|].
  repeat split. ring.
Qed.

Lemma calculate_dca_succeeds (gold_monthly snp500_monthly : Series)
      (m gp sp : Qc) (start : Z) (rebalance_frequency : option string) :
  (exists out, calculate_dca resample_last gold_monthly snp500_monthly m gp sp
                             start rebalance_frequency = Ok out) <->
  eligible_dates gold_monthly snp500_monthly start <> [] /\
  unknown_frequency rebalance_frequency = false.
Proof.
  rewrite calculate_dca_unfold. cbv zeta.
  pose proof (built_series gold_monthly snp500_monthly m gp sp start) as H.
  cbv zeta in H. destruct H as (_ & Hpv & _).
  set (pv := value_series gold_monthly snp500_monthly m gp sp start) in *.
  set (ci := invested_series gold_monthly snp500_monthly m gp sp start) in *.
  assert (Hnil : pv = [] <-> eligible_dates gold_monthly snp500_monthly start = []).
  { split; intros E.
    - rewrite E in Hpv. symmetry in Hpv. now apply length_zero_iff_nil in Hpv.
    - rewrite E in Hpv. now apply length_zero_iff_nil in Hpv. }
  destruct rebalance_frequency as [f|]; cbn [unknown_frequency].
  - destruct (String.eqb f EmptyString); cbn [negb andb bind fst].
    + destruct pv as [|p pv']; split.
      * intros [out Ho]. discriminate.
      * intros [Hne _]. exfalso. apply Hne, Hnil. reflexivity.
      * intros _. split; [|reflexivity]. intros E. apply Hnil in E. discriminate.
      * intros _. eexists. reflexivity.
    + destruct (rebalance_period f) as [rule|]; cbn [bind fst].
      * destruct pv as [|p pv'].
        -- rewrite resample_last_nil. split.
           ++ intros [out Ho]. discriminate.
           ++ intros [Hne _]. exfalso. apply Hne, Hnil. reflexivity.
        -- destruct (resample_last rule (p :: pv')) eqn:E;
             [exfalso; exact (resample_last_cons _ _ _ E)|].
           split.
           ++ intros _. split; [|reflexivity].
              intros E'. apply Hnil in E'. discriminate.
           ++ intros _. eexists. reflexivity.
      * split; [intros [out Ho]; discriminate | intros [_ Ho]; discriminate].
  - cbn [bind fst]. destruct pv as [|p pv']; split.
    + intros [out Ho]. discriminate.
    + intros [Hne _]. exfalso. apply Hne, Hnil. reflexivity.
    + intros _. split; [|reflexivity]. intros E. apply Hnil in E. discriminate.
    + intros _. eexists. reflexivity.
Qed.

Lemma run_scenario_succeeds (gold_monthly snp500_monthly : Series) (i : nat)
      (inp : ScenarioInput) :
  (exists sc, run_scenario resample_last gold_monthly snp500_monthly i inp = Ok sc)
  <->
  exists d0, hd_error (labels gold_monthly) = Some d0 /\
             eligible_dates gold_monthly snp500_monthly d0 <> [] /\
             unknown_frequency (rebalance_answer inp) = false.
Proof.
  split.
  - intros [sc H]. destruct (run_scenario_inv _ _ _ _ _ H)
      as (d0 & pv & ci & Hd0 & Hcalc & _).
    exists d0. split; [exact Hd0|]. eapply calculate_dca_succeeds. eauto.
  - intros (d0 & Hd0 & Hel & Hf).
    destruct (proj2 (calculate_dca_succeeds gold_monthly snp500_monthly
                       (total_invest_in inp) (gold_percentage_in inp)
                       (Qc_of_Z 100 - gold_percentage_in inp)%Qc d0
                       (rebalance_answer inp)) (conj Hel Hf)) as [out Hout].
    unfold run_scenario. destruct (labels gold_monthly) as [|d tl];
      [discriminate|]. injection Hd0 as ->. cbn [bind]. rewrite Hout.
    cbn [bind]. eexists. reflexivity.
Qed.

(** X24: [collect_dca_scenarios] returns a batch exactly when no scenario is
    entered, or the two series share a date from the first gold date on and
    every frequency entered after a "yes" is one the program knows (or
    empty). *)
Theorem collect_dca_scenarios_succeeds (gold_monthly snp500_monthly : Series)
        (inputs : list ScenarioInput) :
  (exists outs, collect_dca_scenarios resample_last inputs gold_monthly
                                      snp500_monthly = Ok outs) <->
  inputs = [] \/
  exists d0, hd_error (labels gold_monthly) = Some d0 /\
             eligible_dates gold_monthly snp500_monthly d0 <> [] /\
             forall inp, In inp inputs ->
                         unknown_frequency (rebalance_answer inp) = false.
Proof.
  unfold collect_dca_scenarios. generalize 0%nat as n.
  induction inputs as [|inp tl IH]; intros n; cbn [collect_from].
  - split; [now left | intros _; now exists []].
  - split.
    + destruct (run_scenario resample_last gold_monthly snp500_monthly n inp)
        as [s0|e] eqn:E0; cbn [bind]; [|intros [outs H]; discriminate].
      destruct (collect_from resample_last gold_monthly snp500_monthly (S n) tl)
        as [rest|e] eqn:Er; cbn [bind]; [|intros [outs H]; discriminate].
      intros _. right.
      destruct (proj1 (run_scenario_succeeds _ _ _ _) (ex_intro _ s0 E0))
        as (d0 & Hd0 & Hel & Hf).
      exists d0. split; [exact Hd0|]. split; [exact Hel|].
      intros inp' [<-|Hin]; [exact Hf|].
      destruct (proj1 (IH (S n)) (ex_intro _ rest Er)) as [->|(d0' & Hd0' & _ & Hall)];
        [destruct Hin | now apply Hall].
    + intros [H|(d0 & Hd0 & Hel & Hall)]; [discriminate|].
      destruct (proj2 (run_scenario_succeeds gold_monthly snp500_monthly n inp))
        as [s0 E0].
      { exists d0. split; [exact Hd0|]. split; [exact Hel|].
        apply Hall. now left. }
      rewrite E0. cbn [bind].
      destruct (proj2 (IH (S n))) as [rest Er].
      { destruct tl as [|inp1 tl1]; [now left|]. right. exists d0.
        split; [exact Hd0|]. split; [exact Hel|].
        intros inp' Hin. apply Hall. now right. }
      rewrite Er. cbn [bind]. eexists. reflexivity.
Qed.

End CollectMore.

Lemma collect_dca_scenarios_results_witness :
  exists outs,
    Plotcomp.collect_dca_scenarios sample_resample_last
      [plain_scenario; quarterly_scenario] sample_gold sample_snp500 = Ok outs /\
    length outs = 2%nat.
Proof.
  destruct (Plotcomp.collect_dca_scenarios sample_resample_last
              [plain_scenario; quarterly_scenario] sample_gold sample_snp500)
    as [outs|e] eqn:E; [|vm_compute in E; discriminate].
  exists outs. split; [reflexivity|].
  apply (collect_dca_scenarios_results sample_resample_last sample_gold
           sample_snp500 [plain_scenario; quarterly_scenario] outs E).
Defined.

Lemma collect_dca_scenarios_succeeds_witness :
  (exists outs,
      Plotcomp.collect_dca_scenarios sample_resample_last
        [plain_scenario; weekly_scenario] sample_gold sample_snp500 = Ok outs)
  <->
  [plain_scenario; weekly_scenario] = [] \/
  exists d0, hd_error (Plotcomp.labels sample_gold) = Some d0 /\
             Plotcomp.eligible_dates sample_gold sample_snp500 d0 <> [] /\
             forall inp, In inp [plain_scenario; weekly_scenario] ->
                         unknown_frequency (Plotcomp.rebalance_answer inp) = false.
Proof.
  apply (collect_dca_scenarios_succeeds sample_resample_last
           sample_resample_last_nil sample_resample_last_cons
           sample_gold sample_snp500 [plain_scenario; weekly_scenario]).
Defined.

(** ** clean_data *)

Section CleanMore.
Import Plotcomp.

Variable to_datetime : list cell -> cell -> option Z.




(** X26: the frames [clean_data] returns have one row of values per label;
    a returned index is free of repeated dates provided different Date cells
    of the frame parse to different timestamps (rows are dropped by the text
    of their Date cell, before it is parsed). *)
Theorem clean_data_indexes (gold_df snp500_df : RawFrame) (g s : Frame) :
  clean_data to_datetime gold_df snp500_df = Ok (g, s) ->
  one_row_per_label g /\ one_row_per_label s /\
  (parses_apart to_datetime gold_df -> NoDup (index g)) /\
  (parses_apart to_datetime snp500_df -> NoDup (index s)).
Proof.
  unfold clean_data.
  destruct (clean_frame to_datetime gold_df) as [g'|e] eqn:Eg; cbn [bind];
    [|discriminate].
  destruct (clean_frame to_datetime snp500_df) as [s'|e] eqn:Es; cbn [bind];
    [|discriminate].
  intros [= <- <-].
  destruct (clean_frame_index _ _ _ Eg) as [G1 G2].
  destruct (clean_frame_index _ _ _ Es) as [S1 S2]. tauto.
Qed.

End CleanMore.


Lemma clean_data_indexes_witness :
  exists g s,
    Plotcomp.clean_data sample_to_datetime repeated_gold_df sample_snp500_df
    = Ok (g, s) /\
    one_row_per_label g /\ one_row_per_label s.
Proof.
  destruct (Plotcomp.clean_data sample_to_datetime repeated_gold_df
                                sample_snp500_df) as [[g s]|e] eqn:E;
    [|vm_compute in E; discriminate].
  exists g, s. split; [reflexivity|].
  destruct (clean_data_indexes sample_to_datetime repeated_gold_df
              sample_snp500_df g s E) as (H1 & H2 & _).
  split; assumption.
Defined.
